(** * OCR_Conversion: the unit extraction and normalisation pipeline

    A shallow embedding of [final_filter.py] (and of the three calls that
    [final_main.py] chains into a pipeline), with the properties of the
    natural-language specification stated and settled against it.

    Conventions of the embedding.

    - A Python [str] is a sequence of Unicode code points: [str := list N].
      Literals of the source are written [lit "kg"]; the four non-ASCII
      surface forms of the vocabulary are spelled with their code points
      (U+03BC GREEK SMALL LETTER MU, U+00B3 SUPERSCRIPT THREE).
    - The character classes of [re] ([\d], [\s], [\w]) and [str.lower] are
      written out for the ASCII range; what the interpreter's Unicode
      database says above U+007F is a parameter ([unicode_db]).
    - [rapidfuzz.process.extractOne] is the library's selection loop over an
      abstract scorer (the default scorer is [WRatio]); it is a parameter
      named [WRatio] below.
    - A Python [float] is an IEEE 754 binary64 number; one that is no NaN
      is written as the extended rational it denotes ([double]), and every
      conversion and product is rounded to the nearest double, ties to
      even, with overflow to infinity and gradual underflow ([round64]).
    - A call that can raise returns [result]: [Raise e] or [Ret v]. *)

From Stdlib Require Import String Ascii.
From Stdlib Require Import List Bool Arith NArith ZArith QArith Lia.
Import ListNotations.

Local Open Scope N_scope.
Local Open Scope list_scope.

(* ------------------------------------------------------------------ *)
(** ** Strings                                                          *)
(* ------------------------------------------------------------------ *)

Definition char := N.
Definition str := list char.

(** An ASCII literal of the source as a sequence of code points. *)
Definition lit (s : string) : str := map N_of_ascii (list_ascii_of_string s).

Fixpoint str_eqb (a b : str) : bool :=
  match a, b with
  | [], [] => true
  | x :: a', y :: b' => (x =? y) && str_eqb a' b'
  | _, _ => false
  end.

(** [x in xs] on a list (or a set) of strings. *)
Definition str_in (x : str) (xs : list str) : bool := existsb (str_eqb x) xs.

(** Longest prefix whose characters satisfy [p], and the remainder. *)
Fixpoint span (p : char -> bool) (s : str) : str * str :=
  match s with
  | c :: s' => if p c then let (m, r) := span p s' in (c :: m, r) else ([], s)
  | [] => ([], [])
  end.

Fixpoint drop_while (p : char -> bool) (s : str) : str :=
  match s with
  | c :: s' => if p c then drop_while p s' else s
  | [] => []
  end.

(* ------------------------------------------------------------------ *)
(** ** Character classes                                                *)
(* ------------------------------------------------------------------ *)

(** What Python's Unicode tables answer for a code point above U+007F.
    [uni_lower s i] is the lower-case expansion of the [i]-th character of
    [s] (it may depend on the context, as for a final sigma, and may be
    longer than one character). *)
Record unicode_db := {
  uni_decimal : char -> bool;
  uni_space : char -> bool;
  uni_alnum : char -> bool;
  uni_lower : str -> nat -> str
}.

Definition in_range (lo hi c : N) : bool := (lo <=? c) && (c <=? hi).

Definition ascii_digit (c : char) : bool := in_range 48 57 c.
Definition ascii_alpha (c : char) : bool := in_range 65 90 c || in_range 97 122 c.
(** TAB, LF, VT, FF, CR, FS, GS, RS, US and SPACE. *)
Definition ascii_space (c : char) : bool := in_range 9 13 c || in_range 28 32 c.
Definition ascii_lower (c : char) : char := if in_range 65 90 c then c + 32 else c.

Definition SPACE : char := 32.
Definition DOT : char := 46.

Section Classes.
Variable U : unicode_db.

(** [\d] *)
Definition re_digit (c : char) : bool :=
  if c <? 128 then ascii_digit c else uni_decimal U c.
(** [\s], also the characters removed by [str.strip()] *)
Definition re_space (c : char) : bool :=
  if c <? 128 then ascii_space c else uni_space U c.
(** [\w] *)
Definition re_word (c : char) : bool :=
  if c <? 128 then ascii_alpha c || ascii_digit c || (c =? 95) else uni_alnum U c.
(** [[a-zA-Z]] *)
Definition re_alpha (c : char) : bool := ascii_alpha c.
(** [[0-9.]] *)
Definition re_num_dot (c : char) : bool := ascii_digit c || (c =? DOT).

(** [s.lower()] *)
Fixpoint lower_from (whole : str) (i : nat) (s : str) : str :=
  match s with
  | [] => []
  | c :: s' =>
      (if c <? 128 then [ascii_lower c] else uni_lower U whole i)
        ++ lower_from whole (S i) s'
  end.
Definition py_lower (s : str) : str := lower_from s 0%nat s.

(** [s.strip()] *)
Definition py_strip (s : str) : str :=
  rev (drop_while re_space (rev (drop_while re_space s))).

(** [re.sub(r'\s+', ' ', s)]: every maximal run of white space becomes
    one SPACE.  [in_run] tells that the previous character was white. *)
Fixpoint sub_spaces (in_run : bool) (s : str) : str :=
  match s with
  | [] => []
  | c :: s' =>
      if re_space c
      then (if in_run then sub_spaces true s' else SPACE :: sub_spaces true s')
      else c :: sub_spaces false s'
  end.
End Classes.

(* ------------------------------------------------------------------ *)
(** ** Backtracking matcher                                             *)
(* ------------------------------------------------------------------ *)

(** [re] is a backtracking engine: a greedy repetition takes as many
    characters as it can and gives them back one at a time while the rest
    of the pattern fails.  [k matched rest] is the rest of the pattern. *)
Section Backtrack.
Context {A : Type}.

(** [p*] followed by [k] *)
Fixpoint star_bt (p : char -> bool) (s : str) (k : str -> str -> option A)
  : option A :=
  match s with
  | c :: s' =>
      if p c
      then match star_bt p s' (fun m r => k (c :: m) r) with
           | Some a => Some a
           | None => k [] s
           end
      else k [] s
  | [] => k [] s
  end.

(** [p+] followed by [k] *)
Definition plus_bt (p : char -> bool) (s : str) (k : str -> str -> option A)
  : option A :=
  match s with
  | c :: s' => if p c then star_bt p s' (fun m r => k (c :: m) r) else None
  | [] => None
  end.
End Backtrack.

(** The four groups of the pattern of [extract_numbers_with_units]: a
    number [\d+] with an optional fraction [\.\d+], optional white space
    and a run of letters [[a-zA-Z]+]. *)
Record groups := {
  g_number : str;     (* match[0] *)
  g_fraction : str;   (* match[1], empty when the group took no part *)
  g_spaces : str;     (* match[2] *)
  g_unit : str        (* match[3] *)
}.

Section Regex.
Variable U : unicode_db.

(** White space and letters, after the number [num] whose fraction group
    is [frac]. *)
Definition match_tail (num frac : str) (s : str) : option (groups * str) :=
  star_bt (re_space U) s (fun sp r =>
    plus_bt re_alpha r (fun u r' =>
      Some ({| g_number := num; g_fraction := frac;
               g_spaces := sp; g_unit := u |}, r'))).

(** One attempt of the pattern at the head of [s]: the groups and the
    text left after the match. *)
Definition match_pattern (s : str) : option (groups * str) :=
  plus_bt (re_digit U) s (fun d r1 =>
    match
      match r1 with
      | c :: r =>
          if c =? DOT
          then plus_bt (re_digit U) r (fun f r2 =>
                 match_tail (d ++ DOT :: f) (DOT :: f) r2)
          else None
      | [] => None
      end
    with
    | Some x => Some x
    | None => match_tail d [] r1
    end).

(** [re.findall(pattern, text)]: scan from the left; after a match go on
    behind it, otherwise one character further.  [skip] counts the
    characters of the last match still to be passed over. *)
Fixpoint findall_from (skip : nat) (s : str) : list groups :=
  match s with
  | [] => []
  | _ :: s' =>
      match skip with
      | S n => findall_from n s'
      | O =>
          match match_pattern s with
          | Some (g, rest) =>
              g :: findall_from (length s - length rest - 1) s'
          | None => findall_from 0 s'
          end
      end
  end.
Definition findall (text : str) : list groups := findall_from 0 text.

(** [re.match(r'([0-9.]+)\s*(\w+)', item)] and its two groups. *)
Definition match_number_unit (item : str) : option (str * str) :=
  plus_bt re_num_dot item (fun n r1 =>
    star_bt (re_space U) r1 (fun _ r2 =>
      plus_bt (re_word U) r2 (fun u _ => Some (n, u)))).
End Regex.

(* ------------------------------------------------------------------ *)
(** ** Floating-point numbers                                           *)
(* ------------------------------------------------------------------ *)

Definition Qlt_bool (a b : Q) : bool := negb (Qle_bool b a).

(** A Python [float] that is no NaN: a finite double is the rational it
    denotes (the two zeros are one value, they compare equal), and there
    are the two infinities.  Not every rational is a double; the doubles
    are the values of [round64]. *)
Inductive double :=
| NegInf
| Fin (q : Q)
| PosInf.

(** [a < b] on floats. *)
Definition flt_bool (a b : double) : bool :=
  match a, b with
  | Fin x, Fin y => Qlt_bool x y
  | NegInf, NegInf => false
  | NegInf, _ => true
  | Fin _, PosInf => true
  | _, _ => false
  end.

(** The integer nearest to [a / b], the even one of two that are equally
    near ([b] positive). *)
Definition round_half_even (a b : Z) : Z :=
  let k := (a / b)%Z in
  match (2 * (a mod b) ?= b)%Z with
  | Lt => k
  | Gt => (k + 1)%Z
  | Eq => if Z.even k then k else (k + 1)%Z
  end.

(** [(p / q) / 2 ^ e] as a fraction of two integers. *)
Definition scaled (p q e : Z) : Z * Z :=
  if (0 <=? e)%Z then (p, (q * 2 ^ e)%Z) else ((p * 2 ^ (- e))%Z, q).

(** The exponent of the leading bit of [p / q]: the integer [l] with
    [2 ^ l <= p / q < 2 ^ (l + 1)] ([p] and [q] positive). *)
Definition floor_log2 (p q : Z) : Z :=
  let l := (Z.log2 p - Z.log2 q)%Z in
  let (a, b) := scaled p q l in
  if (b <=? a)%Z then l else (l - 1)%Z.

(** Rounding of the positive rational [p / q] to binary64: the result is
    [m * 2 ^ e] where [e] is the exponent of the last of 53 significant
    bits, not below that of the subnormal numbers (-1074), and [m] is the
    nearest integer to [(p / q) / 2 ^ e], ties to even.  A result of
    [2 ^ 1024] or more is the infinity; [m] may be 0 (underflow). *)
Definition round_positive (p q : positive) : double :=
  let e := Z.max (floor_log2 (Zpos p) (Zpos q) - 52) (-1074) in
  let (a, b) := scaled (Zpos p) (Zpos q) e in
  let m := round_half_even a b in
  if (0 <=? e)%Z
  then if (2 ^ 1024 <=? m * 2 ^ e)%Z then PosInf else Fin (m * 2 ^ e # 1)
  else Fin (Qred (m # Z.to_pos (2 ^ (- e)))).

(** [- x] *)
Definition fneg (x : double) : double :=
  match x with
  | NegInf => PosInf
  | Fin q => Fin (- q)
  | PosInf => NegInf
  end.

(** The double nearest to a rational. *)
Definition round64 (x : Q) : double :=
  match Qnum x with
  | Z0 => Fin 0
  | Zpos p => round_positive p (Qden x)
  | Zneg p => fneg (round_positive p (Qden x))
  end.

(** The double of a decimal numeral: [decimal m k] has the digits of [m]
    and [k] of them behind the point, so [decimal 254 1] is the literal
    [25.4] and [decimal 1000 0] is [float(1000)].  The parser of Python
    and [float] round a numeral correctly. *)
Definition decimal (m : Z) (k : nat) : double :=
  round64 (m # Z.to_pos (10 ^ Z.of_nat k)).

(** [a * b] on floats: the exact product, rounded.  An infinity times a
    number that is not zero is an infinity with the product of the signs.
    An infinity times zero is a NaN, which [double] does not have: that
    case is given the value 0 here and is never reached by the converter,
    whose factors are all positive. *)
Definition fmul (a b : double) : double :=
  match a, b with
  | Fin x, Fin y => round64 (x * y)
  | Fin x, PosInf | PosInf, Fin x =>
      match (x ?= 0)%Q with Gt => PosInf | Lt => NegInf | Eq => Fin 0 end
  | Fin x, NegInf | NegInf, Fin x =>
      match (x ?= 0)%Q with Gt => NegInf | Lt => PosInf | Eq => Fin 0 end
  | PosInf, PosInf | NegInf, NegInf => PosInf
  | PosInf, NegInf | NegInf, PosInf => NegInf
  end.

(* ------------------------------------------------------------------ *)
(** ** Static tables                                                    *)
(* ------------------------------------------------------------------ *)

Definition MU : char := 956.       (* U+03BC *)
Definition CUBED : char := 179.    (* U+00B3 *)
Definition DQUOTE : char := 34.
Definition SQUOTE : char := 39.

(** A [dict] keeps its insertion order: an association list. *)
Definition dict (V : Type) := list (str * V).

Fixpoint dict_get {V : Type} (d : dict V) (k : str) : option V :=
  match d with
  | [] => None
  | (k', v) :: d' => if str_eqb k k' then Some v else dict_get d' k
  end.

Definition dict_keys {V : Type} (d : dict V) : list str := map fst d.
Definition dict_values {V : Type} (d : dict V) : list V := map snd d.

Definition unit_fullform_to_abbreviation : dict (list str) :=
  [ (lit "centimetre", [lit "cm"; lit "centimeter"; lit "centimetres"; lit "centimeters"]);
    (lit "millimetre", [lit "mm"; lit "millimeter"; lit "millimetres"; lit "millimeters"]);
    (lit "metre", [lit "m"; lit "meter"; lit "meters"; lit "metres"]);
    (lit "inch", [lit "in"; lit "inches"; [DQUOTE]]);
    (lit "foot", [lit "ft"; lit "feet"; [SQUOTE]]);
    (lit "yard", [lit "yd"; lit "yards"]);
    (lit "gram", [lit "g"; lit "gm"; lit "gms"; lit "grams"]);
    (lit "kilogram", [lit "kg"; lit "kgs"; lit "kilograms"]);
    (lit "milligram", [lit "mg"; lit "mgs"; lit "milligrams"]);
    (lit "microgram", [lit "mcg"; MU :: lit "g"; lit "micrograms"]);
    (lit "ounce", [lit "oz"; lit "ounces"]);
    (lit "pound", [lit "lb"; lit "lbs"; lit "pounds"]);
    (lit "ton", [lit "t"; lit "tonne"; lit "tonnes"; lit "tons"]);
    (lit "volt", [lit "v"; lit "volts"]);
    (lit "kilovolt", [lit "kv"; lit "kilovolts"]);
    (lit "millivolt", [lit "mv"; lit "millivolts"]);
    (lit "watt", [lit "w"; lit "watts"]);
    (lit "kilowatt", [lit "kw"; lit "kilowatts"]);
    (lit "litre", [lit "l"; lit "liters"; lit "litre"; lit "litres"]);
    (lit "millilitre", [lit "ml"; lit "milliliters"; lit "millilitres"; lit "mls"]);
    (lit "centilitre", [lit "cl"; lit "centiliters"; lit "centilitres"]);
    (lit "decilitre", [lit "dl"; lit "deciliters"; lit "decilitres"]);
    (lit "cubic foot", [lit "cu ft"; lit "ft" ++ [CUBED]]);
    (lit "cubic inch", [lit "cu in"; lit "in" ++ [CUBED]]);
    (lit "fluid ounce", [lit "fl oz"; lit "fluid ounces"]);
    (lit "gallon", [lit "gal"; lit "gallons"]);
    (lit "imperial gallon", [lit "imp gal"; lit "imperial gallons"]);
    (lit "pint", [lit "pt"; lit "pints"]);
    (lit "quart", [lit "qt"; lit "quarts"]);
    (lit "microlitre", [lit "ul"; MU :: lit "l"; lit "microlitres"; lit "microliters"]);
    (lit "cup", [lit "cup"; lit "cups"]) ].

(** The factors are the numbers of the literal: a literal with a point is
    the double nearest to it, and an [int] becomes the float of the same
    value when it is multiplied with a float. *)
Definition conversion_factors_to_smallest : dict double :=
  [ (lit "millimetre", decimal 1 0); (lit "centimetre", decimal 10 0);
    (lit "metre", decimal 1000 0);
    (lit "inch", decimal 254 1); (lit "foot", decimal 3048 1);
    (lit "yard", decimal 9144 1);
    (lit "milligram", decimal 1 0); (lit "gram", decimal 1000 0);
    (lit "kilogram", decimal 1000000 0);
    (lit "microgram", decimal 1 3); (lit "ounce", decimal 283495 1);
    (lit "pound", decimal 453592 0); (lit "ton", decimal 1000000000 0);
    (lit "millivolt", decimal 1 0); (lit "volt", decimal 1000 0);
    (lit "kilovolt", decimal 1000000 0);
    (lit "millilitre", decimal 1 0); (lit "litre", decimal 1000 0);
    (lit "centilitre", decimal 10 0); (lit "decilitre", decimal 100 0);
    (lit "fluid ounce", decimal 295735 4); (lit "gallon", decimal 378541 2);
    (lit "pint", decimal 473176 3); (lit "quart", decimal 946353 3);
    (lit "microlitre", decimal 1 3); (lit "cubic inch", decimal 163871 4);
    (lit "cubic foot", decimal 283168 1);
    (lit "watt", decimal 1 0); (lit "kilowatt", decimal 1000 0) ].

Definition unit_categories : dict (list str) :=
  [ (lit "length", [lit "millimetre"; lit "centimetre"; lit "metre"; lit "inch";
                     lit "foot"; lit "yard"]);
    (lit "weight", [lit "milligram"; lit "gram"; lit "kilogram"; lit "microgram";
                     lit "ounce"; lit "pound"; lit "ton"]);
    (lit "voltage", [lit "millivolt"; lit "volt"; lit "kilovolt"]);
    (lit "volume", [lit "millilitre"; lit "litre"; lit "centilitre"; lit "decilitre";
                     lit "fluid ounce"; lit "gallon"; lit "pint"; lit "quart";
                     lit "microlitre"; lit "cubic inch"; lit "cubic foot"]);
    (lit "wattage", [lit "watt"; lit "kilowatt"]) ].

(** [[abbrev for unit_list in ....values() for abbrev in unit_list]] *)
Definition all_units : list str := concat (dict_values unit_fullform_to_abbreviation).

(** [set(unit_fullform_to_abbreviation.keys())] *)
Definition allowed_units : list str := dict_keys unit_fullform_to_abbreviation.

(* ------------------------------------------------------------------ *)
(** ** Part 1: extraction and fuzzy matching                            *)
(* ------------------------------------------------------------------ *)

(** The score that ends the search of [extractOne] at once. *)
Definition optimal_score : Q := 100%Q.
(** [score_cutoff=95] *)
Definition score_cutoff : Q := 95%Q.

Section Matcher.
(** The scorer of [process.extractOne]; rapidfuzz's default is [WRatio],
    a similarity between 0 and 100. *)
Variable WRatio : str -> str -> Q.

(** The loop of [extractOne(query, choices, score_cutoff=cutoff)]: a
    choice replaces the current result when its score reaches the cutoff
    and is strictly above the best score so far, so the first of several
    best choices is kept; a choice with the optimal score ends the loop.
    The result is [(choice, score, index)]. *)
Fixpoint extractOne_from (query : str) (choices : list str) (cutoff : Q)
         (index : nat) (result : option (str * Q * nat))
  : option (str * Q * nat) :=
  match choices with
  | [] => result
  | choice :: rest =>
      let score := WRatio query choice in
      let result' :=
        if Qle_bool cutoff score &&
           match result with
           | None => true
           | Some (_, best, _) => Qlt_bool best score
           end
        then Some (choice, score, index)
        else result in
      if Qeq_bool score optimal_score then result'
      else extractOne_from query rest cutoff (S index) result'
  end.

Definition extractOne (query : str) (choices : list str) (cutoff : Q)
  : option (str * Q * nat) :=
  extractOne_from query choices cutoff 0%nat None.

Variable U : unicode_db.

(** The body of the loop over [matches]: what one match appends to
    [results], [f"{number} {matched_unit}"] or nothing. *)
Definition fuzzy_item (m : groups) : list str :=
  let number := g_number m in
  let unit_candidate := g_unit m in
  match extractOne unit_candidate all_units score_cutoff with
  | Some (matched_unit, _, _) => [number ++ SPACE :: matched_unit]
  | None => []
  end.

Definition extract_numbers_with_units (text : str) : list str :=
  flat_map fuzzy_item (findall U text).

(* ---------------------------------------------------------------- *)
(** ** Part 2: separation of numbers and units                       *)
(* ---------------------------------------------------------------- *)

Fixpoint separate_numbers_and_units (output : list str) : list str * list str :=
  match output with
  | [] => ([], [])
  | item :: rest =>
      let (numbers_list, units_list) := separate_numbers_and_units rest in
      match match_number_unit U item with
      | Some (number, unit) => (number :: numbers_list, unit :: units_list)
      | None => (numbers_list, units_list)
      end
  end.

(* ---------------------------------------------------------------- *)
(** ** Part 3: full forms                                            *)
(* ---------------------------------------------------------------- *)

(** [re.sub(r'\s+', ' ', unit_input.lower().strip())] *)
Definition clean_unit (unit_input : str) : str :=
  sub_spaces U false (py_strip U (py_lower U unit_input)).

(** The loop over [unit_fullform_to_abbreviation.items()]. *)
Fixpoint full_unit_lookup (unit_input : str) (items : dict (list str)) : str :=
  match items with
  | [] => []
  | (full_unit, abbreviations) :: rest =>
      if str_eqb unit_input full_unit || str_in unit_input abbreviations
      then full_unit
      else full_unit_lookup unit_input rest
  end.

Definition get_full_unit (unit_input : str) : str :=
  full_unit_lookup (clean_unit unit_input) unit_fullform_to_abbreviation.

(** [f"{num} {unit}"] *)
Definition display (num unit : str) : str := num ++ SPACE :: unit.

Definition convert_to_full_unit (input_text : str)
  : list str * list str * list str :=
  let output := extract_numbers_with_units input_text in
  let (numbers, units) := separate_numbers_and_units output in
  let full_units := map get_full_unit units in
  let final_result :=
    map (fun p => display (fst p) (snd p)) (combine numbers full_units) in
  (final_result, numbers, full_units).
End Matcher.

(* ------------------------------------------------------------------ *)
(** ** Exceptions                                                       *)
(* ------------------------------------------------------------------ *)

Inductive exn := ValueError | KeyError.

Inductive result (A : Type) :=
| Raise (e : exn)
| Ret (a : A).
Arguments Raise {A} e.
Arguments Ret {A} a.

Definition bind {A B : Type} (m : result A) (f : A -> result B) : result B :=
  match m with
  | Raise e => Raise e
  | Ret a => f a
  end.

Notation "x <- m ;; k" := (bind m (fun x => k))
  (at level 61, m at next level, right associativity).

(** [d[k]] *)
Definition subscript {V : Type} (d : dict V) (k : str) : result V :=
  match dict_get d k with
  | Some v => Ret v
  | None => Raise KeyError
  end.

(* ------------------------------------------------------------------ *)
(** ** Part 4: categorisation and conversion                            *)
(* ------------------------------------------------------------------ *)

Fixpoint digits_value (acc : Z) (ds : str) : Z :=
  match ds with
  | [] => acc
  | c :: ds' => digits_value (10 * acc + Z.of_N (c - 48)) ds'
  end.

(** [float(num)] on a string over [[0-9.]], the only strings that
    [separate_numbers_and_units] puts in its list of numbers: digits with
    at most one point and at least one digit are read as the double
    nearest to their decimal value (the infinity when that is too large),
    anything else over that alphabet raises [ValueError].  Signs,
    exponents, underscores, surrounding blanks, [inf], [nan] and non-ASCII
    digits, which [float] also reads, are not modelled (such strings are
    reported as [ValueError] here). *)
Definition py_float (num : str) : result double :=
  let (int_part, r) := span ascii_digit num in
  match r with
  | [] =>
      match int_part with
      | [] => Raise ValueError
      | _ => Ret (decimal (digits_value 0 int_part) 0)
      end
  | c :: frac_part =>
      if (c =? DOT) && forallb ascii_digit frac_part
         && negb (Nat.eqb (length int_part + length frac_part) 0)
      then Ret (decimal (digits_value 0 (int_part ++ frac_part)) (length frac_part))
      else Raise ValueError
  end.

(** A Measurement as the code keeps it: [(converted_value, f"{num} {unit}")]. *)
Definition measurement := (double * str)%type.

(** [categorized_values[category].append(x)] *)
Fixpoint dict_append (d : dict (list measurement)) (category : str) (x : measurement)
  : result (dict (list measurement)) :=
  match d with
  | [] => Raise KeyError
  | (k, l) :: d' =>
      if str_eqb category k then Ret ((k, l ++ [x]) :: d')
      else d'' <- dict_append d' category x ;; Ret ((k, l) :: d'')
  end.

Definition empty_categorized_values : dict (list measurement) :=
  [ (lit "length", []); (lit "weight", []); (lit "voltage", []);
    (lit "volume", []); (lit "wattage", []) ].

(** The inner loop, [for category, unit_set in unit_categories.items()]. *)
Fixpoint categorize_one (num unit : str) (categories : dict (list str))
         (categorized_values : dict (list measurement))
  : result (dict (list measurement)) :=
  match categories with
  | [] => Ret categorized_values
  | (category, unit_set) :: rest =>
      if str_in unit unit_set
      then
        f <- py_float num ;;
        factor <- subscript conversion_factors_to_smallest unit ;;
        let converted_value := fmul f factor in
        cv <- dict_append categorized_values category
                (converted_value, num ++ SPACE :: unit) ;;
        categorize_one num unit rest cv
      else categorize_one num unit rest categorized_values
  end.

(** The outer loop, [for num, unit in zip(numbers, result)]. *)
Fixpoint categorize_loop (pairs : list (str * str))
         (categorized_values : dict (list measurement))
  : result (dict (list measurement)) :=
  match pairs with
  | [] => Ret categorized_values
  | (num, unit) :: rest =>
      cv <- categorize_one num unit unit_categories categorized_values ;;
      categorize_loop rest cv
  end.

Definition categorize_values (numbers units : list str)
  : result (dict (list measurement)) :=
  categorize_loop (combine numbers units) empty_categorized_values.

(* ------------------------------------------------------------------ *)
(** ** Part 5: selection                                                *)
(* ------------------------------------------------------------------ *)

(** [max(l, key=lambda x: x[0])]: the first item with the largest key. *)
Fixpoint max_from (best : measurement) (l : list measurement) : measurement :=
  match l with
  | [] => best
  | x :: l' => max_from (if flt_bool (fst best) (fst x) then x else best) l'
  end.

(** [min(l, key=lambda x: x[0])]: the first item with the smallest key. *)
Fixpoint min_from (best : measurement) (l : list measurement) : measurement :=
  match l with
  | [] => best
  | x :: l' => min_from (if flt_bool (fst x) (fst best) then x else best) l'
  end.

Definition py_max (l : list measurement) : result measurement :=
  match l with
  | [] => Raise ValueError
  | x :: l' => Ret (max_from x l')
  end.

Definition py_min (l : list measurement) : result measurement :=
  match l with
  | [] => Raise ValueError
  | x :: l' => Ret (min_from x l')
  end.

(** Truth value of a list. *)
Definition truthy {A : Type} (l : list A) : bool :=
  match l with [] => false | _ => true end.

(** [a and d[k]] as the condition of an [if]: [d[k]] is evaluated only when
    [a] holds. *)
Definition and_subscript (a : bool) (d : dict (list measurement)) (k : str)
  : result bool :=
  if a then l <- subscript d k ;; Ret (truthy l) else Ret false.

(** [None] of Python is [None] of [option]. *)
Definition get_entity_value (entity_value : str)
           (categorized_values : dict (list measurement))
  : result (option str) :=
  c1 <- and_subscript
          (str_in entity_value [lit "item_weight"; lit "maximum_weight_recommendation"])
          categorized_values (lit "weight") ;;
  if c1 then
    l <- subscript categorized_values (lit "weight") ;;
    m <- py_max l ;; Ret (Some (snd m))
  else
  c2 <- and_subscript (str_eqb entity_value (lit "voltage"))
          categorized_values (lit "voltage") ;;
  if c2 then
    l <- subscript categorized_values (lit "voltage") ;;
    m <- py_max l ;; Ret (Some (snd m))
  else
  c3 <- and_subscript (str_eqb entity_value (lit "item_volume"))
          categorized_values (lit "volume") ;;
  if c3 then
    l <- subscript categorized_values (lit "volume") ;;
    m <- py_max l ;; Ret (Some (snd m))
  else
  c4 <- and_subscript (str_eqb entity_value (lit "wattage"))
          categorized_values (lit "wattage") ;;
  if c4 then
    l <- subscript categorized_values (lit "wattage") ;;
    m <- py_max l ;; Ret (Some (snd m))
  else
  c5 <- and_subscript
          (str_in entity_value [lit "width"; lit "depth"; lit "height"])
          categorized_values (lit "length") ;;
  if c5 then
    if str_eqb entity_value (lit "width") then
      l <- subscript categorized_values (lit "length") ;;
      m <- py_min l ;; Ret (Some (snd m))
    else
      l <- subscript categorized_values (lit "length") ;;
      m <- py_max l ;; Ret (Some (snd m))
  else Ret None.

(* ------------------------------------------------------------------ *)
(** ** The pipeline of [final_main.py]                                  *)
(* ------------------------------------------------------------------ *)

(** [convert_to_full_unit], [categorize_values] and [get_entity_value] as
    the main loop chains them for one row. *)
Definition pipeline (WRatio : str -> str -> Q) (U : unicode_db)
           (extracted_text entity_name : str) : result (option str) :=
  let '(_, num, units) := convert_to_full_unit WRatio U extracted_text in
  categorized_values <- categorize_values num units ;;
  get_entity_value entity_name categorized_values.

(* ------------------------------------------------------------------ *)
(** ** Concrete instances used in examples                              *)
(* ------------------------------------------------------------------ *)

(** A database that knows nothing above U+007F but the two characters of
    the vocabulary: MU and SUPERSCRIPT THREE are alphanumeric and are their
    own lower case, as in Unicode. *)
Definition basic_db : unicode_db :=
  {| uni_decimal := fun _ => false;
     uni_space := fun _ => false;
     uni_alnum := fun c => (c =? MU) || (c =? CUBED);
     uni_lower := fun s i => match nth_error s i with Some c => [c] | None => [] end |}.

(** Length of a longest common subsequence, one row of the table at a
    time: [prev] is the row of the shorter prefix of the first string. *)
Fixpoint lcs_row (x : char) (b : str) (prev : list nat) (diag left : nat) : list nat :=
  match b, prev with
  | y :: b', up :: prev' =>
      let cur := if x =? y then S diag else Nat.max up left in
      cur :: lcs_row x b' prev' up cur
  | _, _ => []
  end.

Definition lcs (a b : str) : nat :=
  last (fold_left (fun row x => lcs_row x b row 0%nat 0%nat) a (map (fun _ => 0%nat) b)) 0%nat.

(** rapidfuzz's [fuzz.ratio], the normalised Indel similarity from which
    [WRatio] starts: [100 * 2 * lcs / (len1 + len2)], and 0 on an empty
    string as [WRatio] has it. *)
Definition indel_ratio (a b : str) : Q :=
  match a, b with
  | [], _ | _, [] => 0%Q
  | _, _ => Z.of_nat (200 * lcs a b) # Pos.of_nat (length a + length b)
  end.

(* ------------------------------------------------------------------ *)
(** ** Notions of the specification                                     *)
(* ------------------------------------------------------------------ *)

Inductive direction := TakeMaximum | TakeMinimum.

(** The Entity Selection Rule table as the specification words it: entity
    name to category and direction.  The code has no such table, only the
    chain of tests of [get_entity_value]. *)
Definition entity_rule_table : dict (str * direction) :=
  [ (lit "item_weight", (lit "weight", TakeMaximum));
    (lit "maximum_weight_recommendation", (lit "weight", TakeMaximum));
    (lit "voltage", (lit "voltage", TakeMaximum));
    (lit "item_volume", (lit "volume", TakeMaximum));
    (lit "wattage", (lit "wattage", TakeMaximum));
    (lit "width", (lit "length", TakeMinimum));
    (lit "depth", (lit "length", TakeMaximum));
    (lit "height", (lit "length", TakeMaximum)) ].

Definition entity_rule (entity_name : str) : option (str * direction) :=
  dict_get entity_rule_table entity_name.

(** Selection as the specification describes it: look the rule up, take
    the list of the rule's category, answer with the display string of the
    extremal Measurement.  A category that is no key of the mapping is the
    [KeyError] of the subscript. *)
Definition select (entity_name : str) (categorized : dict (list measurement))
  : result (option str) :=
  match entity_rule entity_name with
  | None => Ret None
  | Some (category, d) =>
      match dict_get categorized category with
      | None => Raise KeyError
      | Some [] => Ret None
      | Some (x :: l) =>
          Ret (Some (snd match d with
                         | TakeMaximum => max_from x l
                         | TakeMinimum => min_from x l
                         end))
      end
  end.

(** The order of the extended rationals: [a <= b] and [a < b]. *)
Definition fle (a b : double) : Prop :=
  match a, b with
  | Fin x, Fin y => (x <= y)%Q
  | NegInf, _ => True
  | _, PosInf => True
  | _, _ => False
  end.

Definition flt (a b : double) : Prop :=
  match a, b with
  | Fin x, Fin y => (x < y)%Q
  | NegInf, NegInf => False
  | NegInf, _ => True
  | Fin _, PosInf => True
  | _, _ => False
  end.

(** [a] is at least as good as [b] in direction [d]. *)
Definition at_least (d : direction) (a b : double) : Prop :=
  match d with
  | TakeMaximum => fle b a
  | TakeMinimum => fle a b
  end.

(** [a] is strictly better than [b] in direction [d]. *)
Definition beats (d : direction) (a b : double) : Prop :=
  match d with
  | TakeMaximum => flt b a
  | TakeMinimum => flt a b
  end.

(** [m] is the first Measurement of [l] whose value is extremal: it stands
    at some position [i], no Measurement of [l] is better, and everything
    before position [i] is strictly worse. *)
Definition first_extremal (d : direction) (l : list measurement) (m : measurement)
  : Prop :=
  exists i : nat,
    nth_error l i = Some m /\
    (forall x, In x l -> at_least d (fst m) (fst x)) /\
    (forall j x, (j < i)%nat -> nth_error l j = Some x -> beats d (fst m) (fst x)).

(** The shape of a number matched by the extraction pattern: digits, or
    digits, a point and digits. *)
Definition number_form (U : unicode_db) (n : str) : Prop :=
  exists d : str,
    d <> [] /\ forallb (re_digit U) d = true /\
    (n = d \/
     exists f : str, f <> [] /\ forallb (re_digit U) f = true /\ n = d ++ DOT :: f).

(** All five categories are keys, in the order of the literal. *)
Definition five_keys (cv : dict (list measurement)) : Prop :=
  dict_keys cv = dict_keys empty_categorized_values.

(** The unit belongs to no category of the registry. *)
Definition uncategorized (unit : str) : Prop :=
  forall category unit_set,
    In (category, unit_set) unit_categories -> ~ In unit unit_set.

(** A character that the Unicode database leaves alone: it is no white
    space and it is its own lower case wherever it stands. *)
Definition stable (U : unicode_db) (c : char) : Prop :=
  (c <? 128) = false /\
  uni_space U c = false /\
  forall whole i, nth_error whole i = Some c -> uni_lower U whole i = [c].

(** [spelled U blank b s]: [b] is [s] with ASCII letters in either case,
    other characters unchanged, and every SPACE of [s] written as a
    non-empty run of ASCII white space followed by a further character.
    A run may start [b] only when [blank] is set. *)
Inductive spelled (U : unicode_db) : bool -> str -> str -> Prop :=
| sp_end blank : spelled U blank [] []
| sp_ascii blank c t s :
    (c <? 128) = true -> ascii_space c = false ->
    spelled U true t s -> spelled U blank (c :: t) (ascii_lower c :: s)
| sp_stable blank c t s :
    stable U c -> spelled U true t s -> spelled U blank (c :: t) (c :: s)
| sp_blank w t s :
    w <> [] -> forallb ascii_space w = true ->
    t <> [] -> spelled U false t s ->
    spelled U true (w ++ t) (SPACE :: s).

(** [t] is a variant of the surface form [s]: a spelling of [s] between
    two runs of ASCII white space. *)
Definition variant (U : unicode_db) (t s : str) : Prop :=
  exists w1 b w2,
    t = w1 ++ b ++ w2 /\
    forallb ascii_space w1 = true /\ forallb ascii_space w2 = true /\
    spelled U false b s.

(** [s] is a surface form of the canonical unit [u]: the name itself or
    one of its abbreviations. *)
Definition surface_form (u s : str) : Prop :=
  exists abbreviations,
    In (u, abbreviations) unit_fullform_to_abbreviation /\
    (s = u \/ In s abbreviations).

(* ------------------------------------------------------------------ *)
(** ** Stated properties and example data                              *)
(* ------------------------------------------------------------------ *)

Definition weights_500_1000 : dict (list measurement) :=
  [ (lit "length", []);
    (lit "weight", [(Fin 500, lit "500 gram"); (Fin 1000, lit "1 kilogram")]);
    (lit "voltage", []); (lit "volume", []); (lit "wattage", []) ].

Definition lengths_10_5 : dict (list measurement) :=
  [ (lit "length", [(Fin 10, lit "10 centimetre"); (Fin 5, lit "5 centimetre")]);
    (lit "weight", []); (lit "voltage", []); (lit "volume", []);
    (lit "wattage", []) ].

Definition weights_tied : dict (list measurement) :=
  [ (lit "length", []);
    (lit "weight", [(Fin 1000, lit "1000 gram"); (Fin 1000, lit "1 kilogram")]);
    (lit "voltage", []); (lit "volume", []); (lit "wattage", []) ].

(** The property that every accepted match is given a canonical unit:
    each string of the results is split by [separate_numbers_and_units]
    and its unit has a non-empty full form. *)
Definition accepted_units_recognized (WRatio : str -> str -> Q) (U : unicode_db)
           (text : str) : Prop :=
  forall item, In item (extract_numbers_with_units WRatio U text) ->
    exists number unit,
      match_number_unit U item = Some (number, unit) /\
      get_full_unit U unit <> [].

(** The surface forms that are lost between the matcher and the normaliser
    when they follow the number "5": the second pattern stops at the first
    character that is no word character. *)
Definition lost_surface_forms (U : unicode_db) : list str :=
  filter (fun matched =>
            match match_number_unit U (lit "5" ++ SPACE :: matched) with
            | Some (_, unit) => str_eqb (get_full_unit U unit) []
            | None => true
            end) all_units.

(** A Measurement of category [category] that stems from one of [pairs]:
    the unit of the pair is in the category, its number is read by [float],
    the value is the product with the unit's factor and the display string
    is the pair itself. *)
Definition measured (pairs : list (str * str)) (category : str) (m : measurement)
  : Prop :=
  exists num unit unit_set f factor,
    In (num, unit) pairs /\
    In (category, unit_set) unit_categories /\ In unit unit_set /\
    py_float num = Ret f /\
    dict_get conversion_factors_to_smallest unit = Some factor /\
    m = (fmul f factor, num ++ SPACE :: unit).

Definition all_measured (pairs : list (str * str)) (cv : dict (list measurement))
  : Prop :=
  forall k l m, In (k, l) cv -> In m l -> measured pairs k m.

(** The property that only positive magnitudes are kept. *)
Definition only_positive_measurements : Prop :=
  forall numbers units cv,
    categorize_values numbers units = Ret cv ->
    forall k l m, In (k, l) cv -> In m l -> flt (Fin 0) (fst m).

(** The property that every canonical name is a candidate of the matcher. *)
Definition canonical_names_are_candidates : Prop :=
  forall u, In u allowed_units -> In u all_units.

(** Lower case of a character that is ASCII or left alone by Unicode. *)
Definition low (c : char) : char := if c <? 128 then ascii_lower c else c.

(** A surface form as the vocabulary writes it: lower-case ASCII, MU or
    SUPERSCRIPT THREE, and single SPACEs between two other characters
    ([blank] tells that a SPACE may come next). *)
Fixpoint plain (blank : bool) (s : str) : bool :=
  match s with
  | [] => true
  | c :: s' =>
      if c =? SPACE
      then blank && match s' with [] => false | _ => true end && plain false s'
      else (((c <? 128) && negb (ascii_space c) && (ascii_lower c =? c))
            || (c =? MU) || (c =? CUBED))
           && plain true s'
  end.

(* ------------------------------------------------------------------ *)
(** ** [final_main.py]: text acquisition and the batch loop             *)
(* ------------------------------------------------------------------ *)

(** [sep.join(l)] *)
Fixpoint py_join (sep : str) (l : list str) : str :=
  match l with
  | [] => []
  | a :: rest =>
      match rest with
      | [] => a
      | _ => a ++ sep ++ py_join sep rest
      end
  end.

(** [easyocr_model]: the text fields of what the reader returns, joined by
    single spaces.  The reader is EasyOCR's; an item is
    [(box, text, confidence)]. *)
Definition easyocr_model {image box : Type}
           (readtext : image -> list (box * str * Q)) (img : image) : str :=
  let result := readtext img in
  py_join [SPACE] (map (fun item => snd (fst item)) result).

(** [np.mean] of an array of integers, all its elements taken together;
    the mean of an empty array is [nan], here [None]. *)
Definition np_mean (pixels : list N) : option Q :=
  match pixels with
  | [] => None
  | _ => Some (Z.of_N (fold_right N.add 0 pixels) # Pos.of_nat (length pixels))
  end.

(** [cv2.bitwise_not] on 8-bit pixels. *)
Definition bitwise_not (pixels : list N) : list N := map (fun p => 255 - p) pixels.

(** [inversion_check]: the grey image (OpenCV's conversion is a parameter,
    the image is the sequence of its 8-bit pixels) is inverted when its mean
    is below 127; a comparison with [nan] is false. *)
Definition inversion_check {image : Type} (grayscale : image -> list N)
           (img : image) : list N :=
  let gray_image := grayscale img in
  match np_mean gray_image with
  | Some mean_intensity =>
      if Qlt_bool mean_intensity 127 then bitwise_not gray_image else gray_image
  | None => gray_image
  end.

(** A row of the input table and an item of [results]. *)
Record data_row := {
  row_index : Z;
  row_image_link : str;
  row_entity_name : str
}.

Record prediction := {
  pred_index : Z;
  pred_value : option str
}.

(** The output file: a header line and one line per prediction. *)
Inductive csv_line :=
| Header
| Line (p : prediction).

Definition batch_size : Z := 5.

(** The two branches on [os.path.isfile(output_csv)]: a file that does not
    exist ([None]) is created with a header, an existing one is appended to
    without a header. *)
Definition to_csv (results : list prediction) (file : option (list csv_line))
  : list csv_line :=
  match file with
  | None => Header :: map Line results
  | Some old => old ++ map Line results
  end.

Section MainLoop.
Variable WRatio : str -> str -> Q.
Variable U : unicode_db.
(** The outside world: the download ([None] when it fails) and the block
    under [try], image processing and OCR, which ends with the text or with
    an exception whose message is [inl]. *)
Variable image : Type.
Variable load_image_from_url : str -> option image.
Variable ocr : image -> str + str.

Definition extracted_text_of (image_link : str) : str :=
  match load_image_from_url image_link with
  | Some img =>
      match ocr img with
      | inr text => text
      | inl e => lit "Error: " ++ e
      end
  | None => lit "Image not available"
  end.

(** The body of the main loop up to [final_val]. *)
Definition final_val_of (row : data_row) : result (option str) :=
  pipeline WRatio U (extracted_text_of (row_image_link row)) (row_entity_name row).

(** The main loop over [data.iterrows()]: [results] is the list not yet
    saved, [file] the content of [output_csv], [len_data] is [len(data)]. *)
Fixpoint main_loop (len_data : Z) (rows : list data_row)
         (results : list prediction) (file : option (list csv_line))
  : result (list prediction * option (list csv_line)) :=
  match rows with
  | [] => Ret (results, file)
  | row :: rest =>
      let index := row_index row in
      final_val <- final_val_of row ;;
      let results := results ++ [{| pred_index := index; pred_value := final_val |}] in
      if (((index + 1) mod batch_size =? 0)%Z || (index =? len_data - 1)%Z)%bool
      then main_loop len_data rest [] (Some (to_csv results file))
      else main_loop len_data rest results file
  end.

Definition main (data : list data_row) (file : option (list csv_line))
  : result (list prediction * option (list csv_line)) :=
  main_loop (Z.of_nat (length data)) data [] file.

(** One turn of the loop, the body of the [for] statement, on the state
    [(results, file)]. *)
Definition main_body (len_data : Z) (row : data_row)
           (state : list prediction * option (list csv_line))
  : result (list prediction * option (list csv_line)) :=
  let (results, file) := state in
  let index := row_index row in
  final_val <- final_val_of row ;;
  let results := results ++ [{| pred_index := index; pred_value := final_val |}] in
  if (((index + 1) mod batch_size =? 0)%Z || (index =? len_data - 1)%Z)%bool
  then Ret ([], Some (to_csv results file))
  else Ret (results, file).

(** The state after the turns for [rows], one after the other. *)
Fixpoint state_after (len_data : Z) (rows : list data_row)
         (state : list prediction * option (list csv_line))
  : result (list prediction * option (list csv_line)) :=
  match rows with
  | [] => Ret state
  | row :: rest => s <- main_body len_data row state ;; state_after len_data rest s
  end.

(** The test that saves the batch after the row. *)
Definition saves_after (len_data : Z) (row : data_row) : bool :=
  (((row_index row + 1) mod batch_size =? 0)%Z || (row_index row =? len_data - 1)%Z)%bool.

(** The prediction of a row, [None] standing also for a raised exception
    (of which there is none, see [final_val_returns]). *)
Definition record_of (row : data_row) : prediction :=
  {| pred_index := row_index row;
     pred_value := match final_val_of row with Ret v => v | Raise _ => None end |}.
End MainLoop.

(** A small outside world for examples: the link "missing" cannot be
    loaded, the image of "broken" makes the OCR block raise with the
    message "5 kg", every other image reads "Net Wt 2.5 kg". *)
Definition sample_load (image_link : str) : option str :=
  if str_eqb image_link (lit "missing") then None else Some image_link.

Definition sample_ocr (img : str) : str + str :=
  if str_eqb img (lit "broken") then inl (lit "5 kg") else inr (lit "Net Wt 2.5 kg").

Definition sample_row (index : Z) : data_row :=
  {| row_index := index; row_image_link := lit "a.jpg";
     row_entity_name := lit "item_weight" |}.

(* ------------------------------------------------------------------ *)
(** ** Further notions                                                  *)
(* ------------------------------------------------------------------ *)

(** The unit belongs to the unit set of the category. *)
Definition in_category (category unit : str) : bool :=
  match dict_get unit_categories category with
  | Some unit_set => str_in unit unit_set
  | None => false
  end.

(** What a pair contributes to the list of a category, given the registry
    of categories: a Measurement when the unit is in the unit set. *)
Definition contribution_in (categories : dict (list str)) (category : str)
           (pair : str * str) : list measurement :=
  let (num, unit) := pair in
  match dict_get categories category with
  | Some unit_set =>
      if str_in unit unit_set
      then match py_float num, dict_get conversion_factors_to_smallest unit with
           | Ret f, Some factor => [(fmul f factor, num ++ SPACE :: unit)]
           | _, _ => []
           end
      else []
  | None => []
  end.

(** The list comprehension that [categorize_values] amounts to for one
    category. *)
Definition contribution (category : str) (pair : str * str) : list measurement :=
  contribution_in unit_categories category pair.

(** The unit is in some category. *)
Definition categorized (unit : str) : bool :=
  existsb (fun cs : str * list str => str_in unit (snd cs)) unit_categories.

(** The first category of the registry whose unit set holds the unit. *)
Definition category_of (unit : str) : option str :=
  match find (fun cs : str * list str => str_in unit (snd cs)) unit_categories with
  | Some cs => Some (fst cs)
  | None => None
  end.

(** A pair that stops [categorize_values]: its unit is in a category and
    its number is not read by [float]. *)
Definition stops_converter (pair : str * str) : bool :=
  existsb (fun cs : str * list str => str_in (snd pair) (snd cs)) unit_categories
  && match py_float (fst pair) with Ret _ => false | Raise _ => true end.

(** A numeral that [float] reads. *)
Definition parses (num : str) : bool :=
  match py_float num with Ret _ => true | Raise _ => false end.

(** The property that a pair whose number [float] does not read is
    dropped silently: the converter goes on as if the pair were not there. *)
Definition unread_numbers_are_dropped : Prop :=
  forall ps1 ps2 num unit cv,
    parses num = false ->
    categorize_loop (ps1 ++ (num, unit) :: ps2) cv = categorize_loop (ps1 ++ ps2) cv.

(** A numeral of zeros: nothing but the digit 0 and the point. *)
Definition zero_numeral (num : str) : bool :=
  forallb (fun c => (c =? 48) || (c =? DOT)) num.

(* ------------------------------------------------------------------ *)
(** ** Strings and lists: basic facts                                   *)
(* ------------------------------------------------------------------ *)

Lemma str_eqb_eq (a b : str) : str_eqb a b = true <-> a = b.
Proof.
  revert b; induction a as [|x a IH]; intros [|y b]; simpl;
    try (split; [discriminate | discriminate || intros H; inversion H]; fail).
  - split; reflexivity.
  - rewrite andb_true_iff, N.eqb_eq, IH. split.
    + intros [-> ->]; reflexivity.
    + intros H; inversion H; auto.
Qed.

Lemma str_eqb_refl (a : str) : str_eqb a a = true.
Proof. apply str_eqb_eq; reflexivity. Qed.

Lemma str_eqb_neq (a b : str) : str_eqb a b = false <-> a <> b.
Proof.
  rewrite <- str_eqb_eq. destruct (str_eqb a b); split; congruence.
Qed.

Lemma str_in_In (x : str) (xs : list str) : str_in x xs = true <-> In x xs.
Proof.
  unfold str_in. rewrite existsb_exists. split.
  - intros (y & Hy & E). apply str_eqb_eq in E. subst; assumption.
  - intros H. exists x. split; [assumption | apply str_eqb_refl].
Qed.

Lemma str_in_not_In (x : str) (xs : list str) : str_in x xs = false <-> ~ In x xs.
Proof.
  rewrite <- str_in_In. destruct (str_in x xs); split; congruence.
Qed.

Lemma Qlt_bool_iff (a b : Q) : Qlt_bool a b = true <-> (a < b)%Q.
Proof.
  unfold Qlt_bool. rewrite negb_true_iff. split.
  - intros H. apply Qnot_le_lt. intros L.
    apply Qle_bool_iff in L. congruence.
  - intros H. destruct (Qle_bool b a) eqn:E; [|reflexivity].
    apply Qle_bool_iff in E. exfalso. exact (Qlt_not_le _ _ H E).
Qed.

Lemma Qlt_bool_false (a b : Q) : Qlt_bool a b = false <-> (b <= a)%Q.
Proof.
  unfold Qlt_bool. rewrite negb_false_iff. apply Qle_bool_iff.
Qed.

(* ------------------------------------------------------------------ *)
(** ** What a successful backtracking match looks like                  *)
(* ------------------------------------------------------------------ *)

Lemma star_bt_some {A : Type} (p : char -> bool) (s : str)
      (k : str -> str -> option A) (a : A) :
  star_bt p s k = Some a ->
  exists m r, s = m ++ r /\ forallb p m = true /\ k m r = Some a.
Proof.
  revert k. induction s as [|c s IH]; intros k H; simpl in H.
  - exists [], []. auto.
  - destruct (p c) eqn:Pc.
    + destruct (star_bt p s (fun m r => k (c :: m) r)) as [a'|] eqn:E.
      * inversion H; subst a'. apply IH in E.
        destruct E as (m & r & -> & Hm & Hk).
        exists (c :: m), r. simpl. rewrite Pc, Hm. auto.
      * exists [], (c :: s). auto.
    + exists [], (c :: s). auto.
Qed.

Lemma plus_bt_some {A : Type} (p : char -> bool) (s : str)
      (k : str -> str -> option A) (a : A) :
  plus_bt p s k = Some a ->
  exists m r, s = m ++ r /\ m <> [] /\ forallb p m = true /\ k m r = Some a.
Proof.
  destruct s as [|c s]; simpl; [discriminate|].
  destruct (p c) eqn:Pc; [|discriminate].
  intros H. apply star_bt_some in H. destruct H as (m & r & -> & Hm & Hk).
  exists (c :: m), r. simpl. rewrite Pc, Hm.
  repeat split; auto; discriminate.
Qed.

Section RegexFacts.
Variable U : unicode_db.

Lemma match_tail_some (num frac s : str) (g : groups) (rest : str) :
  match_tail U num frac s = Some (g, rest) ->
  g_number g = num /\ g_fraction g = frac /\
  s = g_spaces g ++ g_unit g ++ rest /\
  forallb (re_space U) (g_spaces g) = true /\
  g_unit g <> [] /\ forallb ascii_alpha (g_unit g) = true.
Proof.
  unfold match_tail. intros H.
  apply star_bt_some in H. destruct H as (sp & r & -> & Hsp & H).
  apply plus_bt_some in H. destruct H as (u & r' & -> & Hne & Hu & H).
  inversion H; subst; simpl. repeat split; auto.
Qed.

(** A match of the extraction pattern: the number has the shape of the
    pattern, the unit candidate is a non-empty run of ASCII letters, and
    the matched text is the three pieces in a row. *)
Lemma match_pattern_some (s : str) (g : groups) (rest : str) :
  match_pattern U s = Some (g, rest) ->
  s = g_number g ++ g_spaces g ++ g_unit g ++ rest /\
  number_form U (g_number g) /\
  forallb (re_space U) (g_spaces g) = true /\
  g_unit g <> [] /\ forallb ascii_alpha (g_unit g) = true.
Proof.
  unfold match_pattern. intros H.
  apply plus_bt_some in H. destruct H as (d & r1 & -> & Hd & Hdd & H).
  match type of H with
  | match ?inner with _ => _ end = _ => destruct inner as [x|] eqn:E
  end.
  - inversion H; subst x; clear H.
    destruct r1 as [|c r]; [discriminate|].
    destruct (c =? DOT) eqn:Ec; [|discriminate].
    apply N.eqb_eq in Ec; subst c.
    apply plus_bt_some in E. destruct E as (f & r2 & -> & Hf & Hff & E).
    apply match_tail_some in E.
    destruct E as (En & _ & -> & Hsp & Hu & Hua).
    rewrite En. repeat split; auto.
    + rewrite <- !app_assoc. reflexivity.
    + exists d. repeat split; auto. right. exists f. auto.
  - apply match_tail_some in H.
    destruct H as (En & _ & -> & Hsp & Hu & Hua).
    rewrite En. repeat split; auto.
    exists d. auto.
Qed.

(** Every tuple of [findall] comes from a match at some place of the text. *)
Lemma findall_from_In (s : str) (skip : nat) (g : groups) :
  In g (findall_from U skip s) ->
  exists pre s' rest, s = pre ++ s' /\ match_pattern U s' = Some (g, rest).
Proof.
  revert skip. induction s as [|c s IH]; intros skip H;
    cbn [findall_from] in H; [destruct H|].
  assert (Hrec : forall n, In g (findall_from U n s) ->
            exists pre s' rest, c :: s = pre ++ s' /\ match_pattern U s' = Some (g, rest)).
  { intros n Hn. apply IH in Hn. destruct Hn as (pre & s' & rest & -> & Hm).
    exists (c :: pre), s', rest. auto. }
  destruct skip as [|n]; [|eapply Hrec; eassumption].
  destruct (match_pattern U (c :: s)) as [[g' rest]|] eqn:E.
  - destruct H as [<- | H].
    + exists [], (c :: s), rest. auto.
    + eapply Hrec; eassumption.
  - eapply Hrec; eassumption.
Qed.

Lemma findall_In (text : str) (g : groups) :
  In g (findall U text) ->
  exists pre rest,
    text = pre ++ g_number g ++ g_spaces g ++ g_unit g ++ rest /\
    number_form U (g_number g) /\
    forallb (re_space U) (g_spaces g) = true /\
    g_unit g <> [] /\ forallb ascii_alpha (g_unit g) = true.
Proof.
  intros H. apply findall_from_In in H.
  destruct H as (pre & s' & rest & -> & H).
  apply match_pattern_some in H. destruct H as (-> & H).
  exists pre, rest. split; [reflexivity | exact H].
Qed.
End RegexFacts.

(** A text without ASCII letters has no match at all. *)
Lemma findall_no_letters (U : unicode_db) (text : str) :
  forallb (fun c => negb (ascii_alpha c)) text = true -> findall U text = [].
Proof.
  intros Hno. destruct (findall U text) as [|g l] eqn:E; [reflexivity|].
  exfalso.
  assert (Hg : In g (findall U text)) by (rewrite E; left; reflexivity).
  apply findall_In in Hg.
  destruct Hg as (pre & rest & -> & _ & _ & Hne & Hal).
  rewrite !forallb_app, !andb_true_iff in Hno.
  destruct Hno as (_ & _ & _ & Hu & _).
  destruct (g_unit g) as [|c u]; [congruence|].
  simpl in Hu, Hal.
  apply andb_true_iff in Hu. destruct Hu as [Hc _].
  apply andb_true_iff in Hal. destruct Hal as [Hc' _].
  rewrite Hc' in Hc. discriminate.
Qed.

(* ------------------------------------------------------------------ *)
(** ** The unit candidate of the extractor                              *)
(* ------------------------------------------------------------------ *)

(** C10. Every unit candidate that [findall] hands to the matcher is a
    non-empty run of ASCII letters that follows its number and the white
    space in the text, so it is never the double quote of inch nor the
    single quote of foot; and a text in which no ASCII letter follows a
    number (a number with a quote sign, for one) gives no output pair. *)
Theorem unit_candidate_ascii_letters :
  (forall (U : unicode_db) (text : str) (g : groups),
      In g (findall U text) ->
      (exists pre rest,
          text = pre ++ g_number g ++ g_spaces g ++ g_unit g ++ rest) /\
      g_unit g <> [] /\ forallb ascii_alpha (g_unit g) = true /\
      g_unit g <> [DQUOTE] /\ g_unit g <> [SQUOTE]) /\
  (forall (WRatio : str -> str -> Q) (U : unicode_db) (text : str),
      forallb (fun c => negb (ascii_alpha c)) text = true ->
      extract_numbers_with_units WRatio U text = []) /\
  (forall (WRatio : str -> str -> Q) (U : unicode_db),
      extract_numbers_with_units WRatio U (lit "12" ++ [DQUOTE]) = [] /\
      extract_numbers_with_units WRatio U (lit "12" ++ [DQUOTE] ++ lit " wide") = []).
Proof.
  split; [|split].
  - intros U text g H. apply findall_In in H.
    destruct H as (pre & rest & E & _ & _ & Hne & Hal).
    split; [exists pre, rest; exact E|].
    repeat split; auto; intros E'; rewrite E' in Hal; discriminate.
  - intros W U text H. unfold extract_numbers_with_units.
    rewrite (findall_no_letters U text H). reflexivity.
  - intros W U. split; vm_compute; reflexivity.
Qed.

Lemma unit_candidate_ascii_letters_witness :
  (let g := {| g_number := lit "12"; g_fraction := []; g_spaces := [SPACE];
               g_unit := lit "cm" |} in
   (exists pre rest,
       lit "size 12 cm" = pre ++ g_number g ++ g_spaces g ++ g_unit g ++ rest) /\
   g_unit g <> [] /\ forallb ascii_alpha (g_unit g) = true /\
   g_unit g <> [DQUOTE] /\ g_unit g <> [SQUOTE]) /\
  extract_numbers_with_units indel_ratio basic_db (lit "12" ++ [DQUOTE; SPACE; DQUOTE]) = [].
Proof.
  split.
  - apply (proj1 unit_candidate_ascii_letters basic_db (lit "size 12 cm")).
    vm_compute. left. reflexivity.
  - apply (proj1 (proj2 unit_candidate_ascii_letters) indel_ratio basic_db).
    vm_compute. reflexivity.
Defined.

(* ------------------------------------------------------------------ *)
(** ** The selection loop of the matcher                                *)
(* ------------------------------------------------------------------ *)

Section MatcherFacts.
Variable WRatio : str -> str -> Q.

(** Whatever the loop returns is the result it started from or a choice
    of the list, with its own score, which reaches the cutoff. *)
Lemma extractOne_from_sound (q : str) (cutoff : Q) (choices : list str) :
  forall (index : nat) (result out : option (str * Q * nat)),
    extractOne_from WRatio q choices cutoff index result = out ->
    out = result \/
    exists c i, out = Some (c, WRatio q c, (index + i)%nat) /\
                nth_error choices i = Some c /\
                (cutoff <= WRatio q c)%Q.
Proof.
  induction choices as [|c cs IH]; intros index result out H; simpl in H.
  - left; congruence.
  - set (sc := WRatio q c) in *.
    assert (Hstep :
      forall r',
        r' = (if Qle_bool cutoff sc &&
                 match result with
                 | None => true
                 | Some (_, best, _) => Qlt_bool best sc
                 end
              then Some (c, sc, index) else result) ->
        r' = result \/
        (r' = Some (c, sc, (index + 0)%nat) /\ (cutoff <= sc)%Q)).
    { intros r' ->. destruct (Qle_bool cutoff sc) eqn:Ec; simpl; [|auto].
      apply Qle_bool_iff in Ec. rewrite Nat.add_0_r.
      destruct result as [[[? best] ?]|]; [destruct (Qlt_bool best sc)|]; auto. }
    destruct (Qeq_bool sc optimal_score).
    + destruct (Hstep out (eq_sym H)) as [E | [E L]]; [left; exact E|].
      right. exists c, 0%nat. auto.
    + apply IH in H. destruct H as [H | (c' & i & Ho & Hn & L)].
      * destruct (Hstep out H) as [E | [E L]]; [left; exact E|].
        right. exists c, 0%nat. auto.
      * right. exists c', (S i). rewrite Nat.add_succ_r. auto.
Qed.

(** When every choice scores below the cutoff the loop changes nothing. *)
Lemma extractOne_from_below (q : str) (cutoff : Q) (choices : list str) :
  (forall c, In c choices -> (WRatio q c < cutoff)%Q) ->
  (cutoff <= optimal_score)%Q ->
  forall index result,
    extractOne_from WRatio q choices cutoff index result = result.
Proof.
  intros Hlow Hcut. induction choices as [|c cs IH]; intros index result; simpl.
  - reflexivity.
  - assert (L : (WRatio q c < cutoff)%Q) by (apply Hlow; left; reflexivity).
    assert (E1 : Qle_bool cutoff (WRatio q c) = false).
    { destruct (Qle_bool cutoff (WRatio q c)) eqn:E; [|reflexivity].
      apply Qle_bool_iff in E. exfalso. exact (Qlt_not_le _ _ L E). }
    assert (E2 : Qeq_bool (WRatio q c) optimal_score = false).
    { destruct (Qeq_bool (WRatio q c) optimal_score) eqn:E; [|reflexivity].
      apply Qeq_bool_iff in E. rewrite E in L.
      exfalso. exact (Qlt_not_le _ _ L Hcut). }
    rewrite E1, E2. simpl. apply IH.
    intros c' Hc'. apply Hlow. right. exact Hc'.
Qed.

(** A query that stands in the list, scores the optimum against itself
    and less against everything before it, is returned as it is. *)
Lemma extractOne_from_exact (q : str) (cutoff : Q) (pre post : list str) :
  (cutoff <= optimal_score)%Q ->
  (WRatio q q == optimal_score)%Q ->
  (forall c, In c pre -> (WRatio q c < optimal_score)%Q) ->
  forall index result,
    match result with
    | None => True
    | Some (_, best, _) => (best < optimal_score)%Q
    end ->
    extractOne_from WRatio q (pre ++ q :: post) cutoff index result =
    Some (q, WRatio q q, (index + length pre)%nat).
Proof.
  intros Hcut Hqq. induction pre as [|c pre IH]; intros Hpre index result Hres; simpl.
  - assert (E1 : Qle_bool cutoff (WRatio q q) = true).
    { apply Qle_bool_iff. rewrite Hqq. exact Hcut. }
    assert (E2 : Qeq_bool (WRatio q q) optimal_score = true).
    { apply Qeq_bool_iff. exact Hqq. }
    rewrite E1, E2, Nat.add_0_r. simpl.
    destruct result as [[[? best] ?]|]; [|reflexivity].
    assert (E3 : Qlt_bool best (WRatio q q) = true).
    { apply Qlt_bool_iff. rewrite Hqq. exact Hres. }
    rewrite E3. reflexivity.
  - assert (L : (WRatio q c < optimal_score)%Q) by (apply Hpre; left; reflexivity).
    assert (E2 : Qeq_bool (WRatio q c) optimal_score = false).
    { destruct (Qeq_bool (WRatio q c) optimal_score) eqn:E; [|reflexivity].
      apply Qeq_bool_iff in E. rewrite E in L.
      exfalso. exact (Qlt_irrefl _ L). }
    rewrite E2, Nat.add_succ_r, <- Nat.add_succ_l.
    apply IH.
    + intros c' Hc'. apply Hpre. right. exact Hc'.
    + destruct (Qle_bool cutoff (WRatio q c) && _); [exact L | exact Hres].
Qed.
End MatcherFacts.

(* ------------------------------------------------------------------ *)
(** ** Selection                                                        *)
(* ------------------------------------------------------------------ *)

(** The comparison of floats decides the order of the extended rationals. *)
Lemma flt_bool_iff (a b : double) : flt_bool a b = true <-> flt a b.
Proof.
  destruct a as [|x|], b as [|y|]; cbn [flt_bool flt];
    try apply Qlt_bool_iff;
    split; intros H; first [exact I | reflexivity | discriminate H | destruct H].
Qed.

Lemma flt_bool_false (a b : double) : flt_bool a b = false <-> fle b a.
Proof.
  destruct a as [|x|], b as [|y|]; cbn [flt_bool fle];
    try apply Qlt_bool_false;
    split; intros H; first [exact I | reflexivity | discriminate H | destruct H].
Qed.

Lemma fle_refl (a : double) : fle a a.
Proof. destruct a; cbn [fle]; trivial. apply Qle_refl. Qed.

Lemma flt_le_weak (a b : double) : flt a b -> fle a b.
Proof.
  destruct a, b; cbn [flt fle]; trivial. apply Qlt_le_weak.
Qed.

Lemma fle_trans (a b c : double) : fle a b -> fle b c -> fle a c.
Proof.
  destruct a, b, c; cbn [fle]; trivial; try (intros []; fail);
    try (intros _ []; fail).
  apply Qle_trans.
Qed.

Lemma flt_le_trans (a b c : double) : flt a b -> fle b c -> flt a c.
Proof.
  destruct a, b, c; cbn [flt fle]; trivial; try (intros []; fail);
    try (intros _ []; fail).
  apply Qlt_le_trans.
Qed.

Lemma fle_lt_trans (a b c : double) : fle a b -> flt b c -> flt a c.
Proof.
  destruct a, b, c; cbn [flt fle]; trivial; try (intros []; fail);
    try (intros _ []; fail).
  apply Qle_lt_trans.
Qed.

(** [max] keeps the first of the largest items. *)
Lemma max_from_first (l : list measurement) :
  forall best, first_extremal TakeMaximum (best :: l) (max_from best l).
Proof.
  induction l as [|x l IH]; intros best; simpl.
  - exists 0%nat. simpl. split; [reflexivity|]. split.
    + intros y [<- | []]. apply fle_refl.
    + intros j y Hj. inversion Hj.
  - destruct (flt_bool (fst best) (fst x)) eqn:E.
    + apply flt_bool_iff in E.
      destruct (IH x) as (i & Hi & Hall & Hbefore).
      assert (Hx : fle (fst x) (fst (max_from x l))) by (apply Hall; left; reflexivity).
      exists (S i). split; [exact Hi|]. split.
      * intros y [<- | Hy]; [|apply Hall; exact Hy].
        simpl. apply flt_le_weak. eapply flt_le_trans; eassumption.
      * intros [|j] y Hj Hy; simpl in Hy.
        -- inversion Hy; subst y. simpl. eapply flt_le_trans; eassumption.
        -- apply (Hbefore j y); [lia | exact Hy].
    + apply flt_bool_false in E.
      destruct (IH best) as (i & Hi & Hall & Hbefore).
      destruct i as [|i].
      * simpl in Hi. exists 0%nat. split; [exact Hi|]. split.
        -- intros y [<- | [<- | Hy]].
           ++ apply Hall; left; reflexivity.
           ++ simpl. replace (max_from best l) with best by congruence. exact E.
           ++ apply Hall. right. exact Hy.
        -- intros j y Hj. inversion Hj.
      * exists (S (S i)). split; [exact Hi|]. split.
        -- intros y [<- | [<- | Hy]].
           ++ apply Hall; left; reflexivity.
           ++ simpl. eapply fle_trans; [exact E|]. apply Hall. left. reflexivity.
           ++ apply Hall. right. exact Hy.
        -- assert (Hb : flt (fst best) (fst (max_from best l))).
           { apply (Hbefore 0%nat best); [lia | reflexivity]. }
           intros [|[|j]] y Hj Hy; simpl in Hy.
           ++ inversion Hy; subst y. exact Hb.
           ++ inversion Hy; subst y. simpl. eapply fle_lt_trans; eassumption.
           ++ apply (Hbefore (S j) y); [lia | exact Hy].
Qed.

(** [min] keeps the first of the smallest items. *)
Lemma min_from_first (l : list measurement) :
  forall best, first_extremal TakeMinimum (best :: l) (min_from best l).
Proof.
  induction l as [|x l IH]; intros best; simpl.
  - exists 0%nat. simpl. split; [reflexivity|]. split.
    + intros y [<- | []]. apply fle_refl.
    + intros j y Hj. inversion Hj.
  - destruct (flt_bool (fst x) (fst best)) eqn:E.
    + apply flt_bool_iff in E.
      destruct (IH x) as (i & Hi & Hall & Hbefore).
      assert (Hx : fle (fst (min_from x l)) (fst x)) by (apply Hall; left; reflexivity).
      exists (S i). split; [exact Hi|]. split.
      * intros y [<- | Hy]; [|apply Hall; exact Hy].
        simpl. apply flt_le_weak. eapply fle_lt_trans; eassumption.
      * intros [|j] y Hj Hy; simpl in Hy.
        -- inversion Hy; subst y. simpl. eapply fle_lt_trans; eassumption.
        -- apply (Hbefore j y); [lia | exact Hy].
    + apply flt_bool_false in E.
      destruct (IH best) as (i & Hi & Hall & Hbefore).
      destruct i as [|i].
      * simpl in Hi. exists 0%nat. split; [exact Hi|]. split.
        -- intros y [<- | [<- | Hy]].
           ++ apply Hall; left; reflexivity.
           ++ simpl. replace (min_from best l) with best by congruence. exact E.
           ++ apply Hall. right. exact Hy.
        -- intros j y Hj. inversion Hj.
      * exists (S (S i)). split; [exact Hi|]. split.
        -- intros y [<- | [<- | Hy]].
           ++ apply Hall; left; reflexivity.
           ++ simpl. eapply fle_trans; [|exact E]. apply Hall. left. reflexivity.
           ++ apply Hall. right. exact Hy.
        -- assert (Hb : flt (fst (min_from best l)) (fst best)).
           { apply (Hbefore 0%nat best); [lia | reflexivity]. }
           intros [|[|j]] y Hj Hy; simpl in Hy.
           ++ inversion Hy; subst y. exact Hb.
           ++ inversion Hy; subst y. simpl. eapply flt_le_trans; eassumption.
           ++ apply (Hbefore (S j) y); [lia | exact Hy].
Qed.

Ltac known_entity E cv :=
  apply str_eqb_eq in E; subst;
  unfold get_entity_value, select, entity_rule, and_subscript, subscript;
  cbn -[max_from min_from];
  match goal with
  | |- context [dict_get cv ?k] => destruct (dict_get cv k) as [[|? ?]|]
  end; reflexivity.

(** The chain of tests of [get_entity_value] is the table-driven selection
    of the specification. *)
Lemma get_entity_value_select (entity_value : str) (cv : dict (list measurement)) :
  get_entity_value entity_value cv = select entity_value cv.
Proof.
  destruct (str_eqb entity_value (lit "item_weight")) eqn:E1;
    [known_entity E1 cv|].
  destruct (str_eqb entity_value (lit "maximum_weight_recommendation")) eqn:E2;
    [known_entity E2 cv|].
  destruct (str_eqb entity_value (lit "voltage")) eqn:E3;
    [known_entity E3 cv|].
  destruct (str_eqb entity_value (lit "item_volume")) eqn:E4;
    [known_entity E4 cv|].
  destruct (str_eqb entity_value (lit "wattage")) eqn:E5;
    [known_entity E5 cv|].
  destruct (str_eqb entity_value (lit "width")) eqn:E6;
    [known_entity E6 cv|].
  destruct (str_eqb entity_value (lit "depth")) eqn:E7;
    [known_entity E7 cv|].
  destruct (str_eqb entity_value (lit "height")) eqn:E8;
    [known_entity E8 cv|].
  unfold get_entity_value, select, entity_rule, entity_rule_table, and_subscript,
    str_in, existsb, dict_get.
  rewrite E1, E2, E3, E4, E5, E6, E7, E8. reflexivity.
Qed.

(** C2. For an entity of the rule table whose category list is not empty,
    [get_entity_value] returns the display string of the first Measurement
    with the extremal converted value: the largest for item_weight,
    maximum_weight_recommendation, voltage, item_volume, wattage, depth and
    height, the smallest for width. *)
Theorem select_first_extremal :
  forall (entity_name category : str) (d : direction)
         (cv : dict (list measurement)) (l : list measurement),
    entity_rule entity_name = Some (category, d) ->
    dict_get cv category = Some l ->
    l <> [] ->
    (exists m, get_entity_value entity_name cv = Ret (Some (snd m)) /\
               first_extremal d l m) /\
    (d = TakeMinimum <-> entity_name = lit "width") /\
    get_entity_value (lit "item_weight") weights_500_1000 = Ret (Some (lit "1 kilogram")) /\
    get_entity_value (lit "width") lengths_10_5 = Ret (Some (lit "5 centimetre")) /\
    get_entity_value (lit "item_weight") weights_tied = Ret (Some (lit "1000 gram")).
Proof.
  intros entity category d cv l Hrule Hget Hne.
  split; [|split; [|repeat split; reflexivity]].
  - rewrite get_entity_value_select. unfold select. rewrite Hrule, Hget.
    destruct l as [|x l]; [congruence|].
    destruct d.
    + exists (max_from x l). split; [reflexivity | apply max_from_first].
    + exists (min_from x l). split; [reflexivity | apply min_from_first].
  - unfold entity_rule, entity_rule_table, dict_get in Hrule.
    repeat match type of Hrule with
    | (if str_eqb ?a ?b then _ else _) = _ =>
        let E := fresh "E" in
        destruct (str_eqb a b) eqn:E;
        [apply str_eqb_eq in E; inversion Hrule; subst;
         split; intros X; (reflexivity || discriminate X) |]
    end.
    discriminate Hrule.
Qed.

Lemma select_first_extremal_witness :
  (exists m, get_entity_value (lit "width") lengths_10_5 = Ret (Some (snd m)) /\
             first_extremal TakeMinimum
               [(Fin 10, lit "10 centimetre"); (Fin 5, lit "5 centimetre")] m) /\
  (TakeMinimum = TakeMinimum <-> lit "width" = lit "width") /\
  get_entity_value (lit "item_weight") weights_500_1000 = Ret (Some (lit "1 kilogram")) /\
  get_entity_value (lit "width") lengths_10_5 = Ret (Some (lit "5 centimetre")) /\
  get_entity_value (lit "item_weight") weights_tied = Ret (Some (lit "1000 gram")).
Proof.
  apply (select_first_extremal (lit "width") (lit "length") TakeMinimum lengths_10_5).
  - reflexivity.
  - reflexivity.
  - discriminate.
Defined.

Lemma get_entity_value_none_iff (entity_name : str) (cv : dict (list measurement)) :
  get_entity_value entity_name cv = Ret None <->
  (entity_rule entity_name = None \/
   exists category d,
     entity_rule entity_name = Some (category, d) /\ dict_get cv category = Some []).
Proof.
  rewrite get_entity_value_select. unfold select.
  destruct (entity_rule entity_name) as [[category d]|] eqn:Er.
  - destruct (dict_get cv category) as [[|x l]|] eqn:Ed; split;
      try (intros H; discriminate H);
      try (intros [H | (c & d' & H & H')];
           [discriminate H | inversion H; subst; congruence]).
    intros _. right. exists category, d. split; [reflexivity | exact Ed].
  - split; auto.
Qed.

(** C6. [get_entity_value] answers [None] exactly when the entity name is
    not in the rule table or the list of its category is empty; so it does
    for item_weight on a mapping whose weight list is empty, and for any
    name outside the table whatever the mapping holds. *)
Theorem select_absence :
  (forall (entity_name : str) (cv : dict (list measurement)),
      get_entity_value entity_name cv = Ret None <->
      (entity_rule entity_name = None \/
       exists category d,
         entity_rule entity_name = Some (category, d) /\
         dict_get cv category = Some [])) /\
  get_entity_value (lit "item_weight") [(lit "weight", [])] = Ret None /\
  (forall (entity_name : str) (cv : dict (list measurement)),
      entity_rule entity_name = None ->
      get_entity_value entity_name cv = Ret None).
Proof.
  split; [exact get_entity_value_none_iff|]. split; [reflexivity|].
  intros entity cv H. apply get_entity_value_none_iff. left. exact H.
Qed.

Lemma select_absence_witness :
  get_entity_value (lit "unknown_entity") weights_500_1000 = Ret None /\
  get_entity_value (lit "item_weight") lengths_10_5 = Ret None.
Proof.
  split.
  - apply (proj2 (proj2 select_absence)). reflexivity.
  - apply (proj1 select_absence). right.
    exists (lit "weight"), TakeMaximum. split; reflexivity.
Defined.

Lemma dict_get_In {V : Type} (d : dict V) (k : str) (v : V) :
  dict_get d k = Some v -> In (k, v) d.
Proof.
  induction d as [|[k' v'] d IH]; simpl; [discriminate|].
  destruct (str_eqb k k') eqn:E.
  - apply str_eqb_eq in E. intros H. inversion H; subst. left. reflexivity.
  - intros H. right. apply IH. exact H.
Qed.

(** With no Measurement at all the selection answers [None] for every
    entity name. *)
Lemma get_entity_value_empty (entity_name : str) :
  get_entity_value entity_name empty_categorized_values = Ret None.
Proof.
  apply get_entity_value_none_iff.
  destruct (entity_rule entity_name) as [[category d]|] eqn:E; [right | left; reflexivity].
  exists category, d. split; [reflexivity|].
  apply dict_get_In in E. unfold entity_rule_table in E. simpl in E.
  repeat (destruct E as [E | E]; [inversion E; reflexivity|]).
  contradiction.
Qed.

(** A text that gives no pair goes through the pipeline to [None]. *)
Lemma pipeline_no_pairs (WRatio : str -> str -> Q) (U : unicode_db)
      (text entity_name : str) :
  extract_numbers_with_units WRatio U text = [] ->
  pipeline WRatio U text entity_name = Ret None.
Proof.
  intros H. unfold pipeline, convert_to_full_unit. rewrite H. simpl.
  apply get_entity_value_empty.
Qed.

(* ------------------------------------------------------------------ *)
(** ** The threshold of the matcher                                     *)
(* ------------------------------------------------------------------ *)

(** C7. The matcher accepts a unit candidate only with a surface form of
    the vocabulary against which the candidate scores at least 95; a
    candidate that scores below 95 against every surface form adds no pair
    to the results, and a text made of such candidates only runs through
    the whole pipeline to the absence value without an exception. *)
Theorem matcher_threshold :
  (forall (WRatio : str -> str -> Q) (candidate matched : str) (score : Q) (i : nat),
      extractOne WRatio candidate all_units score_cutoff = Some (matched, score, i) ->
      nth_error all_units i = Some matched /\
      score = WRatio candidate matched /\ (95 <= score)%Q) /\
  (forall (WRatio : str -> str -> Q) (m : groups),
      (forall c, In c all_units -> (WRatio (g_unit m) c < 95)%Q) ->
      extractOne WRatio (g_unit m) all_units score_cutoff = None /\
      fuzzy_item WRatio m = []) /\
  (forall (WRatio : str -> str -> Q) (U : unicode_db) (text entity_name : str),
      (forall m c, In m (findall U text) -> In c all_units ->
                   (WRatio (g_unit m) c < 95)%Q) ->
      extract_numbers_with_units WRatio U text = [] /\
      pipeline WRatio U text entity_name = Ret None).
Proof.
  assert (Hcut : (score_cutoff <= optimal_score)%Q) by (vm_compute; discriminate).
  assert (Hnone : forall W q,
             (forall c, In c all_units -> (W q c < 95)%Q) ->
             extractOne W q all_units score_cutoff = None).
  { intros W q H. unfold extractOne. apply extractOne_from_below; assumption. }
  split; [|split].
  - intros W q matched score i H. unfold extractOne in H.
    apply extractOne_from_sound in H.
    destruct H as [H | (c & j & H & Hn & L)]; [discriminate|].
    inversion H; subst. simpl. auto.
  - intros W m H. specialize (Hnone W (g_unit m) H). split; [exact Hnone|].
    unfold fuzzy_item. rewrite Hnone. reflexivity.
  - intros W U text entity H.
    assert (E : extract_numbers_with_units W U text = []).
    { unfold extract_numbers_with_units.
      induction (findall U text) as [|m ms IH]; [reflexivity|].
      simpl. unfold fuzzy_item at 1.
      rewrite Hnone by (intros c Hc; apply (H m c); [left; reflexivity | exact Hc]).
      simpl. apply IH. intros m' c Hm' Hc. apply H; [right; exact Hm' | exact Hc]. }
    split; [exact E | apply pipeline_no_pairs; exact E].
Qed.

Lemma all_below (WRatio : str -> str -> Q) (q : str) (bound : Q) (choices : list str) :
  forallb (fun c => Qlt_bool (WRatio q c) bound) choices = true ->
  forall c, In c choices -> (WRatio q c < bound)%Q.
Proof.
  intros H c Hc. rewrite forallb_forall in H.
  apply Qlt_bool_iff. apply H. exact Hc.
Qed.

Lemma matcher_threshold_witness :
  (nth_error all_units 24 = Some (lit "kg") /\
   (400 # 4) = indel_ratio (lit "kg") (lit "kg") /\ (95 <= 400 # 4)%Q) /\
  (extractOne indel_ratio (lit "the") all_units score_cutoff = None /\
   fuzzy_item indel_ratio
     {| g_number := lit "12"; g_fraction := []; g_spaces := [SPACE];
        g_unit := lit "the" |} = []) /\
  (extract_numbers_with_units indel_ratio basic_db (lit "Box of 12 the") = [] /\
   pipeline indel_ratio basic_db (lit "Box of 12 the") (lit "item_weight") = Ret None).
Proof.
  split; [|split].
  - apply (proj1 matcher_threshold indel_ratio (lit "kg")). vm_compute. reflexivity.
  - apply (proj1 (proj2 matcher_threshold) indel_ratio
             {| g_number := lit "12"; g_fraction := []; g_spaces := [SPACE];
                g_unit := lit "the" |}).
    apply all_below. vm_compute. reflexivity.
  - apply (proj2 (proj2 matcher_threshold) indel_ratio basic_db).
    intros m c Hm. vm_compute in Hm. destruct Hm as [<- | []].
    apply all_below. vm_compute. reflexivity.
Defined.

(* ------------------------------------------------------------------ *)
(** ** End to end                                                       *)
(* ------------------------------------------------------------------ *)

(** The candidate "kg" is matched with the surface form "kg" as soon as the
    scorer gives the optimum to identical strings only. *)
Lemma extractOne_kg (WRatio : str -> str -> Q) :
  (WRatio (lit "kg") (lit "kg") == 100)%Q ->
  (forall c, In c all_units -> c <> lit "kg" -> (WRatio (lit "kg") c < 100)%Q) ->
  extractOne WRatio (lit "kg") all_units score_cutoff =
  Some (lit "kg", WRatio (lit "kg") (lit "kg"), 24%nat).
Proof.
  intros H1 H2. unfold extractOne.
  change all_units with (firstn 24 all_units ++ lit "kg" :: skipn 25 all_units).
  rewrite extractOne_from_exact; auto.
  - vm_compute; discriminate.
  - intros c Hc. vm_compute in Hc.
    repeat (destruct Hc as [<- | Hc];
            [apply H2; [apply str_in_In; vm_compute; reflexivity | discriminate]|]).
    contradiction.
Qed.

(** C1. "Net Wt 2.5 kg approx" for item_weight: the extractor finds the
    pair ("2.5", "kg"), the unit is normalised to "kilogram", the converted
    value is 2500000 milligrams and the selection returns "2.5 kilogram". *)
Theorem end_to_end_net_weight :
  forall (WRatio : str -> str -> Q) (U : unicode_db),
    (WRatio (lit "kg") (lit "kg") == 100)%Q ->
    (forall c, In c all_units -> c <> lit "kg" -> (WRatio (lit "kg") c < 100)%Q) ->
    let text := lit "Net Wt 2.5 kg approx" in
    map (fun m => (g_number m, g_unit m)) (findall U text) = [(lit "2.5", lit "kg")] /\
    extract_numbers_with_units WRatio U text = [lit "2.5 kg"] /\
    separate_numbers_and_units U [lit "2.5 kg"] = ([lit "2.5"], [lit "kg"]) /\
    get_full_unit U (lit "kg") = lit "kilogram" /\
    convert_to_full_unit WRatio U text =
      ([lit "2.5 kilogram"], [lit "2.5"], [lit "kilogram"]) /\
    (exists v : Q,
        categorize_values [lit "2.5"] [lit "kilogram"] =
          Ret [ (lit "length", []); (lit "weight", [(Fin v, lit "2.5 kilogram")]);
                (lit "voltage", []); (lit "volume", []); (lit "wattage", []) ] /\
        (v == 2500000)%Q) /\
    pipeline WRatio U text (lit "item_weight") = Ret (Some (lit "2.5 kilogram")).
Proof.
  intros W U H1 H2 text.
  assert (Hfind : findall U text =
                  [{| g_number := lit "2.5"; g_fraction := lit ".5";
                      g_spaces := [SPACE]; g_unit := lit "kg" |}])
    by (vm_compute; reflexivity).
  assert (Hext : extract_numbers_with_units W U text = [lit "2.5 kg"]).
  { unfold extract_numbers_with_units. rewrite Hfind.
    cbn [flat_map]. unfold fuzzy_item. cbn [g_unit g_number].
    rewrite (extractOne_kg W H1 H2). reflexivity. }
  assert (Hconv : convert_to_full_unit W U text =
                  ([lit "2.5 kilogram"], [lit "2.5"], [lit "kilogram"])).
  { unfold convert_to_full_unit. rewrite Hext. vm_compute. reflexivity. }
  refine (conj _ (conj Hext (conj _ (conj _ (conj Hconv (conj _ _)))))).
  - rewrite Hfind. reflexivity.
  - vm_compute. reflexivity.
  - vm_compute. reflexivity.
  - exists (2500000 # 1). split; vm_compute; reflexivity.
  - unfold pipeline. rewrite Hconv. vm_compute. reflexivity.
Qed.

Lemma exact_optimum (q : str) :
  forallb (fun c => str_eqb c q || Qlt_bool (indel_ratio q c) 100) all_units = true ->
  forall c, In c all_units -> c <> q -> (indel_ratio q c < 100)%Q.
Proof.
  intros H c Hc Hne. rewrite forallb_forall in H. specialize (H c Hc).
  apply orb_true_iff in H. destruct H as [H | H].
  - apply str_eqb_eq in H. contradiction.
  - apply Qlt_bool_iff. exact H.
Qed.

Lemma end_to_end_net_weight_witness :
  pipeline indel_ratio basic_db (lit "Net Wt 2.5 kg approx") (lit "item_weight")
  = Ret (Some (lit "2.5 kilogram")).
Proof.
  apply (end_to_end_net_weight indel_ratio basic_db).
  - vm_compute. reflexivity.
  - apply exact_optimum. vm_compute. reflexivity.
Defined.

(* ------------------------------------------------------------------ *)
(** ** From an accepted match to the normaliser                         *)
(* ------------------------------------------------------------------ *)

(** C3. The text "5 fluidounces": whenever the matcher accepts the
    candidate with the surface form "fluid ounces" (the Indel ratio scores
    it 2200/23, above 95), [separate_numbers_and_units] keeps only "fluid"
    of it, which no canonical unit claims, so the full form is empty and
    the pipeline answers [None], although "fluid ounces" itself normalises
    to "fluid ounce". *)
Theorem multiword_match_not_recognized :
  forall (WRatio : str -> str -> Q) (U : unicode_db) (score : Q) (i : nat),
    extractOne WRatio (lit "fluidounces") all_units score_cutoff =
      Some (lit "fluid ounces", score, i) ->
    let text := lit "5 fluidounces" in
    (95 <= score)%Q /\
    extract_numbers_with_units WRatio U text = [lit "5 fluid ounces"] /\
    separate_numbers_and_units U [lit "5 fluid ounces"] = ([lit "5"], [lit "fluid"]) /\
    get_full_unit U (lit "fluid") = [] /\
    get_full_unit U (lit "fluid ounces") = lit "fluid ounce" /\
    convert_to_full_unit WRatio U text = ([lit "5 "], [lit "5"], [[]]) /\
    pipeline WRatio U text (lit "item_volume") = Ret None /\
    ~ accepted_units_recognized WRatio U text /\
    lost_surface_forms basic_db =
      [ [DQUOTE]; [SQUOTE]; lit "cu ft"; lit "cu in"; lit "fl oz";
        lit "fluid ounces"; lit "imp gal"; lit "imperial gallons" ].
Proof.
  intros W U score i Hacc text.
  assert (Hfind : findall U text =
                  [{| g_number := lit "5"; g_fraction := [];
                      g_spaces := [SPACE]; g_unit := lit "fluidounces" |}])
    by (vm_compute; reflexivity).
  assert (Hext : extract_numbers_with_units W U text = [lit "5 fluid ounces"]).
  { unfold extract_numbers_with_units. rewrite Hfind.
    cbn [flat_map]. unfold fuzzy_item. cbn [g_unit g_number].
    rewrite Hacc. reflexivity. }
  assert (Hconv : convert_to_full_unit W U text = ([lit "5 "], [lit "5"], [[]])).
  { unfold convert_to_full_unit. rewrite Hext. vm_compute. reflexivity. }
  refine (conj _ (conj Hext (conj _ (conj _ (conj _ (conj Hconv (conj _ (conj _ _)))))))).
  - unfold extractOne in Hacc. apply extractOne_from_sound in Hacc.
    destruct Hacc as [E | (c & j & E & _ & L)]; [discriminate|].
    inversion E; subst. exact L.
  - vm_compute. reflexivity.
  - vm_compute. reflexivity.
  - vm_compute. reflexivity.
  - unfold pipeline. rewrite Hconv. vm_compute. reflexivity.
  - intros H. destruct (H (lit "5 fluid ounces")) as (n & u & Hm & Hu).
    + rewrite Hext. left. reflexivity.
    + vm_compute in Hm. inversion Hm; subst. apply Hu. vm_compute. reflexivity.
  - vm_compute. reflexivity.
Qed.

Lemma multiword_match_not_recognized_witness :
  extractOne indel_ratio (lit "fluidounces") all_units score_cutoff =
    Some (lit "fluid ounces", 2200 # 23, 71%nat) /\
  (95 <= 2200 # 23)%Q /\
  extract_numbers_with_units indel_ratio basic_db (lit "5 fluidounces")
    = [lit "5 fluid ounces"] /\
  get_full_unit basic_db (lit "fluid") = [] /\
  pipeline indel_ratio basic_db (lit "5 fluidounces") (lit "item_volume") = Ret None /\
  ~ accepted_units_recognized indel_ratio basic_db (lit "5 fluidounces").
Proof.
  assert (Hacc : extractOne indel_ratio (lit "fluidounces") all_units score_cutoff =
                 Some (lit "fluid ounces", 2200 # 23, 71%nat))
    by (vm_compute; reflexivity).
  split; [exact Hacc|].
  pose proof (multiword_match_not_recognized indel_ratio basic_db _ _ Hacc) as H.
  cbv zeta in H. tauto.
Defined.

(* ------------------------------------------------------------------ *)
(** ** No exception                                                     *)
(* ------------------------------------------------------------------ *)

Lemma span_run (p : char -> bool) (d r : str) :
  forallb p d = true ->
  match r with [] => True | c :: _ => p c = false end ->
  span p (d ++ r) = (d, r).
Proof.
  intros Hd Hr. induction d as [|c d IH]; simpl.
  - destruct r as [|c r]; [reflexivity | simpl; rewrite Hr; reflexivity].
  - simpl in Hd. apply andb_true_iff in Hd. destruct Hd as [Hc Hd].
    rewrite Hc, (IH Hd). reflexivity.
Qed.

(** ** Rounding: what the proofs below need of [round64] *)

Lemma round_half_even_nonneg (a b : Z) :
  (0 <= a)%Z -> (0 < b)%Z -> (0 <= round_half_even a b)%Z.
Proof.
  intros Ha Hb. unfold round_half_even.
  pose proof (Z.div_pos a b Ha Hb).
  destruct (2 * (a mod b) ?= b)%Z; [destruct (Z.even (a / b))| |]; lia.
Qed.

Lemma scaled_positive (p q e a b : Z) :
  (0 < p)%Z -> (0 < q)%Z -> scaled p q e = (a, b) -> (0 < a)%Z /\ (0 < b)%Z.
Proof.
  intros Hp Hq. unfold scaled.
  destruct (0 <=? e)%Z eqn:E; intros [= <- <-].
  - apply Z.leb_le in E. pose proof (Z.pow_pos_nonneg 2 e). nia.
  - apply Z.leb_gt in E. pose proof (Z.pow_pos_nonneg 2 (- e)). nia.
Qed.

(** Rounding a positive rational gives no negative double. *)
Lemma round_positive_nonneg (p q : positive) : fle (Fin 0) (round_positive p q).
Proof.
  unfold round_positive.
  set (e := Z.max _ _).
  destruct (scaled (Zpos p) (Zpos q) e) as [a b] eqn:Es.
  apply scaled_positive in Es; [|reflexivity|reflexivity].
  destruct Es as [Ha Hb].
  assert (Hm : (0 <= round_half_even a b)%Z)
    by (apply round_half_even_nonneg; lia).
  destruct (0 <=? e)%Z eqn:E.
  - destruct (2 ^ 1024 <=? _)%Z; cbn [fle]; [exact I|].
    apply Z.leb_le in E. unfold Qle. cbn [Qnum Qden].
    pose proof (Z.pow_pos_nonneg 2 e). nia.
  - cbn [fle]. rewrite Qred_correct. unfold Qle. cbn [Qnum Qden]. lia.
Qed.

Lemma round64_nonneg (x : Q) : (0 <= Qnum x)%Z -> fle (Fin 0) (round64 x).
Proof.
  intros H. unfold round64. destruct (Qnum x) as [|p|p].
  - apply fle_refl.
  - apply round_positive_nonneg.
  - lia.
Qed.

(** A rational with numerator 0 is rounded to the zero. *)
Lemma round64_zero (x : Q) : Qnum x = 0%Z -> round64 x = Fin 0.
Proof. intros H. unfold round64. rewrite H. reflexivity. Qed.

(** The product of a number that is not negative with a positive finite
    factor is not negative, and it is 0 when the number is. *)
Lemma fmul_nonneg (f : double) (y : Q) :
  fle (Fin 0) f -> (0 < y)%Q -> fle (Fin 0) (fmul f (Fin y)).
Proof.
  intros Hf Hy. destruct f as [|x|]; cbn [fmul].
  - destruct Hf.
  - apply round64_nonneg. cbn [fle] in Hf.
    unfold Qle in Hf. unfold Qlt in Hy. cbn [Qnum Qden Qmult] in *. nia.
  - apply Qgt_alt in Hy. rewrite Hy. exact I.
Qed.

Lemma fmul_zero (x y : Q) : (x == 0)%Q -> fmul (Fin x) (Fin y) = Fin 0.
Proof.
  intros Hx. cbn [fmul]. apply round64_zero.
  unfold Qeq in Hx. cbn [Qnum Qden Qmult] in *. nia.
Qed.

(** The rounding at work: [25.4] is no decimal fraction in binary,
    [12 * 25.4] is the double below 304.8, [216 * 25.4] is below
    [18 * 304.8], an integer above [2 ^ 53] loses its last bit, a numeral
    of 310 digits is the infinity and one of 400 zeros behind the point
    is the zero. *)
Lemma double_examples :
  decimal 254 1 = Fin (3574732204225331 # 140737488355328) /\
  fmul (decimal 12 0) (decimal 254 1) = Fin (1340524576584499 # 4398046511104) /\
  fmul (decimal 216 0) (decimal 254 1) = Fin (3016180297315123 # 549755813888) /\
  fmul (decimal 18 0) (decimal 3048 1) = Fin (6032360594630247 # 1099511627776) /\
  flt (fmul (decimal 216 0) (decimal 254 1)) (fmul (decimal 18 0) (decimal 3048 1)) /\
  decimal 9007199254740993 0 = Fin 9007199254740992 /\
  decimal (10 ^ 309) 0 = PosInf /\
  decimal 1 400 = Fin 0.
Proof.
  repeat split; vm_compute; reflexivity.
Qed.

Lemma py_float_integer (d : str) :
  d <> [] -> forallb ascii_digit d = true ->
  py_float d = Ret (decimal (digits_value 0 d) 0).
Proof.
  intros Hne Hd. unfold py_float.
  rewrite <- (app_nil_r d) at 1. rewrite (span_run ascii_digit d [] Hd I).
  destruct d; [congruence | reflexivity].
Qed.

Lemma py_float_decimal (d f : str) :
  d <> [] -> forallb ascii_digit d = true -> forallb ascii_digit f = true ->
  py_float (d ++ DOT :: f) =
  Ret (decimal (digits_value 0 (d ++ f)) (length f)).
Proof.
  intros Hne Hd Hf. unfold py_float.
  rewrite (span_run ascii_digit d (DOT :: f) Hd) by reflexivity.
  rewrite N.eqb_refl, Hf. simpl.
  destruct d as [|c d]; [congruence | reflexivity].
Qed.

Lemma digits_value_nonneg (ds : str) :
  forall acc, (0 <= acc)%Z -> (0 <= digits_value acc ds)%Z.
Proof.
  induction ds as [|c ds IH]; intros acc H; cbn [digits_value]; [exact H|].
  apply IH. pose proof (N2Z.is_nonneg (c - 48)). lia.
Qed.

(** Whatever [py_float] reads is not negative. *)
Lemma py_float_nonneg (num : str) (f : double) :
  py_float num = Ret f -> fle (Fin 0) f.
Proof.
  unfold py_float. destruct (span ascii_digit num) as [ip r].
  assert (Hv : forall acc ds k, (0 <= acc)%Z ->
                 fle (Fin 0) (decimal (digits_value acc ds) k)).
  { intros acc ds k Hacc. apply round64_nonneg. cbn [Qnum].
    apply digits_value_nonneg. exact Hacc. }
  destruct r as [|c fp].
  - destruct ip as [|c ip]; [discriminate|]. intros [= <-]. apply Hv.
    pose proof (N2Z.is_nonneg (c - 48)). lia.
  - destruct (_ && _); [|discriminate]. intros [= <-]. apply Hv. lia.
Qed.

Section Totality.
Variable U : unicode_db.

Lemma digit_num_dot (c : char) :
  re_digit U c = true -> re_num_dot c = true -> ascii_digit c = true.
Proof.
  unfold re_num_dot. intros Hd Hn.
  apply orb_true_iff in Hn. destruct Hn as [Hn | Hn]; [exact Hn|].
  apply N.eqb_eq in Hn. subst c. cbv in Hd. discriminate.
Qed.

Lemma digits_num_dot (n : str) :
  forallb (re_digit U) n = true -> forallb re_num_dot n = true ->
  forallb ascii_digit n = true.
Proof.
  induction n as [|c n IH]; simpl; [reflexivity|].
  rewrite !andb_true_iff. intros [Hc Hn] [Hc' Hn'].
  split; [apply digit_num_dot; assumption | apply IH; assumption].
Qed.

(** A non-empty prefix over [[0-9.]] of a number of the extraction
    pattern is read by [float]. *)
Lemma py_float_prefix (a n t : str) :
  number_form U a -> a = n ++ t -> n <> [] ->
  forallb re_num_dot n = true ->
  exists q, py_float n = Ret q.
Proof.
  intros (d & Hd & Hdd & Ha) E Hn Hnd.
  assert (Hpre : forall l, d = n ++ l -> exists q, py_float n = Ret q).
  { intros l El. eexists. apply py_float_integer; [exact Hn|].
    apply digits_num_dot; [|exact Hnd].
    rewrite El, forallb_app in Hdd. apply andb_true_iff in Hdd. tauto. }
  destruct Ha as [-> | (f & Hf & Hff & ->)].
  - apply (Hpre t). exact E.
  - symmetry in E. apply app_eq_app in E.
    destruct E as (l & [[E1 E2] | [E1 E2]]).
    + destruct l as [|c l].
      * rewrite app_nil_r in E1. apply (Hpre []).
        rewrite app_nil_r. symmetry. exact E1.
      * simpl in E2. inversion E2; subst c f. subst n.
        rewrite forallb_app in Hnd. apply andb_true_iff in Hnd.
        destruct Hnd as [Hnd1 Hnd2]. simpl in Hnd2.
        rewrite forallb_app in Hff. apply andb_true_iff in Hff.
        destruct Hff as [Hl _].
        eexists. apply py_float_decimal.
        -- exact Hd.
        -- apply digits_num_dot; assumption.
        -- apply digits_num_dot; assumption.
    + apply (Hpre l). exact E1.
Qed.

Lemma prefix_before_space (n r a b : str) :
  n ++ r = a ++ SPACE :: b -> forallb re_num_dot n = true ->
  exists t, a = n ++ t.
Proof.
  revert a. induction n as [|c n IH]; intros a E H.
  - exists a. reflexivity.
  - simpl in H. apply andb_true_iff in H. destruct H as [Hc Hn].
    destruct a as [|c' a]; simpl in E; inversion E; subst.
    + cbv in Hc. discriminate.
    + destruct (IH a H1 Hn) as (t & ->). exists t. reflexivity.
Qed.

Lemma match_number_unit_some (item n u : str) :
  match_number_unit U item = Some (n, u) ->
  exists r, item = n ++ r /\ n <> [] /\ forallb re_num_dot n = true.
Proof.
  unfold match_number_unit. intros H.
  apply plus_bt_some in H. destruct H as (m & r1 & -> & Hne & Hm & H).
  apply star_bt_some in H. destruct H as (sp & r2 & _ & _ & H).
  apply plus_bt_some in H. destruct H as (w & r3 & _ & _ & _ & H).
  inversion H; subst. exists r1. auto.
Qed.

Variable WRatio : str -> str -> Q.

Lemma extract_item_form (text item : str) :
  In item (extract_numbers_with_units WRatio U text) ->
  exists number matched,
    item = number ++ SPACE :: matched /\ number_form U number /\
    In matched all_units.
Proof.
  unfold extract_numbers_with_units. rewrite in_flat_map.
  intros (m & Hm & Hi). apply findall_In in Hm.
  destruct Hm as (_ & _ & _ & Hform & _).
  unfold fuzzy_item in Hi.
  destruct (extractOne WRatio (g_unit m) all_units score_cutoff)
    as [[[matched sc] i]|] eqn:E; [|destruct Hi].
  destruct Hi as [<- | []].
  exists (g_number m), matched. repeat split; auto.
  unfold extractOne in E. apply extractOne_from_sound in E.
  destruct E as [E | (c & j & E & Hn & _)]; [discriminate|].
  inversion E; subst. eapply nth_error_In. exact Hn.
Qed.

Lemma separate_numbers_In (output : list str) (n : str) :
  In n (fst (separate_numbers_and_units U output)) ->
  exists item u, In item output /\ match_number_unit U item = Some (n, u).
Proof.
  induction output as [|item output IH]; simpl; [intros []|].
  destruct (separate_numbers_and_units U output) as [ns us].
  destruct (match_number_unit U item) as [[n' u']|] eqn:E; simpl.
  - intros [<- | H].
    + exists item, u'. auto.
    + destruct (IH H) as (i & u & Hi & Hm). exists i, u. auto.
  - intros H. destruct (IH H) as (i & u & Hi & Hm). exists i, u. auto.
Qed.

(** Every number that reaches [categorize_values] is read by [float]. *)
Lemma pipeline_numbers_parse (text n : str) :
  In n (fst (separate_numbers_and_units U
               (extract_numbers_with_units WRatio U text))) ->
  exists q, py_float n = Ret q.
Proof.
  intros H. apply separate_numbers_In in H.
  destruct H as (item & u & Hi & Hm).
  apply extract_item_form in Hi.
  destruct Hi as (number & matched & -> & Hform & _).
  apply match_number_unit_some in Hm.
  destruct Hm as (r & E & Hne & Hnd).
  symmetry in E.
  destruct (prefix_before_space _ _ _ _ E Hnd) as (t & Et).
  eapply py_float_prefix; eassumption.
Qed.
End Totality.

(** Every unit of the registry has a positive factor, and every category of
    the registry is a key of the result. *)
Lemma registry_sound (category : str) (unit_set : list str) (unit : str) :
  In (category, unit_set) unit_categories -> In unit unit_set ->
  In category (dict_keys empty_categorized_values) /\
  exists factor : Q,
    dict_get conversion_factors_to_smallest unit = Some (Fin factor) /\
    (0 < factor)%Q.
Proof.
  assert (H : forallb (fun cs : str * list str =>
                str_in (fst cs) (dict_keys empty_categorized_values) &&
                forallb (fun u =>
                           match dict_get conversion_factors_to_smallest u with
                           | Some (Fin f) => Qlt_bool 0 f
                           | _ => false
                           end) (snd cs)) unit_categories = true)
    by (vm_compute; reflexivity).
  intros Hc Hu. rewrite forallb_forall in H. specialize (H _ Hc). cbn [fst snd] in H.
  apply andb_true_iff in H. destruct H as [Hk Hf]. split.
  - apply str_in_In. exact Hk.
  - rewrite forallb_forall in Hf. specialize (Hf _ Hu).
    destruct (dict_get conversion_factors_to_smallest unit) as [[|f|]|];
      try discriminate Hf.
    exists f. split; [reflexivity | apply Qlt_bool_iff; exact Hf].
Qed.

Lemma dict_get_key {V : Type} (d : dict V) (k : str) :
  In k (dict_keys d) -> exists v, dict_get d k = Some v.
Proof.
  induction d as [|[k' v'] d IH]; simpl; [intros []|].
  destruct (str_eqb k k') eqn:E; [eexists; reflexivity|].
  apply str_eqb_neq in E. intros [H | H]; [congruence | apply IH; exact H].
Qed.

Lemma dict_append_keys (d d' : dict (list measurement)) (category : str)
      (x : measurement) :
  dict_append d category x = Ret d' -> dict_keys d' = dict_keys d.
Proof.
  revert d'. induction d as [|[k l] d IH]; intros d'; simpl; [discriminate|].
  destruct (str_eqb category k).
  - intros [= <-]. reflexivity.
  - destruct (dict_append d category x) as [e|d''] eqn:E; simpl; [discriminate|].
    intros [= <-]. simpl. f_equal. apply IH. reflexivity.
Qed.

Lemma dict_append_total (d : dict (list measurement)) (category : str)
      (x : measurement) :
  In category (dict_keys d) -> exists d', dict_append d category x = Ret d'.
Proof.
  induction d as [|[k l] d IH]; simpl; [intros []|].
  destruct (str_eqb category k) eqn:E; [eexists; reflexivity|].
  apply str_eqb_neq in E. intros [H | H]; [congruence|].
  destruct (IH H) as (d' & ->). eexists. reflexivity.
Qed.

(** What an entry of the result of [dict_append] was before. *)
Lemma dict_append_entry (d d' : dict (list measurement)) (category : str)
      (x : measurement) (k : str) (l' : list measurement) :
  dict_append d category x = Ret d' -> In (k, l') d' ->
  exists l, In (k, l) d /\ (l' = l \/ (k = category /\ l' = l ++ [x])).
Proof.
  revert d'. induction d as [|[k0 l0] d IH]; intros d'; simpl; [discriminate|].
  destruct (str_eqb category k0) eqn:E.
  - apply str_eqb_eq in E. subst k0. intros [= <-] [H | H].
    + inversion H; subst. exists l0. auto.
    + exists l'. auto.
  - destruct (dict_append d category x) as [e|d''] eqn:E'; simpl; [discriminate|].
    intros [= <-] [H | H].
    + inversion H; subst. exists l'. auto.
    + destruct (IH d'' eq_refl H) as (l & Hl & Hor). exists l. auto.
Qed.

Section Categorize.
Variable pairs : list (str * str).

Lemma categorize_one_measured (num unit : str) :
  In (num, unit) pairs ->
  forall categories cv cv',
    (forall c s, In (c, s) categories -> In (c, s) unit_categories) ->
    categorize_one num unit categories cv = Ret cv' ->
    all_measured pairs cv -> all_measured pairs cv'.
Proof.
  intros Hp. induction categories as [|[category unit_set] rest IH];
    intros cv cv' Hin; simpl.
  - intros [= <-] H. exact H.
  - destruct (str_in unit unit_set) eqn:Eu.
    + destruct (py_float num) as [e|f] eqn:Ef; simpl; [discriminate|].
      unfold subscript.
      destruct (dict_get conversion_factors_to_smallest unit) as [factor|] eqn:Ec;
        simpl; [|discriminate].
      destruct (dict_append cv category _) as [e|cv1] eqn:Ea; simpl; [discriminate|].
      intros Hrest Hcv. eapply IH; [| exact Hrest |].
      * intros c s H. apply Hin. right. exact H.
      * intros k l' m Hk Hm.
        destruct (dict_append_entry _ _ _ _ _ _ Ea Hk) as (l & Hl & [-> | [-> ->]]).
        -- eapply Hcv; eassumption.
        -- apply in_app_or in Hm. destruct Hm as [Hm | [<- | []]].
           ++ eapply Hcv; eassumption.
           ++ exists num, unit, unit_set, f, factor.
              repeat split; auto.
              ** apply Hin. left. reflexivity.
              ** apply str_in_In. exact Eu.
    + intros Hrest Hcv. eapply IH; [| exact Hrest | exact Hcv].
      intros c s H. apply Hin. right. exact H.
Qed.

Lemma categorize_loop_measured (ps : list (str * str)) :
  (forall p, In p ps -> In p pairs) ->
  forall cv cv',
    categorize_loop ps cv = Ret cv' ->
    all_measured pairs cv -> all_measured pairs cv'.
Proof.
  induction ps as [|[num unit] ps IH]; intros Hin cv cv'; cbn [categorize_loop].
  - intros [= <-] H. exact H.
  - destruct (categorize_one num unit unit_categories cv) as [e|cv1] eqn:E;
      simpl; [discriminate|].
    intros Hrest Hcv. eapply IH; [| exact Hrest |].
    + intros p Hp. apply Hin. right. exact Hp.
    + eapply categorize_one_measured; [| | exact E | exact Hcv].
      * apply Hin. left. reflexivity.
      * auto.
Qed.
End Categorize.

Lemma categorize_one_total (num unit : str) :
  (exists q, py_float num = Ret q) ->
  forall categories cv,
    (forall c s, In (c, s) categories -> In (c, s) unit_categories) ->
    five_keys cv ->
    exists cv', categorize_one num unit categories cv = Ret cv' /\ five_keys cv'.
Proof.
  intros (q & Hq). induction categories as [|[category unit_set] rest IH];
    intros cv Hin Hk; simpl.
  - exists cv. auto.
  - assert (Hrest : forall c s, In (c, s) rest -> In (c, s) unit_categories)
      by (intros c s H; apply Hin; right; exact H).
    destruct (str_in unit unit_set) eqn:Eu; [|apply IH; assumption].
    apply str_in_In in Eu.
    destruct (registry_sound category unit_set unit) as (Hc & factor & Hf & _);
      [apply Hin; left; reflexivity | exact Eu |].
    rewrite Hq. unfold subscript. rewrite Hf. simpl.
    unfold five_keys in Hk. rewrite <- Hk in Hc.
    destruct (dict_append_total cv category
                (fmul q (Fin factor), num ++ SPACE :: unit) Hc) as (cv1 & E1).
    rewrite E1. simpl. apply IH; [exact Hrest|].
    unfold five_keys. rewrite (dict_append_keys _ _ _ _ E1). exact Hk.
Qed.

Lemma categorize_loop_total (ps : list (str * str)) :
  (forall num unit, In (num, unit) ps -> exists q, py_float num = Ret q) ->
  forall cv, five_keys cv ->
    exists cv', categorize_loop ps cv = Ret cv' /\ five_keys cv'.
Proof.
  induction ps as [|[num unit] ps IH]; intros Hp cv Hk; cbn [categorize_loop].
  - exists cv. auto.
  - destruct (categorize_one_total num unit (Hp num unit (or_introl eq_refl))
                unit_categories cv (fun c s H => H) Hk) as (cv1 & E1 & Hk1).
    rewrite E1. simpl. apply IH; [|exact Hk1].
    intros n u H. apply (Hp n u). right. exact H.
Qed.

(** A pair whose unit is in no category leaves the result as it is; its
    number is not even read. *)
Lemma categorize_one_skip (num unit : str) (cv : dict (list measurement)) :
  forall categories,
    (forall c s, In (c, s) categories -> ~ In unit s) ->
    categorize_one num unit categories cv = Ret cv.
Proof.
  induction categories as [|[category unit_set] rest IH]; intros H; simpl.
  - reflexivity.
  - assert (E : str_in unit unit_set = false).
    { apply str_in_not_In. apply (H category). left. reflexivity. }
    rewrite E. apply IH. intros c s Hc. apply (H c). right. exact Hc.
Qed.

Lemma entity_rule_category (entity_name category : str) (d : direction) :
  entity_rule entity_name = Some (category, d) ->
  In category (dict_keys empty_categorized_values).
Proof.
  intros E. apply dict_get_In in E. unfold entity_rule_table in E. simpl in E.
  repeat (destruct E as [E | E];
          [inversion E; apply str_in_In; vm_compute; reflexivity|]).
  contradiction.
Qed.

Lemma get_entity_value_total (entity_name : str) (cv : dict (list measurement)) :
  five_keys cv -> exists r, get_entity_value entity_name cv = Ret r.
Proof.
  intros Hk. rewrite get_entity_value_select. unfold select.
  destruct (entity_rule entity_name) as [[category d]|] eqn:E; [|eexists; reflexivity].
  apply entity_rule_category in E. unfold five_keys in Hk. rewrite <- Hk in E.
  destruct (dict_get_key cv category E) as (l & ->).
  destruct l; eexists; reflexivity.
Qed.

(** C8. For every text and every entity name the pipeline returns: no
    call of [float], no subscript and no [max] or [min] raises, whatever
    the scorer and the Unicode tables are; the categorised mapping is built
    with its five keys, and the answer is a display string or [None]. *)
Theorem pipeline_never_raises :
  forall (WRatio : str -> str -> Q) (U : unicode_db) (text entity_name : str),
    (exists cv,
        categorize_values
          (snd (fst (convert_to_full_unit WRatio U text)))
          (snd (convert_to_full_unit WRatio U text)) = Ret cv /\
        five_keys cv) /\
    exists r : option str, pipeline WRatio U text entity_name = Ret r.
Proof.
  intros W U text entity.
  unfold pipeline, convert_to_full_unit.
  destruct (separate_numbers_and_units U (extract_numbers_with_units W U text))
    as [numbers units] eqn:Es.
  cbn [fst snd].
  assert (Hnum : forall n, In n numbers -> exists q, py_float n = Ret q).
  { intros n Hn. apply (pipeline_numbers_parse U W text). rewrite Es. exact Hn. }
  destruct (categorize_loop_total (combine numbers (map (get_full_unit U) units)))
    with (cv := empty_categorized_values) as (cv & Ecv & Hk).
  - intros n u H. apply Hnum. eapply in_combine_l. exact H.
  - reflexivity.
  - unfold categorize_values. rewrite Ecv. split.
    + exists cv. auto.
    + simpl. apply get_entity_value_total. exact Hk.
Qed.

(* ------------------------------------------------------------------ *)
(** ** Units of no category                                             *)
(* ------------------------------------------------------------------ *)

Lemma categorize_loop_drop (ps1 ps2 : list (str * str)) (num unit : str) :
  uncategorized unit ->
  forall cv,
    categorize_loop (ps1 ++ (num, unit) :: ps2) cv = categorize_loop (ps1 ++ ps2) cv.
Proof.
  intros Hu. induction ps1 as [|[n u] ps1 IH]; intros cv; cbn [app categorize_loop].
  - rewrite (categorize_one_skip num unit cv unit_categories Hu). reflexivity.
  - destruct (categorize_one n u unit_categories cv) as [e|cv1]; cbn [bind].
    + reflexivity.
    + apply IH.
Qed.

Lemma uncategorized_check (unit : str) :
  forallb (fun cs : str * list str => negb (str_in unit (snd cs))) unit_categories = true ->
  uncategorized unit.
Proof.
  intros H category unit_set Hc. rewrite forallb_forall in H.
  specialize (H _ Hc). cbn [snd] in H. apply negb_true_iff in H.
  apply str_in_not_In. exact H.
Qed.

(* ------------------------------------------------------------------ *)
(** ** The normaliser                                                   *)
(* ------------------------------------------------------------------ *)

Lemma ascii_space_ascii (c : char) : ascii_space c = true -> (c <? 128) = true.
Proof.
  unfold ascii_space, in_range.
  rewrite orb_true_iff, !andb_true_iff, !N.leb_le, N.ltb_lt. lia.
Qed.

Lemma ascii_space_low (c : char) : ascii_space c = true -> low c = c.
Proof.
  intros H. unfold low. rewrite (ascii_space_ascii c H).
  unfold ascii_lower. revert H. unfold ascii_space, in_range.
  rewrite orb_true_iff, !andb_true_iff, !N.leb_le. intros H.
  destruct (N.leb_spec 65 c); [|reflexivity].
  destruct (N.leb_spec c 90); [lia | reflexivity].
Qed.

Lemma ascii_lower_not_space (c : char) :
  (c <? 128) = true -> ascii_space c = false ->
  (ascii_lower c <? 128) = true /\ ascii_space (ascii_lower c) = false.
Proof.
  intros Ha Hs. unfold ascii_lower.
  destruct (in_range 65 90 c) eqn:E; [|auto].
  unfold in_range in E. apply andb_true_iff in E.
  rewrite !N.leb_le in E. split.
  - apply N.ltb_lt. lia.
  - unfold ascii_space, in_range.
    destruct (N.leb_spec (c + 32) 13); [lia|].
    destruct (N.leb_spec (c + 32) 32); [lia|].
    rewrite !andb_false_r. reflexivity.
Qed.

Lemma map_low_spaces (w : str) : forallb ascii_space w = true -> map low w = w.
Proof.
  induction w as [|c w IH]; simpl; [reflexivity|].
  rewrite andb_true_iff. intros [Hc Hw].
  rewrite (ascii_space_low c Hc), (IH Hw). reflexivity.
Qed.

Lemma drop_while_all (p : char -> bool) (w y : str) :
  forallb p w = true -> drop_while p (w ++ y) = drop_while p y.
Proof.
  induction w as [|c w IH]; simpl; [reflexivity|].
  rewrite andb_true_iff. intros [Hc Hw]. rewrite Hc. apply IH. exact Hw.
Qed.

Lemma forallb_rev (p : char -> bool) (w : str) :
  forallb p w = true -> forallb p (rev w) = true.
Proof.
  rewrite !forallb_forall. intros H x Hx. apply H. apply in_rev. exact Hx.
Qed.

Section Normaliser.
Variable U : unicode_db.

Lemma re_space_ascii (w : str) :
  forallb ascii_space w = true -> forallb (re_space U) w = true.
Proof.
  induction w as [|c w IH]; simpl; [reflexivity|].
  rewrite !andb_true_iff. intros [Hc Hw]. split; [|apply IH; exact Hw].
  unfold re_space. rewrite (ascii_space_ascii c Hc). exact Hc.
Qed.

Lemma re_space_low_ascii (c : char) :
  (c <? 128) = true -> ascii_space c = false -> re_space U (low c) = false.
Proof.
  intros Ha Hs. unfold low. rewrite Ha.
  destruct (ascii_lower_not_space c Ha Hs) as [H1 H2].
  unfold re_space. rewrite H1. exact H2.
Qed.

Lemma re_space_low_stable (c : char) : stable U c -> re_space U (low c) = false.
Proof.
  intros (Hc & Hs & _). unfold low, re_space. rewrite Hc, Hc. exact Hs.
Qed.

(** [lower] on a string of ASCII and stable characters. *)
Lemma lower_from_map (whole : str) :
  forall s i,
    (forall j c, nth_error s j = Some c -> nth_error whole (i + j) = Some c) ->
    Forall (fun c => (c <? 128) = true \/ stable U c) s ->
    lower_from U whole i s = map low s.
Proof.
  induction s as [|c s IH]; intros i Hnth Hall; simpl; [reflexivity|].
  inversion Hall as [|? ? Hc Hs]; subst.
  rewrite (IH (S i)); [| |exact Hs].
  - change (low c) with (if c <? 128 then ascii_lower c else c).
    destruct Hc as [Hc | (Hc & _ & Hl)]; rewrite Hc.
    + reflexivity.
    + rewrite (Hl whole i); [reflexivity|].
      rewrite <- (Nat.add_0_r i). apply Hnth. reflexivity.
  - intros j c' Hj. rewrite Nat.add_succ_l, <- Nat.add_succ_r.
    apply Hnth. exact Hj.
Qed.

Lemma py_lower_map (s : str) :
  Forall (fun c => (c <? 128) = true \/ stable U c) s ->
  py_lower U s = map low s.
Proof. intros H. apply lower_from_map; auto. Qed.

Lemma spelled_tame (blank : bool) (b s : str) :
  spelled U blank b s -> Forall (fun c => (c <? 128) = true \/ stable U c) b.
Proof.
  induction 1 as [| | |w t s Hw Hsp Ht Hs IH]; auto.
  apply Forall_app. split; [|exact IH].
  apply Forall_forall. intros c Hc. left. apply ascii_space_ascii.
  rewrite forallb_forall in Hsp. apply Hsp. exact Hc.
Qed.

(** A spelling that may not start with a blank starts with a character
    whose lower case is no white space. *)
Lemma spelled_head (b s : str) :
  spelled U false b s ->
  match map low b with [] => True | c :: _ => re_space U c = false end.
Proof.
  intros H. inversion H; subst; simpl; auto.
  - apply re_space_low_ascii; assumption.
  - apply re_space_low_stable; assumption.
Qed.

(** And it ends with one. *)
Lemma spelled_last (blank : bool) (b s : str) :
  spelled U blank b s -> b <> [] ->
  exists c rest, rev (map low b) = c :: rest /\ re_space U c = false.
Proof.
  assert (Hsnoc : forall (x : char) (t : str),
             re_space U x = false ->
             (t <> [] -> exists c rest, rev (map low t) = c :: rest /\
                                        re_space U c = false) ->
             exists c rest, rev (x :: map low t) = c :: rest /\ re_space U c = false).
  { intros x t Hx IH. simpl. destruct t as [|y t].
    - exists x, []. auto.
    - destruct IH as (c & rest & E & Hc); [discriminate|].
      rewrite E. exists c, (rest ++ [x]). auto. }
  induction 1 as [|blank c t s Ha Hs Hsp IH|blank c t s Hst Hsp IH
                  |w t s Hw Hsp Ht Hs IH]; intros Hne.
  - congruence.
  - apply Hsnoc; [apply re_space_low_ascii; assumption | exact IH].
  - apply Hsnoc; [apply re_space_low_stable; assumption | exact IH].
  - rewrite map_app, rev_app_distr.
    destruct (IH Ht) as (c & rest & E & Hc). rewrite E.
    exists c, (rest ++ rev (map low w)). auto.
Qed.

Lemma sub_spaces_run (w x : str) :
  forallb (re_space U) w = true ->
  sub_spaces U true (w ++ x) = sub_spaces U true x.
Proof.
  induction w as [|c w IH]; simpl; [reflexivity|].
  rewrite andb_true_iff. intros [Hc Hw]. rewrite Hc. apply IH. exact Hw.
Qed.

Lemma sub_spaces_head (x : str) :
  match x with [] => True | c :: _ => re_space U c = false end ->
  sub_spaces U true x = sub_spaces U false x.
Proof.
  destruct x as [|c x]; simpl; [reflexivity|]. intros ->. reflexivity.
Qed.

(** Collapsing the blanks of the lower-cased spelling gives the surface
    form back. *)
Lemma sub_spaces_spelled (blank : bool) (b s : str) :
  spelled U blank b s -> sub_spaces U false (map low b) = s.
Proof.
  induction 1 as [|blank c t s Ha Hs Hsp IH|blank c t s Hst Hsp IH
                  |w t s Hw Hsp Ht Hs IH]; simpl.
  - reflexivity.
  - rewrite (re_space_low_ascii c Ha Hs), IH. unfold low. rewrite Ha. reflexivity.
  - rewrite (re_space_low_stable c Hst), IH.
    destruct Hst as (Hc & _). unfold low. rewrite Hc. reflexivity.
  - rewrite map_app, (map_low_spaces w Hsp).
    destruct w as [|c w]; [congruence|].
    simpl in Hsp. apply andb_true_iff in Hsp. destruct Hsp as [Hc Hsp].
    simpl. assert (Hc' := re_space_ascii [c]). simpl in Hc'.
    rewrite Hc in Hc'. specialize (Hc' eq_refl).
    apply andb_true_iff in Hc'. destruct Hc' as [Hc' _]. rewrite Hc'.
    rewrite (sub_spaces_run w _ (re_space_ascii w Hsp)).
    rewrite (sub_spaces_head _ (spelled_head _ _ Hs)), IH. reflexivity.
Qed.

Lemma py_strip_padded (w1 b w2 : str) :
  forallb (re_space U) w1 = true -> forallb (re_space U) w2 = true ->
  match b with [] => True | c :: _ => re_space U c = false end ->
  (b <> [] -> exists c rest, rev b = c :: rest /\ re_space U c = false) ->
  py_strip U (w1 ++ b ++ w2) = b.
Proof.
  intros H1 H2 Hhead Hlast. unfold py_strip.
  rewrite (drop_while_all _ w1 _ H1).
  destruct b as [|c b].
  - simpl. rewrite <- (app_nil_r w2), (drop_while_all _ w2 [] H2). reflexivity.
  - cbn [app drop_while]. rewrite Hhead.
    change (c :: b ++ w2) with ((c :: b) ++ w2).
    rewrite rev_app_distr, (drop_while_all _ (rev w2) _ (forallb_rev _ _ H2)).
    destruct Hlast as (c' & rest & E & Hc'); [discriminate|].
    rewrite E. cbn [drop_while]. rewrite Hc', <- E. apply rev_involutive.
Qed.

(** The cleaning step of [get_full_unit] undoes a variant. *)
Lemma clean_unit_variant (t s : str) : variant U t s -> clean_unit U t = s.
Proof.
  intros (w1 & b & w2 & -> & H1 & H2 & Hb). unfold clean_unit.
  rewrite py_lower_map.
  - rewrite !map_app, (map_low_spaces w1 H1), (map_low_spaces w2 H2).
    rewrite py_strip_padded.
    + eapply sub_spaces_spelled. exact Hb.
    + apply re_space_ascii. exact H1.
    + apply re_space_ascii. exact H2.
    + eapply spelled_head. exact Hb.
    + intros Hne. eapply spelled_last; [exact Hb|].
      intros ->. apply Hne. reflexivity.
  - assert (Hsp : forall w, forallb ascii_space w = true ->
              Forall (fun c => (c <? 128) = true \/ stable U c) w).
    { intros w Hw. apply Forall_forall. intros c Hc. left.
      apply ascii_space_ascii. rewrite forallb_forall in Hw. apply Hw. exact Hc. }
    repeat (apply Forall_app; split); auto.
    eapply spelled_tame. exact Hb.
Qed.

(** A plain string spells itself. *)
Lemma plain_spelled :
  stable U MU -> stable U CUBED ->
  forall s blank, plain blank s = true -> spelled U blank s s.
Proof.
  intros Hmu Hcu. induction s as [|c s IH]; intros blank H; [constructor|].
  cbn [plain] in H. destruct (c =? SPACE) eqn:Ec.
  - apply N.eqb_eq in Ec. subst c.
    apply andb_true_iff in H. destruct H as [H Hp].
    apply andb_true_iff in H. destruct H as [Hb Hs]. subst blank.
    apply (sp_blank U [SPACE] s s); auto; [discriminate|].
    destruct s; [discriminate Hs | discriminate].
  - apply andb_true_iff in H. destruct H as [Hc Hp].
    specialize (IH true Hp).
    rewrite !orb_true_iff, !andb_true_iff, negb_true_iff, !N.eqb_eq in Hc.
    destruct Hc as [[((Ha & Hs) & El) | ->] | ->].
    + rewrite <- El at 2. apply sp_ascii; assumption.
    + apply sp_stable; assumption.
    + apply sp_stable; assumption.
Qed.
End Normaliser.

(** The vocabulary is consistent with the lookup: every surface form is a
    plain string, and the first canonical unit that claims it is its own. *)
Lemma vocabulary_lookup (u s : str) :
  surface_form u s ->
  plain false s = true /\ full_unit_lookup s unit_fullform_to_abbreviation = u.
Proof.
  assert (H : forallb (fun e : str * list str =>
                forallb (fun s =>
                           plain false s &&
                           str_eqb (full_unit_lookup s unit_fullform_to_abbreviation)
                                   (fst e))
                        (fst e :: snd e))
                unit_fullform_to_abbreviation = true) by (vm_compute; reflexivity).
  intros (abbreviations & Hin & Hs). rewrite forallb_forall in H.
  specialize (H _ Hin). cbn [fst snd] in H. rewrite forallb_forall in H.
  assert (Hs' : In s (u :: abbreviations)) by (destruct Hs as [-> | Hs]; simpl; auto).
  specialize (H s Hs'). apply andb_true_iff in H. destruct H as [Hp He].
  apply str_eqb_eq in He. auto.
Qed.

Lemma lookup_unclaimed (x : str) (items : dict (list str)) :
  (forall u abbreviations,
      In (u, abbreviations) items -> x <> u /\ ~ In x abbreviations) ->
  full_unit_lookup x items = [].
Proof.
  induction items as [|[u abbreviations] items IH]; intros H; simpl; [reflexivity|].
  destruct (H u abbreviations (or_introl eq_refl)) as [H1 H2].
  apply str_eqb_neq in H1. apply str_in_not_In in H2. rewrite H1, H2. simpl.
  apply IH. intros u' a' Hin. apply H. right. exact Hin.
Qed.

(** C9. When MU and SUPERSCRIPT THREE are no white space and are their own
    lower case, [get_full_unit] maps every surface form of a canonical unit
    (the name itself and each abbreviation) to that unit, and so it does
    for every variant of it in letter case and in white space; a string
    whose cleaned form no canonical unit claims gives the empty string. *)
Theorem normalize_surface_forms :
  forall U : unicode_db,
    stable U MU -> stable U CUBED ->
    (forall u s, surface_form u s -> get_full_unit U s = u) /\
    (forall u s t, surface_form u s -> variant U t s -> get_full_unit U t = u) /\
    (forall t, (forall u, ~ surface_form u (clean_unit U t)) ->
               get_full_unit U t = []).
Proof.
  intros U Hmu Hcu.
  assert (Hvar : forall u s t,
             surface_form u s -> variant U t s -> get_full_unit U t = u).
  { intros u s t Hs Hv. unfold get_full_unit.
    rewrite (clean_unit_variant U t s Hv).
    apply vocabulary_lookup. exact Hs. }
  split; [|split].
  - intros u s Hs. apply (Hvar u s s Hs).
    exists [], s, []. rewrite app_nil_r. repeat split.
    apply plain_spelled; auto. apply (vocabulary_lookup u s Hs).
  - exact Hvar.
  - intros t H. unfold get_full_unit. apply lookup_unclaimed.
    intros u abbreviations Hin. split.
    + intros E. apply (H u). exists abbreviations. auto.
    + intros E. apply (H u). exists abbreviations. auto.
Qed.

Lemma unclaimed_check (x : str) :
  forallb (fun e : str * list str =>
             negb (str_eqb x (fst e)) && negb (str_in x (snd e)))
          unit_fullform_to_abbreviation = true ->
  forall u, ~ surface_form u x.
Proof.
  intros H u (abbreviations & Hin & Hs). rewrite forallb_forall in H.
  specialize (H _ Hin). cbn [fst snd] in H.
  apply andb_true_iff in H. destruct H as [H1 H2].
  apply negb_true_iff in H1, H2.
  apply str_eqb_neq in H1. apply str_in_not_In in H2.
  destruct Hs; contradiction.
Qed.

Lemma basic_db_stable (c : char) :
  (c <? 128) = false -> stable basic_db c.
Proof.
  intros H. split; [exact H|]. split; [reflexivity|].
  intros whole i E. simpl. rewrite E. reflexivity.
Qed.

Lemma normalize_surface_forms_witness :
  get_full_unit basic_db (MU :: lit "g") = lit "microgram" /\
  get_full_unit basic_db (SPACE :: lit "Cu" ++ [SPACE; 9] ++ lit "FT" ++ [SPACE])
  = lit "cubic foot" /\
  get_full_unit basic_db (lit "Box") = [].
Proof.
  assert (Hmu : stable basic_db MU) by (apply basic_db_stable; reflexivity).
  assert (Hcu : stable basic_db CUBED) by (apply basic_db_stable; reflexivity).
  assert (Hcf : surface_form (lit "cubic foot") (lit "cu ft")).
  { exists [lit "cu ft"; lit "ft" ++ [CUBED]]. split.
    - apply (nth_error_In unit_fullform_to_abbreviation 22). reflexivity.
    - right. left. reflexivity. }
  assert (Hug : surface_form (lit "microgram") (MU :: lit "g")).
  { exists [lit "mcg"; MU :: lit "g"; lit "micrograms"]. split.
    - apply (nth_error_In unit_fullform_to_abbreviation 9). reflexivity.
    - right. right. left. reflexivity. }
  split; [|split].
  - apply (proj1 (normalize_surface_forms basic_db Hmu Hcu) _ _ Hug).
  - apply (proj1 (proj2 (normalize_surface_forms basic_db Hmu Hcu)) _ _ _ Hcf).
    exists [SPACE], (lit "Cu" ++ [SPACE; 9] ++ lit "FT"), [SPACE].
    split; [reflexivity|]. split; [reflexivity|]. split; [reflexivity|].
    apply (sp_ascii basic_db false 67 _ (lit "u ft")); [reflexivity..|].
    apply (sp_ascii basic_db true 117 _ (lit " ft")); [reflexivity..|].
    apply (sp_blank basic_db [SPACE; 9] (lit "FT") (lit "ft"));
      [discriminate | reflexivity | discriminate |].
    apply (sp_ascii basic_db false 70 _ (lit "t")); [reflexivity..|].
    apply (sp_ascii basic_db true 84 _ []); [reflexivity..|].
    apply sp_end.
  - apply (proj2 (proj2 (normalize_surface_forms basic_db Hmu Hcu))).
    apply unclaimed_check. vm_compute. reflexivity.
Defined.


(* ------------------------------------------------------------------ *)
(** ** Further properties of the extraction                             *)
(* ------------------------------------------------------------------ *)

(** A greedy repetition that can take the whole run [m] and then meets the
    end or a character outside the class gives the run to what follows. *)
Lemma star_bt_greedy {A : Type} (p : char -> bool) (m r : str)
      (k : str -> str -> option A) (a : A) :
  forallb p m = true ->
  match r with [] => True | c :: _ => p c = false end ->
  k m r = Some a ->
  star_bt p (m ++ r) k = Some a.
Proof.
  revert k. induction m as [|c m IH]; intros k Hm Hr Hk.
  - simpl. destruct r as [|c r]; simpl; [exact Hk | rewrite Hr; exact Hk].
  - simpl in Hm. apply andb_true_iff in Hm. destruct Hm as [Hc Hm].
    simpl. rewrite Hc.
    rewrite (IH (fun m r => k (c :: m) r) Hm Hr Hk). reflexivity.
Qed.

Lemma plus_bt_greedy {A : Type} (p : char -> bool) (m r : str)
      (k : str -> str -> option A) (a : A) :
  m <> [] -> forallb p m = true ->
  match r with [] => True | c :: _ => p c = false end ->
  k m r = Some a ->
  plus_bt p (m ++ r) k = Some a.
Proof.
  intros Hne Hm Hr Hk. destruct m as [|c m]; [congruence|].
  simpl in Hm. apply andb_true_iff in Hm. destruct Hm as [Hc Hm].
  simpl. rewrite Hc.
  apply (star_bt_greedy p m r (fun m r => k (c :: m) r)); assumption.
Qed.

Section ExtractionFacts.
Variable U : unicode_db.

(** No match starts at a character that is no digit. *)
Lemma findall_skip_prefix (pre s : str) :
  forallb (fun c => negb (re_digit U c)) pre = true ->
  findall U (pre ++ s) = findall U s.
Proof.
  unfold findall. induction pre as [|c pre IH]; intros H; [reflexivity|].
  simpl in H. apply andb_true_iff in H. destruct H as [Hc H].
  apply negb_true_iff in Hc.
  change ((c :: pre) ++ s) with (c :: (pre ++ s)). cbn [findall_from].
  unfold match_pattern at 1. cbn [plus_bt]. rewrite Hc. apply IH. exact H.
Qed.

Lemma findall_no_digits (text : str) :
  forallb (fun c => negb (re_digit U c)) text = true -> findall U text = [].
Proof.
  intros H. rewrite <- (app_nil_r text). rewrite (findall_skip_prefix text [] H).
  reflexivity.
Qed.
End ExtractionFacts.

(** X1. Text in front of a measurement that holds no decimal digit changes
    nothing: the matches, the extracted pairs, the three lists of
    [convert_to_full_unit] and the result of the pipeline are those of the
    text without it. *)
Theorem leading_text_is_ignored :
  forall (WRatio : str -> str -> Q) (U : unicode_db) (pre text entity_name : str),
    forallb (fun c => negb (re_digit U c)) pre = true ->
    findall U (pre ++ text) = findall U text /\
    extract_numbers_with_units WRatio U (pre ++ text) =
      extract_numbers_with_units WRatio U text /\
    convert_to_full_unit WRatio U (pre ++ text) = convert_to_full_unit WRatio U text /\
    pipeline WRatio U (pre ++ text) entity_name = pipeline WRatio U text entity_name.
Proof.
  intros W U pre text entity H.
  assert (E1 : findall U (pre ++ text) = findall U text)
    by (apply findall_skip_prefix; exact H).
  assert (E2 : extract_numbers_with_units W U (pre ++ text) =
               extract_numbers_with_units W U text)
    by (unfold extract_numbers_with_units; rewrite E1; reflexivity).
  assert (E3 : convert_to_full_unit W U (pre ++ text) = convert_to_full_unit W U text)
    by (unfold convert_to_full_unit; rewrite E2; reflexivity).
  repeat split; auto.
  unfold pipeline. rewrite E3. reflexivity.
Qed.

Lemma leading_text_is_ignored_witness :
  pipeline indel_ratio basic_db (lit "Net Wt: " ++ lit "2.5 kg") (lit "item_weight") =
  pipeline indel_ratio basic_db (lit "2.5 kg") (lit "item_weight").
Proof.
  apply (leading_text_is_ignored indel_ratio basic_db (lit "Net Wt: ") (lit "2.5 kg")).
  vm_compute. reflexivity.
Defined.

(** X2. A text in which no decimal digit occurs gives no match, no pair,
    three empty lists and the answer [None] for every entity name. *)
Theorem no_digit_no_prediction :
  forall (WRatio : str -> str -> Q) (U : unicode_db) (text entity_name : str),
    forallb (fun c => negb (re_digit U c)) text = true ->
    findall U text = [] /\
    extract_numbers_with_units WRatio U text = [] /\
    convert_to_full_unit WRatio U text = ([], [], []) /\
    pipeline WRatio U text entity_name = Ret None.
Proof.
  intros W U text entity H.
  assert (E1 : findall U text = []) by (apply findall_no_digits; exact H).
  assert (E2 : extract_numbers_with_units W U text = [])
    by (unfold extract_numbers_with_units; rewrite E1; reflexivity).
  repeat split; auto.
  - unfold convert_to_full_unit. rewrite E2. reflexivity.
  - apply pipeline_no_pairs. exact E2.
Qed.

Lemma no_digit_no_prediction_witness :
  pipeline indel_ratio basic_db (lit "no measurements here") (lit "width") = Ret None.
Proof.
  apply (no_digit_no_prediction indel_ratio basic_db (lit "no measurements here")).
  vm_compute. reflexivity.
Defined.

(* ------------------------------------------------------------------ *)
(** ** Further properties of the separation and of the full forms       *)
(* ------------------------------------------------------------------ *)

Section SeparationFacts.
Variable U : unicode_db.

(** The two groups of a match of the second pattern. *)
Lemma match_number_unit_groups (item n u : str) :
  match_number_unit U item = Some (n, u) ->
  n <> [] /\ forallb re_num_dot n = true /\
  u <> [] /\ forallb (re_word U) u = true /\
  exists sp rest, item = n ++ sp ++ u ++ rest /\ forallb (re_space U) sp = true.
Proof.
  unfold match_number_unit. intros H.
  apply plus_bt_some in H. destruct H as (m & r1 & -> & Hne & Hm & H).
  apply star_bt_some in H. destruct H as (sp & r2 & -> & Hsp & H).
  apply plus_bt_some in H. destruct H as (w & r3 & -> & Hw & Hww & H).
  inversion H; subst. repeat split; auto.
  exists sp, r3. auto.
Qed.

(** The string that the extractor formats is read back as it was written
    when the unit holds word characters only. *)
Lemma match_number_unit_formatted (n u : str) :
  n <> [] -> forallb re_num_dot n = true ->
  forallb (re_word U) u = true ->
  match u with [] => False | c :: _ => re_space U c = false end ->
  match_number_unit U (n ++ SPACE :: u) = Some (n, u).
Proof.
  intros Hn Hnd Hu Hs. unfold match_number_unit.
  apply plus_bt_greedy; [exact Hn | exact Hnd | reflexivity |].
  change (SPACE :: u) with ([SPACE] ++ u).
  apply star_bt_greedy.
  - reflexivity.
  - destruct u as [|c u]; [exact I | exact Hs].
  - rewrite <- (app_nil_r u) at 1.
    apply plus_bt_greedy; [destruct u; [contradiction | discriminate] | exact Hu | exact I |].
    reflexivity.
Qed.

Lemma separate_lengths (output : list str) :
  length (fst (separate_numbers_and_units U output)) =
  length (snd (separate_numbers_and_units U output)) /\
  (length (fst (separate_numbers_and_units U output)) <= length output)%nat.
Proof.
  induction output as [|item output IH]; simpl; [auto|].
  destruct (separate_numbers_and_units U output) as [ns us]. simpl in IH.
  destruct (match_number_unit U item) as [[n u]|]; simpl; lia.
Qed.

Lemma separate_pairs_In (output : list str) (n u : str) :
  In (n, u) (combine (fst (separate_numbers_and_units U output))
                     (snd (separate_numbers_and_units U output))) ->
  exists item, In item output /\ match_number_unit U item = Some (n, u).
Proof.
  induction output as [|item output IH]; simpl; [intros []|].
  destruct (separate_numbers_and_units U output) as [ns us]. simpl in IH.
  destruct (match_number_unit U item) as [[n' u']|] eqn:E; simpl.
  - intros [H | H].
    + inversion H; subst. exists item. auto.
    + destruct (IH H) as (i & Hi & Hm). exists i. auto.
  - intros H. destruct (IH H) as (i & Hi & Hm). exists i. auto.
Qed.
End SeparationFacts.

(** X3. Writing a pair as [f"{number} {unit}"] and reading it back with
    [separate_numbers_and_units] gives the pair again, for every number
    over digits and points and every unit made of word characters which
    does not start with white space; a list of such pairs comes back as its
    two columns. *)
Theorem format_then_separate :
  forall (U : unicode_db) (pairs : list (str * str)),
    Forall (fun p =>
              fst p <> [] /\ forallb re_num_dot (fst p) = true /\
              forallb (re_word U) (snd p) = true /\
              match snd p with [] => False | c :: _ => re_space U c = false end)
           pairs ->
    Forall (fun p => match_number_unit U (fst p ++ SPACE :: snd p) = Some p) pairs /\
    separate_numbers_and_units U (map (fun p => fst p ++ SPACE :: snd p) pairs) =
      (map fst pairs, map snd pairs).
Proof.
  intros U pairs H.
  assert (H1 : Forall (fun p => match_number_unit U (fst p ++ SPACE :: snd p) = Some p)
                      pairs).
  { eapply Forall_impl; [|exact H]. intros [n u] (Hn & Hnd & Hu & Hs). simpl in *.
    apply match_number_unit_formatted; assumption. }
  split; [exact H1|].
  clear H. induction H1 as [|[n u] pairs Hp _ IH]; simpl; [reflexivity|].
  rewrite IH. simpl in Hp. rewrite Hp. reflexivity.
Qed.

Lemma format_then_separate_witness :
  separate_numbers_and_units basic_db
    (map (fun p => fst p ++ SPACE :: snd p)
         [(lit "2.5", lit "kg"); (lit "12", lit "ft" ++ [CUBED])]) =
  ([lit "2.5"; lit "12"], [lit "kg"; lit "ft" ++ [CUBED]]).
Proof.
  apply (format_then_separate basic_db
           [(lit "2.5", lit "kg"); (lit "12", lit "ft" ++ [CUBED])]).
  repeat constructor; discriminate.
Defined.

(** X4. The two lists of [separate_numbers_and_units] have the same length,
    at most that of its input; every number is a non-empty string over
    digits and points, every unit a non-empty string of word characters,
    and each pair is the two groups of the pattern on one of the input
    strings: a string on which the pattern fails is left out. *)
Theorem separate_shape :
  forall (U : unicode_db) (output : list str),
    let numbers := fst (separate_numbers_and_units U output) in
    let units := snd (separate_numbers_and_units U output) in
    length numbers = length units /\
    (length numbers <= length output)%nat /\
    (forall n u, In (n, u) (combine numbers units) ->
       (exists item, In item output /\ match_number_unit U item = Some (n, u)) /\
       n <> [] /\ forallb re_num_dot n = true /\
       u <> [] /\ forallb (re_word U) u = true) /\
    (forall item, match_number_unit U item = None ->
       separate_numbers_and_units U (item :: output) =
       separate_numbers_and_units U output).
Proof.
  intros U output numbers units. subst numbers units.
  destruct (separate_lengths U output) as [H1 H2].
  split; [exact H1|]. split; [exact H2|]. split.
  - intros n u H. destruct (separate_pairs_In U output n u H) as (item & Hi & Hm).
    split; [exists item; auto|].
    destruct (match_number_unit_groups U item n u Hm) as (A & B & C & D & _). auto.
  - intros item H. simpl. rewrite H.
    destruct (separate_numbers_and_units U output). reflexivity.
Qed.

Lemma separate_shape_witness :
  (lit "2.5" <> [] /\ forallb re_num_dot (lit "2.5") = true /\
   lit "kg" <> [] /\ forallb (re_word basic_db) (lit "kg") = true) /\
  separate_numbers_and_units basic_db [lit "kg 2.5"; lit "2.5 kg"] =
  separate_numbers_and_units basic_db [lit "2.5 kg"].
Proof.
  pose proof (separate_shape basic_db [lit "2.5 kg"]) as H. cbv zeta in H.
  destruct H as (_ & _ & H3 & H4). split.
  - apply (H3 (lit "2.5") (lit "kg")). vm_compute. left. reflexivity.
  - apply H4. vm_compute. reflexivity.
Defined.

Section FullFormFacts.
Variable U : unicode_db.

Lemma full_unit_lookup_range (x : str) (items : dict (list str)) :
  full_unit_lookup x items = [] \/ In (full_unit_lookup x items) (dict_keys items).
Proof.
  induction items as [|[u a] items IH]; simpl; [left; reflexivity|].
  destruct (str_eqb x u || str_in x a); [right; left; reflexivity|].
  destruct IH as [IH | IH]; [left | right; right]; exact IH.
Qed.

(** The full form is the empty string or a canonical name. *)
Lemma get_full_unit_range (t : str) :
  get_full_unit U t = [] \/ In (get_full_unit U t) allowed_units.
Proof. apply full_unit_lookup_range. Qed.

(** A canonical name, and the empty string, are their own full form. *)
Lemma get_full_unit_fixed (u : str) :
  u = [] \/ In u allowed_units -> get_full_unit U u = u.
Proof.
  assert (H : forallb (fun k => str_eqb (get_full_unit U k) k) ([] :: allowed_units) = true)
    by (vm_compute; reflexivity).
  intros Hu. rewrite forallb_forall in H. apply str_eqb_eq. apply H.
  destruct Hu as [-> | Hu]; [left; reflexivity | right; exact Hu].
Qed.
End FullFormFacts.

(** X5. [get_full_unit] returns the empty string or one of the canonical
    names of the vocabulary, whatever it is given, and it is idempotent:
    the full form of a full form is itself. *)
Theorem get_full_unit_idempotent :
  forall (U : unicode_db) (unit_input : str),
    (get_full_unit U unit_input = [] \/
     In (get_full_unit U unit_input) allowed_units) /\
    get_full_unit U (get_full_unit U unit_input) = get_full_unit U unit_input.
Proof.
  intros U t. split; [apply get_full_unit_range|].
  apply get_full_unit_fixed. apply get_full_unit_range.
Qed.

(** X6. The three lists of [convert_to_full_unit] have the same length, at
    most the number of matches of the pattern in the text; the first list
    is the other two joined pair by pair with a space, and every full unit
    is the empty string or a canonical name. *)
Theorem convert_to_full_unit_shape :
  forall (WRatio : str -> str -> Q) (U : unicode_db) (input_text : str),
    let final_result := fst (fst (convert_to_full_unit WRatio U input_text)) in
    let numbers := snd (fst (convert_to_full_unit WRatio U input_text)) in
    let full_units := snd (convert_to_full_unit WRatio U input_text) in
    length final_result = length numbers /\
    length full_units = length numbers /\
    (length numbers <= length (findall U input_text))%nat /\
    final_result = map (fun p => fst p ++ SPACE :: snd p) (combine numbers full_units) /\
    Forall (fun u => u = [] \/ In u allowed_units) full_units.
Proof.
  intros W U text. unfold convert_to_full_unit.
  pose proof (separate_lengths U (extract_numbers_with_units W U text)) as [H1 H2].
  destruct (separate_numbers_and_units U (extract_numbers_with_units W U text))
    as [numbers units].
  cbn [fst snd] in *.
  assert (Hext : (length (extract_numbers_with_units W U text)
                  <= length (findall U text))%nat).
  { unfold extract_numbers_with_units.
    induction (findall U text) as [|m ms IH]; simpl; [lia|].
    rewrite length_app. unfold fuzzy_item at 1.
    destruct (extractOne W (g_unit m) all_units score_cutoff) as [[[? ?] ?]|];
      simpl; lia. }
  repeat split.
  - rewrite length_map, length_combine, length_map. lia.
  - rewrite length_map. lia.
  - lia.
  - apply Forall_forall. intros u Hu. apply in_map_iff in Hu.
    destruct Hu as (x & <- & _). apply get_full_unit_range.
Qed.

(* ------------------------------------------------------------------ *)
(** ** Further properties of the converter                              *)
(* ------------------------------------------------------------------ *)

Lemma dict_get_none {V : Type} (d : dict V) (k : str) :
  ~ In k (dict_keys d) -> dict_get d k = None.
Proof.
  induction d as [|[k' v] d IH]; simpl; [reflexivity|].
  intros H. destruct (str_eqb k k') eqn:E.
  - apply str_eqb_eq in E. subst. exfalso. apply H. left. reflexivity.
  - apply IH. intros Hin. apply H. right. exact Hin.
Qed.

Lemma dict_get_member {V : Type} (d : dict V) (k : str) (v : V) :
  NoDup (dict_keys d) -> In (k, v) d -> dict_get d k = Some v.
Proof.
  induction d as [|[k' v'] d IH]; [intros _ []|].
  cbn [dict_keys map fst]. intros Hnd [H | H]; cbn [dict_get].
  - inversion H; subst. rewrite str_eqb_refl. reflexivity.
  - inversion Hnd as [|? ? Hk Hd]; subst.
    destruct (str_eqb k k') eqn:E; [|apply IH; assumption].
    apply str_eqb_eq in E. subst k'. exfalso. apply Hk.
    apply in_map_iff. exists (k, v). auto.
Qed.

(** The lists of the mapping after an [append]. *)
Lemma dict_append_get (d d' : dict (list measurement)) (c : str) (x : measurement)
      (k : str) :
  dict_append d c x = Ret d' ->
  dict_get d' k =
  if str_eqb k c then option_map (fun l => l ++ [x]) (dict_get d k) else dict_get d k.
Proof.
  revert d'. induction d as [|[k0 l0] d IH]; intros d'; cbn [dict_append];
    [discriminate|].
  destruct (str_eqb c k0) eqn:Ec.
  - apply str_eqb_eq in Ec. subst k0. intros [= <-]. cbn [dict_get].
    destruct (str_eqb k c); reflexivity.
  - destruct (dict_append d c x) as [e|d''] eqn:Ea; cbn [bind]; [discriminate|].
    intros [= <-]. cbn [dict_get]. specialize (IH d'' eq_refl).
    destruct (str_eqb k k0) eqn:Ek.
    + apply str_eqb_eq in Ek. subst k0.
      destruct (str_eqb k c) eqn:Ekc; [|reflexivity].
      apply str_eqb_eq in Ekc. subst c. rewrite str_eqb_refl in Ec. discriminate.
    + exact IH.
Qed.

Lemma py_float_raises (num : str) (e : exn) : py_float num = Raise e -> e = ValueError.
Proof.
  unfold py_float. destruct (span ascii_digit num) as [ip r].
  destruct r as [|c fp].
  - destruct ip; [intros [= <-]; reflexivity | discriminate].
  - destruct (_ && _); [discriminate | intros [= <-]; reflexivity].
Qed.

Section ConverterFacts.
Variables num unit : str.

(** The lists of the mapping after the inner loop over a registry whose
    categories are distinct. *)
Lemma categorize_one_get :
  forall categories cv0 cv1,
    NoDup (dict_keys categories) ->
    categorize_one num unit categories cv0 = Ret cv1 ->
    forall category l0,
      dict_get cv0 category = Some l0 ->
      dict_get cv1 category =
      Some (l0 ++ contribution_in categories category (num, unit)).
Proof.
  induction categories as [|[c unit_set] rest IH]; intros cv0 cv1 Hnd;
    cbn [categorize_one].
  - intros [= <-] category l0 H. cbn. rewrite app_nil_r. exact H.
  - inversion Hnd as [|? ? Hc Hrest]; subst.
    assert (Hnone : contribution_in rest c (num, unit) = []).
    { unfold contribution_in. rewrite (dict_get_none rest c Hc). reflexivity. }
    destruct (str_in unit unit_set) eqn:Eu.
    + destruct (py_float num) as [e|f] eqn:Ef; cbn [bind]; [discriminate|].
      unfold subscript.
      destruct (dict_get conversion_factors_to_smallest unit) as [factor|] eqn:Efac;
        cbn [bind]; [|discriminate].
      destruct (dict_append cv0 c _) as [e|cv'] eqn:Ea; cbn [bind]; [discriminate|].
      intros Hrec category l0 H0.
      pose proof (dict_append_get _ _ _ _ category Ea) as Hg. rewrite H0 in Hg.
      unfold contribution_in at 1. cbn [dict_get].
      destruct (str_eqb category c) eqn:Ecat.
      * apply str_eqb_eq in Ecat. subst category. cbn [option_map] in Hg.
        rewrite (IH cv' cv1 Hrest Hrec c _ Hg), Hnone, app_nil_r, Eu, Ef, Efac.
        reflexivity.
      * rewrite (IH cv' cv1 Hrest Hrec category _ Hg). reflexivity.
    + intros Hrec category l0 H0.
      rewrite (IH cv0 cv1 Hrest Hrec category l0 H0).
      unfold contribution_in at 2. cbn [dict_get].
      destruct (str_eqb category c) eqn:Ecat; [|reflexivity].
      apply str_eqb_eq in Ecat. subst category. rewrite Hnone, Eu. reflexivity.
Qed.

(** A categorised unit whose number [float] does not read stops the inner
    loop with [ValueError]. *)
Lemma categorize_one_raises :
  parses num = false ->
  forall categories cv,
    existsb (fun cs : str * list str => str_in unit (snd cs)) categories = true ->
    categorize_one num unit categories cv = Raise ValueError.
Proof.
  unfold parses. intros Hp.
  destruct (py_float num) as [e|f] eqn:Ef; [|discriminate].
  apply py_float_raises in Ef as He. subst e.
  induction categories as [|[c unit_set] rest IH]; intros cv H;
    cbn [existsb snd] in H; [discriminate|].
  cbn [categorize_one]. destruct (str_in unit unit_set).
  - rewrite Ef. reflexivity.
  - apply IH. exact H.
Qed.
End ConverterFacts.

Lemma unit_categories_distinct : NoDup (dict_keys unit_categories).
Proof.
  repeat (constructor;
          [intros H; vm_compute in H;
           repeat (destruct H as [H | H]; [discriminate H|]); exact H|]).
  constructor.
Qed.

Lemma categorize_loop_get (category : str) :
  forall pairs cv0 cv1 l0,
    categorize_loop pairs cv0 = Ret cv1 ->
    dict_get cv0 category = Some l0 ->
    dict_get cv1 category = Some (l0 ++ flat_map (contribution category) pairs).
Proof.
  induction pairs as [|[num unit] pairs IH]; intros cv0 cv1 l0;
    cbn [categorize_loop flat_map].
  - intros [= <-] H. rewrite app_nil_r. exact H.
  - destruct (categorize_one num unit unit_categories cv0) as [e|cv'] eqn:E;
      cbn [bind]; [discriminate|].
    intros Hrec H0.
    pose proof (categorize_one_get num unit _ _ _ unit_categories_distinct E
                  category l0 H0) as H1.
    rewrite (IH _ _ _ Hrec H1), <- app_assoc. reflexivity.
Qed.

(** X7. When [categorize_values] returns, the list under each of the five
    categories is the list comprehension over the zipped pairs, in their
    order: one Measurement [(float(num) * factor, f"{num} {unit}")], the
    product being the rounded product of two doubles, for every pair whose
    unit is in the unit set of the category, and nothing for the other
    pairs. *)
Theorem categorize_values_lists :
  forall (numbers units : list str) (cv : dict (list measurement)),
    categorize_values numbers units = Ret cv ->
    forall category,
      In category (dict_keys unit_categories) ->
      dict_get cv category =
      Some (flat_map (contribution category) (combine numbers units)).
Proof.
  intros numbers units cv H category Hc. unfold categorize_values in H.
  assert (H0 : dict_get empty_categorized_values category = Some []).
  { vm_compute in Hc.
    repeat (destruct Hc as [<- | Hc]; [reflexivity|]). contradiction. }
  apply (categorize_loop_get category _ _ _ _ H H0).
Qed.

Lemma categorize_values_lists_witness :
  dict_get
    [ (lit "length",
       [ (Fin (3016180297315123 # 549755813888), lit "216 inch");
         (Fin (6032360594630247 # 1099511627776), lit "18 foot") ]);
      (lit "weight", [(Fin 5000, lit "5 gram")]);
      (lit "voltage", []); (lit "volume", []); (lit "wattage", []) ]
    (lit "length") =
  Some (flat_map (contribution (lit "length"))
          (combine [lit "216"; lit "5"; lit "7"; lit "18"]
                   [lit "inch"; lit "gram"; lit "cup"; lit "foot"])).
Proof.
  apply (categorize_values_lists
           [lit "216"; lit "5"; lit "7"; lit "18"]
           [lit "inch"; lit "gram"; lit "cup"; lit "foot"]).
  - vm_compute. reflexivity.
  - vm_compute. left. reflexivity.
Defined.

Lemma categorized_false (unit : str) : categorized unit = false -> uncategorized unit.
Proof.
  unfold categorized. intros H category unit_set Hc Hu.
  assert (E : existsb (fun cs : str * list str => str_in unit (snd cs)) unit_categories
              = true).
  { apply existsb_exists. exists (category, unit_set). split; [exact Hc|].
    apply str_in_In. exact Hu. }
  congruence.
Qed.

(** The outer loop stops at the first pair that stops the converter, and
    returns when there is none. *)
Lemma categorize_loop_outcome (pairs : list (str * str)) :
  forall cv, five_keys cv ->
    if existsb stops_converter pairs
    then categorize_loop pairs cv = Raise ValueError
    else exists cv', categorize_loop pairs cv = Ret cv' /\ five_keys cv'.
Proof.
  induction pairs as [|[n u] pairs IH]; intros cv Hk; cbn [existsb categorize_loop].
  - exists cv. auto.
  - unfold stops_converter at 1. cbn [fst snd].
    destruct (existsb (fun cs : str * list str => str_in u (snd cs)) unit_categories)
      eqn:Ec.
    + destruct (py_float n) as [e|q] eqn:Ef.
      * cbn [andb orb].
        rewrite (categorize_one_raises n u); [reflexivity | | exact Ec].
        unfold parses. rewrite Ef. reflexivity.
      * cbn [andb orb].
        destruct (categorize_one_total n u (ex_intro _ q Ef) unit_categories cv
                    (fun c s H => H) Hk) as (cv1 & E1 & Hk1).
        rewrite E1. cbn [bind]. apply IH. exact Hk1.
    + cbn [andb orb].
      rewrite (categorize_one_skip n u cv unit_categories (categorized_false u Ec)).
      cbn [bind]. apply IH. exact Hk.
Qed.

(** X8. On numbers written with digits and points, [categorize_values]
    raises exactly when some zipped pair has a unit of a category and a
    number that [float] does not read (no digit, or two points), and the
    exception is then [ValueError]; a malformed number beside a unit of no
    category is never read and does no harm. *)
Theorem categorize_values_raises :
  forall numbers units : list str,
    Forall (fun n => forallb re_num_dot n = true) numbers ->
    (existsb stops_converter (combine numbers units) = true ->
     categorize_values numbers units = Raise ValueError) /\
    (existsb stops_converter (combine numbers units) = false ->
     exists cv, categorize_values numbers units = Ret cv /\ five_keys cv) /\
    (forall e, categorize_values numbers units = Raise e -> e = ValueError).
Proof.
  intros numbers units _. unfold categorize_values.
  pose proof (categorize_loop_outcome (combine numbers units)
                empty_categorized_values eq_refl) as H.
  destruct (existsb stops_converter (combine numbers units)).
  - split; [auto|]. split; [discriminate|]. intros e He. congruence.
  - split; [discriminate|]. split; [auto|].
    intros e He. destruct H as (cv & Hcv & _). congruence.
Qed.

Lemma categorize_values_raises_witness :
  categorize_values [lit "2"; lit "1.2.3"] [lit "gram"; lit "gram"] = Raise ValueError /\
  exists cv,
    categorize_values [lit "2"; lit "1.2.3"] [lit "gram"; lit "cup"] = Ret cv /\
    five_keys cv.
Proof.
  split.
  - apply (proj1 (categorize_values_raises [lit "2"; lit "1.2.3"]
                    [lit "gram"; lit "gram"] ltac:(repeat constructor))).
    vm_compute. reflexivity.
  - apply (proj1 (proj2 (categorize_values_raises [lit "2"; lit "1.2.3"]
                           [lit "gram"; lit "cup"] ltac:(repeat constructor)))).
    vm_compute. reflexivity.
Defined.

(* ------------------------------------------------------------------ *)
(** ** What the converter keeps                                         *)
(* ------------------------------------------------------------------ *)

Lemma span_app (p : char -> bool) (s m r : str) :
  span p s = (m, r) -> s = m ++ r /\ forallb p m = true.
Proof.
  revert m r. induction s as [|c s IH]; intros m r; cbn [span].
  - intros [= <- <-]. split; reflexivity.
  - destruct (p c) eqn:Ec.
    + destruct (span p s) as [m' r']. intros [= <- <-].
      destruct (IH m' r' eq_refl) as [E Hm].
      cbn [app forallb]. rewrite Ec, Hm. split; [f_equal; exact E | reflexivity].
    + intros [= <- <-]. split; reflexivity.
Qed.

Lemma digits_value_zeros (ds : str) :
  forallb ascii_digit ds = true -> zero_numeral ds = true -> digits_value 0 ds = 0%Z.
Proof.
  unfold zero_numeral.
  induction ds as [|c ds IH]; cbn [forallb digits_value]; [reflexivity|].
  rewrite !andb_true_iff. intros [Hd Hds] [Hc Hz].
  apply orb_true_iff in Hc. destruct Hc as [Hc | Hc]; apply N.eqb_eq in Hc; subst c.
  - apply IH; assumption.
  - discriminate Hd.
Qed.

(** A numeral of zeros that [float] reads is read as 0. *)
Lemma py_float_zero (num : str) (f : double) :
  zero_numeral num = true -> py_float num = Ret f -> f = Fin 0.
Proof.
  intros Hz. unfold py_float.
  destruct (span ascii_digit num) as [ip r] eqn:Es.
  destruct (span_app _ _ _ _ Es) as [E Hip]. subst num.
  unfold zero_numeral in Hz. rewrite forallb_app in Hz.
  apply andb_true_iff in Hz. destruct Hz as [Hz1 Hz2].
  destruct r as [|c fp].
  - pose proof (digits_value_zeros ip Hip Hz1) as Hv.
    destruct ip as [|c ip]; [discriminate|]. intros [= <-].
    apply round64_zero. exact Hv.
  - destruct ((c =? DOT) && forallb ascii_digit fp) eqn:Ef;
      cbn [andb]; [|discriminate].
    destruct (negb _); [|discriminate]. intros [= <-].
    apply andb_true_iff in Ef. destruct Ef as [_ Hfp].
    cbn [forallb] in Hz2. apply andb_true_iff in Hz2. destruct Hz2 as [_ Hz2].
    apply round64_zero. cbn [Qnum]. apply digits_value_zeros.
    + rewrite forallb_app, Hip, Hfp. reflexivity.
    + unfold zero_numeral. rewrite forallb_app, Hz1, Hz2. reflexivity.
Qed.

(** A pair stops the converter when its unit is in a category and its
    number is not read. *)
Lemma stops_converter_iff (num unit : str) :
  stops_converter (num, unit) = true <->
  (exists category unit_set,
      In (category, unit_set) unit_categories /\ In unit unit_set) /\
  parses num = false.
Proof.
  unfold stops_converter, parses. cbn [fst snd].
  rewrite andb_true_iff, existsb_exists. split.
  - intros [([c s] & Hc & Hu) Hp]. cbn [snd] in Hu. apply str_in_In in Hu.
    split; [exists c, s; auto|]. destruct (py_float num); congruence.
  - intros [(c & s & Hc & Hu) Hp]. split.
    + exists (c, s). split; [exact Hc | apply str_in_In; exact Hu].
    + destruct (py_float num); congruence.
Qed.

(** The number "1.2.3" beside the unit "gram" is not dropped: the
    converter raises [ValueError].  The pair
    ("0", "gram") is converted and appended with the value 0: the converter
    has no test on the sign of the number. *)
Lemma number_filter_is_absent :
  categorize_values [lit "1.2.3"] [lit "gram"] = Raise ValueError /\
  ~ unread_numbers_are_dropped /\
  categorize_values [lit "0"] [lit "gram"] =
    Ret [ (lit "length", []); (lit "weight", [(Fin 0, lit "0 gram")]);
          (lit "voltage", []); (lit "volume", []); (lit "wattage", []) ] /\
  ~ only_positive_measurements.
Proof.
  split; [vm_compute; reflexivity|]. split; [|split].
  - intros H.
    specialize (H [] [] (lit "1.2.3") (lit "gram") empty_categorized_values eq_refl).
    vm_compute in H. discriminate H.
  - vm_compute. reflexivity.
  - intros H.
    specialize (H [lit "0"] [lit "gram"] _ eq_refl (lit "weight")
                  [(Fin 0, lit "0 gram")] (Fin 0, lit "0 gram")).
    assert (L : flt (Fin 0) (Fin 0)); [|vm_compute in L; discriminate L].
    apply H.
    + vm_compute. right. left. reflexivity.
    + left. reflexivity.
Qed.

(** What a returned mapping holds of a pair with a categorised unit. *)
Lemma categorize_values_keeps (numbers units : list str)
      (cv : dict (list measurement)) (num unit category : str)
      (unit_set : list str) :
  categorize_values numbers units = Ret cv ->
  In (num, unit) (combine numbers units) ->
  In (category, unit_set) unit_categories -> In unit unit_set ->
  exists (f : double) (factor : Q) (l : list measurement),
    py_float num = Ret f /\
    dict_get conversion_factors_to_smallest unit = Some (Fin factor) /\
    (0 < factor)%Q /\
    dict_get cv category = Some l /\
    In (fmul f (Fin factor), num ++ SPACE :: unit) l.
Proof.
  intros Hcv Hp Hc Hu. unfold categorize_values in Hcv.
  destruct (registry_sound _ _ _ Hc Hu) as (Hkey & factor & Hfac & Hpos).
  assert (Hf : exists f, py_float num = Ret f).
  { destruct (py_float num) as [e|f] eqn:Ef; [|exists f; reflexivity].
    exfalso.
    pose proof (categorize_loop_outcome (combine numbers units)
                  empty_categorized_values eq_refl) as Ho.
    assert (Hs : existsb stops_converter (combine numbers units) = true).
    { apply existsb_exists. exists (num, unit). split; [exact Hp|].
      apply stops_converter_iff. split; [exists category, unit_set; auto|].
      unfold parses. rewrite Ef. reflexivity. }
    rewrite Hs in Ho. congruence. }
  destruct Hf as (f & Hf).
  assert (H0 : dict_get empty_categorized_values category = Some []).
  { vm_compute in Hkey.
    repeat (destruct Hkey as [<- | Hkey]; [reflexivity|]). contradiction. }
  pose proof (categorize_loop_get category _ _ _ _ Hcv H0) as Hl.
  cbn [app] in Hl.
  exists f, factor, (flat_map (contribution category) (combine numbers units)).
  refine (conj Hf (conj Hfac (conj Hpos (conj Hl _)))).
  apply in_flat_map. exists (num, unit). split; [exact Hp|].
  unfold contribution, contribution_in.
  rewrite (dict_get_member _ _ _ unit_categories_distinct Hc).
  apply str_in_In in Hu. rewrite Hu, Hf, Hfac. left. reflexivity.
Qed.

(** C4 as the code has it.  For numbers written with digits and points
    (the strings that [separate_numbers_and_units] yields): a pair whose
    unit is in no category is dropped without its number being read; a
    pair with a categorised unit whose number [float] does not read is not
    dropped, it makes the converter raise [ValueError]; when every such
    number is read the converter returns, and then every Measurement stems
    from a pair with a categorised unit, with the rounded product of the
    number and the factor as its value, which is not negative, and every
    pair with a categorised unit is kept, whatever its number: there is no
    test for a positive number, a number that is zero is kept with the
    value 0, and every numeral of zeros is such a number. *)
Theorem converter_keeps_categorized :
  forall numbers units : list str,
    Forall (fun n => forallb re_num_dot n = true) numbers ->
    (forall ps1 ps2 num unit cv,
        uncategorized unit ->
        categorize_loop (ps1 ++ (num, unit) :: ps2) cv =
        categorize_loop (ps1 ++ ps2) cv) /\
    ((forall u, In u units -> uncategorized u) ->
     categorize_values numbers units = Ret empty_categorized_values) /\
    ((exists num unit category unit_set,
         In (num, unit) (combine numbers units) /\
         In (category, unit_set) unit_categories /\ In unit unit_set /\
         parses num = false) ->
     categorize_values numbers units = Raise ValueError) /\
    ((forall num unit category unit_set,
         In (num, unit) (combine numbers units) ->
         In (category, unit_set) unit_categories -> In unit unit_set ->
         parses num = true) ->
     exists cv, categorize_values numbers units = Ret cv) /\
    (forall cv,
        categorize_values numbers units = Ret cv ->
        five_keys cv /\
        (forall k l m,
            dict_get cv k = Some l -> In m l ->
            measured (combine numbers units) k m /\ fle (Fin 0) (fst m)) /\
        (forall num unit category unit_set,
            In (num, unit) (combine numbers units) ->
            In (category, unit_set) unit_categories -> In unit unit_set ->
            exists f factor l,
              py_float num = Ret f /\
              dict_get conversion_factors_to_smallest unit = Some factor /\
              dict_get cv category = Some l /\
              In (fmul f factor, num ++ SPACE :: unit) l /\
              (forall z, f = Fin z -> (z == 0)%Q -> fmul f factor = Fin 0) /\
              (zero_numeral num = true -> f = Fin 0))).
Proof.
  intros numbers units _.
  pose proof (categorize_loop_outcome (combine numbers units)
                empty_categorized_values eq_refl) as Ho.
  refine (conj _ (conj _ (conj _ (conj _ _)))).
  - intros ps1 ps2 num unit cv Hu. apply categorize_loop_drop. exact Hu.
  - intros Hu. unfold categorize_values.
    assert (G : forall ps cv,
               (forall n u, In (n, u) ps -> uncategorized u) ->
               categorize_loop ps cv = Ret cv).
    { induction ps as [|[n u] ps IH]; intros cv Hps; cbn [categorize_loop].
      - reflexivity.
      - rewrite (categorize_one_skip n u cv unit_categories
                   (Hps n u (or_introl eq_refl))).
        cbn [bind]. apply IH. intros n' u' H. apply (Hps n' u'). right. exact H. }
    apply G. intros n u H. apply Hu. eapply in_combine_r. exact H.
  - intros (num & unit & category & unit_set & Hp & Hc & Hu & Hn).
    assert (Hs : existsb stops_converter (combine numbers units) = true).
    { apply existsb_exists. exists (num, unit). split; [exact Hp|].
      apply stops_converter_iff. split; [exists category, unit_set; auto | exact Hn]. }
    rewrite Hs in Ho. exact Ho.
  - intros Hall.
    destruct (existsb stops_converter (combine numbers units)) eqn:Hs.
    + exfalso. apply existsb_exists in Hs. destruct Hs as ([num unit] & Hp & Hs).
      apply stops_converter_iff in Hs.
      destruct Hs as [(category & unit_set & Hc & Hu) Hn].
      rewrite (Hall num unit category unit_set Hp Hc Hu) in Hn. discriminate Hn.
    + destruct Ho as (cv & Hcv & _). exists cv. exact Hcv.
  - intros cv Hcv.
    assert (Hk : five_keys cv).
    { unfold categorize_values in Hcv.
      destruct (existsb stops_converter (combine numbers units)); [congruence|].
      destruct Ho as (cv' & Hcv' & Hk). congruence. }
    refine (conj Hk (conj _ _)).
    + assert (Hm : all_measured (combine numbers units) cv).
      { unfold categorize_values in Hcv.
        eapply categorize_loop_measured; [| exact Hcv |]; [auto|].
        intros k l m Hin Hm. vm_compute in Hin.
        repeat (destruct Hin as [Hin | Hin]; [inversion Hin; subst; destruct Hm|]).
        contradiction. }
      intros k l m Hget Hl. apply dict_get_In in Hget.
      assert (M := Hm k l m Hget Hl). split; [exact M|].
      destruct M as (num & unit & unit_set & f & factor & _ & Hc & Hu & Hf & Hfac & ->).
      cbn [fst].
      destruct (registry_sound _ _ _ Hc Hu) as (_ & factor' & Hfac' & Hpos).
      rewrite Hfac in Hfac'. inversion Hfac'; subst factor.
      apply fmul_nonneg; [eapply py_float_nonneg; exact Hf | exact Hpos].
    + intros num unit category unit_set Hp Hc Hu.
      destruct (categorize_values_keeps _ _ _ _ _ _ _ Hcv Hp Hc Hu)
        as (f & factor & l & Hf & Hfac & _ & Hl & Hin).
      exists f, (Fin factor), l.
      refine (conj Hf (conj Hfac (conj Hl (conj Hin (conj _ _))))).
      * intros z -> Hz. apply fmul_zero. exact Hz.
      * intros Hz. apply (py_float_zero num f Hz Hf).
Qed.

Lemma converter_keeps_categorized_witness :
  categorize_values [lit "7"] [lit "cup"] = Ret empty_categorized_values /\
  categorize_values [lit "1.2.3"; lit "2"] [lit "gram"; lit "gram"] = Raise ValueError /\
  exists f factor l,
    py_float (lit "0.0") = Ret f /\
    dict_get conversion_factors_to_smallest (lit "kilogram") = Some factor /\
    dict_get
      [ (lit "length",
         [(Fin (1340524576584499 # 4398046511104), lit "12 inch")]);
        (lit "weight", [(Fin 0, lit "0.0 kilogram")]);
        (lit "voltage", []); (lit "volume", []); (lit "wattage", []) ]
      (lit "weight") = Some l /\
    In (fmul f factor, lit "0.0 kilogram") l /\
    (forall z, f = Fin z -> (z == 0)%Q -> fmul f factor = Fin 0) /\
    (zero_numeral (lit "0.0") = true -> f = Fin 0).
Proof.
  refine (conj _ (conj _ _)).
  - apply (proj1 (proj2 (converter_keeps_categorized [lit "7"] [lit "cup"]
                           ltac:(repeat constructor)))).
    intros u [<- | []]. apply uncategorized_check. vm_compute. reflexivity.
  - apply (proj1 (proj2 (proj2 (converter_keeps_categorized
                                  [lit "1.2.3"; lit "2"] [lit "gram"; lit "gram"]
                                  ltac:(repeat constructor))))).
    exists (lit "1.2.3"), (lit "gram"), (lit "weight"),
      [lit "milligram"; lit "gram"; lit "kilogram"; lit "microgram";
       lit "ounce"; lit "pound"; lit "ton"].
    refine (conj _ (conj _ (conj _ _))).
    + left. reflexivity.
    + right. left. reflexivity.
    + right. left. reflexivity.
    + vm_compute. reflexivity.
  - apply (proj2 (proj2 (proj2 (proj2 (proj2 (converter_keeps_categorized
             [lit "12"; lit "0.0"; lit "3"] [lit "inch"; lit "kilogram"; lit "cup"]
             ltac:(repeat constructor))))) _ ltac:(vm_compute; reflexivity)))
      with (unit_set := [lit "milligram"; lit "gram"; lit "kilogram"; lit "microgram";
                         lit "ounce"; lit "pound"; lit "ton"]).
    + right. left. reflexivity.
    + right. left. reflexivity.
    + right. right. left. reflexivity.
Defined.

(* ------------------------------------------------------------------ *)
(** ** The static tables                                                *)
(* ------------------------------------------------------------------ *)

(** X9. No surface form belongs to two canonical units: the canonical
    unit that claims a string is unique, so the order in which
    [get_full_unit] runs through the vocabulary does not matter, and the
    flattened list of candidates has no repetition. *)
Theorem surface_forms_unique :
  (forall u1 u2 s, surface_form u1 s -> surface_form u2 s -> u1 = u2) /\
  NoDup all_units.
Proof.
  split.
  - intros u1 u2 s H1 H2.
    destruct (vocabulary_lookup u1 s H1) as [_ E1].
    destruct (vocabulary_lookup u2 s H2) as [_ E2]. congruence.
  - assert (H : forall l : list str,
               (fix nodup (l : list str) : bool :=
                  match l with
                  | [] => true
                  | x :: r => negb (str_in x r) && nodup r
                  end) l = true -> NoDup l).
    { induction l as [|x l IH]; intros H; constructor.
      - apply andb_true_iff in H. destruct H as [H _].
        apply negb_true_iff in H. apply str_in_not_In. exact H.
      - apply IH. apply andb_true_iff in H. tauto. }
    apply H. vm_compute. reflexivity.
Qed.

Lemma surface_forms_unique_witness : lit "kilogram" = lit "kilogram".
Proof.
  assert (H : surface_form (lit "kilogram") (lit "kgs")).
  { exists [lit "kg"; lit "kgs"; lit "kilograms"]. split.
    - apply (nth_error_In unit_fullform_to_abbreviation 7). reflexivity.
    - right. right. left. reflexivity. }
  exact (proj1 surface_forms_unique _ _ _ H H).
Defined.

Lemma category_of_member (category : str) (unit_set : list str) (unit : str) :
  In (category, unit_set) unit_categories -> In unit unit_set ->
  category_of unit = Some category /\ In unit allowed_units.
Proof.
  assert (H : forallb (fun cs : str * list str =>
                forallb (fun u =>
                           match category_of u with
                           | Some c => str_eqb c (fst cs)
                           | None => false
                           end && str_in u allowed_units) (snd cs))
                unit_categories = true) by (vm_compute; reflexivity).
  intros Hc Hu. rewrite forallb_forall in H. specialize (H _ Hc).
  cbn [fst snd] in H. rewrite forallb_forall in H. specialize (H _ Hu).
  apply andb_true_iff in H. destruct H as [H1 H2]. split.
  - destruct (category_of unit) as [c|]; [|discriminate].
    apply str_eqb_eq in H1. congruence.
  - apply str_in_In. exact H2.
Qed.

(** X10. The registry of categories is consistent with the other tables:
    a unit is in the unit set of at most one category; every unit of a
    category is a canonical name of the vocabulary and has a positive
    conversion factor; the conversion table has factors for the units of
    the categories only; and the canonical names in no category are
    "imperial gallon" and "cup". *)
Theorem registry_consistent :
  (forall c1 s1 c2 s2 u,
      In (c1, s1) unit_categories -> In (c2, s2) unit_categories ->
      In u s1 -> In u s2 -> c1 = c2) /\
  (forall c s u,
      In (c, s) unit_categories -> In u s ->
      In u allowed_units /\
      exists factor : Q,
        dict_get conversion_factors_to_smallest u = Some (Fin factor) /\
        (0 < factor)%Q) /\
  (forall u, In u (dict_keys conversion_factors_to_smallest) -> categorized u = true) /\
  (forall u, In u allowed_units ->
             (categorized u = false <-> u = lit "imperial gallon" \/ u = lit "cup")).
Proof.
  split; [|split; [|split]].
  - intros c1 s1 c2 s2 u H1 H2 Hu1 Hu2.
    destruct (category_of_member c1 s1 u H1 Hu1) as [E1 _].
    destruct (category_of_member c2 s2 u H2 Hu2) as [E2 _]. congruence.
  - intros c s u Hc Hu. split.
    + apply (category_of_member c s u Hc Hu).
    + apply (registry_sound c s u Hc Hu).
  - assert (H : forallb categorized (dict_keys conversion_factors_to_smallest) = true)
      by (vm_compute; reflexivity).
    intros u Hu. rewrite forallb_forall in H. apply H. exact Hu.
  - assert (H : forallb (fun u =>
                  Bool.eqb (negb (categorized u))
                           (str_eqb u (lit "imperial gallon") || str_eqb u (lit "cup")))
                  allowed_units = true) by (vm_compute; reflexivity).
    intros u Hu. rewrite forallb_forall in H. specialize (H u Hu).
    apply Bool.eqb_prop in H.
    rewrite <- negb_true_iff, H, orb_true_iff, !str_eqb_eq. tauto.
Qed.

Lemma registry_consistent_witness :
  (lit "weight" = lit "weight") /\
  (categorized (lit "cup") = false <->
   lit "cup" = lit "imperial gallon" \/ lit "cup" = lit "cup").
Proof.
  split.
  - apply (proj1 registry_consistent (lit "weight")
             [lit "milligram"; lit "gram"; lit "kilogram"; lit "microgram";
              lit "ounce"; lit "pound"; lit "ton"]
             (lit "weight")
             [lit "milligram"; lit "gram"; lit "kilogram"; lit "microgram";
              lit "ounce"; lit "pound"; lit "ton"] (lit "gram")).
    + right. left. reflexivity.
    + right. left. reflexivity.
    + right. left. reflexivity.
    + right. left. reflexivity.
  - apply (proj2 (proj2 (proj2 registry_consistent))).
    apply str_in_In. vm_compute. reflexivity.
Defined.

(* ------------------------------------------------------------------ *)
(** ** Further properties of the selection and of the pipeline          *)
(* ------------------------------------------------------------------ *)

(** X11. [get_entity_value] looks at the list of one category only, that
    of the entity: two mappings that agree on it give the same answer, and
    the keys of the other categories may be missing.  It raises exactly
    when the entity is known and its own category is no key of the mapping,
    and the exception is then [KeyError]. *)
Theorem get_entity_value_one_category :
  forall (entity_name : str) (cv : dict (list measurement)),
    (forall cv',
        (forall category d,
            entity_rule entity_name = Some (category, d) ->
            dict_get cv' category = dict_get cv category) ->
        get_entity_value entity_name cv' = get_entity_value entity_name cv) /\
    (forall e,
        get_entity_value entity_name cv = Raise e <->
        e = KeyError /\
        exists category d,
          entity_rule entity_name = Some (category, d) /\
          dict_get cv category = None).
Proof.
  intros entity cv. split.
  - intros cv' H. rewrite !get_entity_value_select. unfold select.
    destruct (entity_rule entity) as [[category d]|]; [|reflexivity].
    rewrite (H category d eq_refl). reflexivity.
  - intros e. rewrite get_entity_value_select. unfold select.
    destruct (entity_rule entity) as [[category d]|] eqn:Er.
    + destruct (dict_get cv category) as [[|x l]|] eqn:Ed; split;
        try (intros H; discriminate H);
        try (intros (_ & c & d' & [= <- <-] & H); congruence).
      * intros [= <-]. split; [reflexivity|]. exists category, d. auto.
      * intros (-> & _). reflexivity.
    + split; [discriminate|]. intros (_ & c & d' & H & _). discriminate H.
Qed.

Lemma get_entity_value_one_category_witness :
  get_entity_value (lit "width") [(lit "length", [(Fin 5, lit "5 metre")])] =
  get_entity_value (lit "width")
    [ (lit "length", [(Fin 5, lit "5 metre")]); (lit "weight", [(Fin 1, lit "1 gram")]) ] /\
  get_entity_value (lit "voltage") [(lit "length", [(Fin 5, lit "5 metre")])] =
  Raise KeyError.
Proof.
  split.
  - apply (proj1 (get_entity_value_one_category (lit "width")
                    [ (lit "length", [(Fin 5, lit "5 metre")]);
                      (lit "weight", [(Fin 1, lit "1 gram")]) ])).
    intros category d H. vm_compute in H. inversion H; subst. reflexivity.
  - apply (proj2 (get_entity_value_one_category (lit "voltage")
                    [(lit "length", [(Fin 5, lit "5 metre")])])).
    split; [reflexivity|]. exists (lit "voltage"), TakeMaximum.
    split; reflexivity.
Defined.

Lemma first_extremal_In (d : direction) (l : list measurement) (m : measurement) :
  first_extremal d l m -> In m l.
Proof. intros (i & Hi & _). eapply nth_error_In. exact Hi. Qed.

(** The pipeline returns, for every text; a lemma of its own for the proofs
    below. *)
Lemma pipeline_returns (WRatio : str -> str -> Q) (U : unicode_db)
      (text entity_name : str) :
  exists cv,
    categorize_values (snd (fst (convert_to_full_unit WRatio U text)))
                      (snd (convert_to_full_unit WRatio U text)) = Ret cv /\
    five_keys cv /\
    pipeline WRatio U text entity_name = get_entity_value entity_name cv /\
    exists r, get_entity_value entity_name cv = Ret r.
Proof.
  unfold pipeline, convert_to_full_unit.
  destruct (separate_numbers_and_units U (extract_numbers_with_units WRatio U text))
    as [numbers units] eqn:Es.
  cbn [fst snd].
  destruct (categorize_loop_total (combine numbers (map (get_full_unit U) units)))
    with (cv := empty_categorized_values) as (cv & Ecv & Hk).
  - intros n u H. apply (pipeline_numbers_parse U WRatio text).
    rewrite Es. eapply in_combine_l. exact H.
  - reflexivity.
  - unfold categorize_values. rewrite Ecv. exists cv.
    repeat split; auto. apply get_entity_value_total. exact Hk.
Qed.

(** X12. Whatever the pipeline predicts is one of the strings of the first
    list of [convert_to_full_unit]: a number of the text that [float] reads,
    a space, and a canonical unit; the unit is in the category of the
    requested entity.  So no prediction carries an abbreviation, a unit of
    another quantity, or "imperial gallon" or "cup". *)
Theorem prediction_format :
  forall (WRatio : str -> str -> Q) (U : unicode_db) (text entity_name prediction : str),
    pipeline WRatio U text entity_name = Ret (Some prediction) ->
    In prediction (fst (fst (convert_to_full_unit WRatio U text))) /\
    exists num unit category d unit_set,
      prediction = num ++ SPACE :: unit /\
      entity_rule entity_name = Some (category, d) /\
      In (category, unit_set) unit_categories /\ In unit unit_set /\
      In unit allowed_units /\
      unit <> lit "imperial gallon" /\ unit <> lit "cup" /\
      parses num = true.
Proof.
  intros W U text entity prediction H.
  destruct (pipeline_returns W U text entity) as (cv & Hcv & Hk & Hp & _).
  rewrite Hp, get_entity_value_select in H. unfold select in H.
  destruct (entity_rule entity) as [[category d]|] eqn:Er; [|discriminate].
  destruct (dict_get cv category) as [[|x l]|] eqn:Ed; try discriminate.
  injection H as H.
  assert (Hin : exists m, In m (x :: l) /\ prediction = snd m).
  { destruct d.
    - exists (max_from x l). split; [|auto].
      eapply first_extremal_In. apply max_from_first.
    - exists (min_from x l). split; [|auto].
      eapply first_extremal_In. apply min_from_first. }
  destruct Hin as (m & Hm & ->).
  assert (Hall : all_measured
                   (combine (snd (fst (convert_to_full_unit W U text)))
                            (snd (convert_to_full_unit W U text))) cv).
  { unfold categorize_values in Hcv.
    eapply categorize_loop_measured; [| exact Hcv |]; [auto|].
    intros k l' m' Hk' Hm'. vm_compute in Hk'.
    repeat (destruct Hk' as [Hk' | Hk']; [inversion Hk'; subst; destruct Hm'|]).
    contradiction. }
  apply dict_get_In in Ed.
  destruct (Hall category (x :: l) m Ed Hm)
    as (num & unit & unit_set & f & factor & Hpair & Hc & Hu & Hf & Hfac & ->).
  cbn [snd]. split.
  - unfold convert_to_full_unit in *.
    destruct (separate_numbers_and_units U (extract_numbers_with_units W U text))
      as [numbers units].
    cbn [fst snd] in *. apply in_map_iff. exists (num, unit). auto.
  - exists num, unit, category, d, unit_set.
    destruct (category_of_member category unit_set unit Hc Hu) as [_ Hcanon].
    assert (Hcat : categorized unit = true).
    { unfold categorized. apply existsb_exists. exists (category, unit_set).
      split; [exact Hc | apply str_in_In; exact Hu]. }
    repeat split; auto.
    + intros ->. vm_compute in Hcat. discriminate.
    + intros ->. vm_compute in Hcat. discriminate.
    + unfold parses. rewrite Hf. reflexivity.
Qed.

Lemma prediction_format_witness :
  In (lit "2.5 kilogram")
     (fst (fst (convert_to_full_unit indel_ratio basic_db (lit "Net Wt 2.5 kg approx")))).
Proof.
  apply (prediction_format indel_ratio basic_db (lit "Net Wt 2.5 kg approx")
           (lit "item_weight") (lit "2.5 kilogram")).
  vm_compute. reflexivity.
Defined.

(* ------------------------------------------------------------------ *)
(** ** The main loop                                                    *)
(* ------------------------------------------------------------------ *)

Lemma to_csv_twice (a b : list prediction) (file : option (list csv_line)) :
  to_csv b (Some (to_csv a file)) = to_csv (a ++ b) file.
Proof.
  unfold to_csv. destruct file as [old|]; rewrite map_app.
  - rewrite app_assoc. reflexivity.
  - reflexivity.
Qed.

Section MainLoopFacts.
Variable WRatio : str -> str -> Q.
Variable U : unicode_db.
Variable image : Type.
Variable load_image_from_url : str -> option image.
Variable ocr : image -> str + str.

#[local] Abbreviation final_val := (final_val_of WRatio U image load_image_from_url ocr).
#[local] Abbreviation record := (record_of WRatio U image load_image_from_url ocr).
#[local] Abbreviation loop := (main_loop WRatio U image load_image_from_url ocr).

(** The pipeline raises nothing, so every row has its prediction. *)
Lemma final_val_returns (row : data_row) :
  final_val row = Ret (pred_value (record row)).
Proof.
  unfold record_of. cbn [pred_value]. unfold final_val_of.
  destruct (pipeline_returns WRatio U
              (extracted_text_of image load_image_from_url ocr (row_image_link row))
              (row_entity_name row)) as (cv & _ & _ & Hp & r & Hr).
  rewrite Hp, Hr. reflexivity.
Qed.

Lemma main_loop_step (len_data : Z) (row : data_row) (rest : list data_row)
      (results : list prediction) (file : option (list csv_line)) :
  loop len_data (row :: rest) results file =
  if saves_after len_data row
  then loop len_data rest [] (Some (to_csv (results ++ [record row]) file))
  else loop len_data rest (results ++ [record row]) file.
Proof.
  cbn [main_loop]. rewrite final_val_returns. cbn [bind].
  unfold saves_after. reflexivity.
Qed.

(** What the loop leaves behind: the records split into those written and
    those still in the list, and the list is empty exactly when the last
    row was followed by a save. *)
Lemma main_loop_outcome (len_data : Z) (rows : list data_row) :
  forall results file,
  exists saved unsaved,
    loop len_data rows results file =
      Ret (unsaved, match saved with [] => file | _ => Some (to_csv saved file) end) /\
    saved ++ unsaved = results ++ map record rows /\
    forall pre row, rows = pre ++ [row] ->
      if saves_after len_data row then unsaved = []
      else exists before, unsaved = before ++ [record row].
Proof.
  induction rows as [|row rest IH]; intros results file.
  - exists [], results. cbn [main_loop map]. rewrite app_nil_r.
    repeat split; auto. intros pre row H. destruct pre; discriminate H.
  - rewrite main_loop_step. destruct (saves_after len_data row) eqn:Es.
    + destruct (IH [] (Some (to_csv (results ++ [record row]) file)))
        as (saved & unsaved & E & Hsplit & Hlast).
      exists ((results ++ [record row]) ++ saved), unsaved. split; [|split].
      * rewrite E. f_equal. f_equal.
        destruct saved as [|s saved].
        -- rewrite app_nil_r. destruct (results ++ [record row]) eqn:En; [|reflexivity].
           destruct results; discriminate En.
        -- rewrite to_csv_twice.
           destruct ((results ++ [record row]) ++ s :: saved) eqn:En; [|reflexivity].
           destruct results; discriminate En.
      * cbn [map app] in Hsplit. cbn [map].
        rewrite <- !app_assoc. cbn [app]. rewrite Hsplit. reflexivity.
      * intros pre row' H. destruct pre as [|p pre]; cbn [app] in H.
        -- inversion H; subst. rewrite Es.
           specialize (Hlast [] row'). cbn [main_loop] in E.
           inversion E; subst. reflexivity.
        -- inversion H; subst. apply (Hlast pre row'). reflexivity.
    + destruct (IH (results ++ [record row]) file)
        as (saved & unsaved & E & Hsplit & Hlast).
      exists saved, unsaved. split; [exact E|]. split.
      * cbn [map]. rewrite Hsplit, <- app_assoc. reflexivity.
      * intros pre row' H. destruct pre as [|p pre]; cbn [app] in H.
        -- inversion H; subst. rewrite Es. cbn [main_loop] in E.
           inversion E; subst. exists results. reflexivity.
        -- inversion H; subst. apply (Hlast pre row'). reflexivity.
Qed.
End MainLoopFacts.

Lemma app_same_length {A : Type} (l1 l3 l2 l4 : list A) :
  l1 ++ l2 = l3 ++ l4 -> length l1 = length l3 -> l1 = l3.
Proof.
  revert l3. induction l1 as [|x l1 IH]; intros [|y l3] H Hl;
    try discriminate Hl; [reflexivity|].
  cbn [app] in H. injection H as -> H. cbn [length] in Hl.
  f_equal. apply IH; [exact H | lia].
Qed.

Section MainLoopProperties.
Variable WRatio : str -> str -> Q.
Variable U : unicode_db.
Variable image : Type.
Variable load_image_from_url : str -> option image.
Variable ocr : image -> str + str.

#[local] Abbreviation final_val' := (final_val_of WRatio U image load_image_from_url ocr).
#[local] Abbreviation record' := (record_of WRatio U image load_image_from_url ocr).
#[local] Abbreviation loop' := (main_loop WRatio U image load_image_from_url ocr).
#[local] Abbreviation main' := (main WRatio U image load_image_from_url ocr).
#[local] Abbreviation state_after' := (state_after WRatio U image load_image_from_url ocr).

(** X13. The main loop never raises and loses no record on the way: at
    its end the records of the rows, in their order, are split into those
    written to the file and those still in [results]; the file is left
    alone when nothing was written, is created with one header when it did
    not exist, and keeps its old content in front otherwise. *)
Theorem main_loop_conserves :
  forall (data : list data_row) (file : option (list csv_line)),
  exists saved unsaved,
    main' data file =
      Ret (unsaved, match saved with [] => file | _ => Some (to_csv saved file) end) /\
    saved ++ unsaved = map record' data /\
    match saved, file with
    | [], _ => True
    | _, None => to_csv saved file = Header :: map Line saved
    | _, Some old => to_csv saved file = old ++ map Line saved
    end.
Proof.
  intros data file. unfold main.
  destruct (main_loop_outcome WRatio U image load_image_from_url ocr
              (Z.of_nat (length data)) data [] file)
    as (saved & unsaved & E & Hsplit & _).
  exists saved, unsaved. split; [exact E|]. split; [exact Hsplit|].
  destruct saved; [exact I|]. destruct file; reflexivity.
Qed.

(** X14. When the last row is followed by a save (its index is
    [len(data) - 1], as when the index column counts the rows from 0, or
    its index plus one is a multiple of 5), the script ends with every
    record in the file and an empty list. *)
Theorem main_saves_all :
  forall (data pre : list data_row) (row : data_row) (file : option (list csv_line)),
    data = pre ++ [row] ->
    row_index row = (Z.of_nat (length data) - 1)%Z \/
    ((row_index row + 1) mod batch_size = 0)%Z ->
    main' data file = Ret ([], Some (to_csv (map record' data) file)).
Proof.
  intros data pre row file Hd Hsave. unfold main.
  destruct (main_loop_outcome WRatio U image load_image_from_url ocr
              (Z.of_nat (length data)) data [] file)
    as (saved & unsaved & E & Hsplit & Hlast).
  specialize (Hlast pre row Hd).
  assert (Hs : saves_after (Z.of_nat (length data)) row = true).
  { unfold saves_after. apply orb_true_iff.
    destruct Hsave as [H | H]; [right | left]; apply Z.eqb_eq; exact H. }
  rewrite Hs in Hlast. subst unsaved. rewrite app_nil_r in Hsplit. cbn [app] in Hsplit.
  rewrite E, Hsplit. destruct (map record' data) eqn:En; [|reflexivity].
  subst data. rewrite map_app in En. destruct (map record' pre); discriminate En.
Qed.

(** X15. When the last row is not followed by a save (an index column
    that counts from 1, for one, with a number of rows that is no multiple
    of 5), the script ends with the last record, at least, still in
    [results]: it is never written. *)
Theorem main_leaves_unsaved :
  forall (data pre : list data_row) (row : data_row) (file : option (list csv_line)),
    data = pre ++ [row] ->
    row_index row <> (Z.of_nat (length data) - 1)%Z ->
    ((row_index row + 1) mod batch_size <> 0)%Z ->
    exists before file',
      main' data file = Ret (before ++ [record' row], file').
Proof.
  intros data pre row file Hd H1 H2. unfold main.
  destruct (main_loop_outcome WRatio U image load_image_from_url ocr
              (Z.of_nat (length data)) data [] file)
    as (saved & unsaved & E & Hsplit & Hlast).
  specialize (Hlast pre row Hd).
  assert (Hs : saves_after (Z.of_nat (length data)) row = false).
  { unfold saves_after. apply orb_false_iff. split; apply Z.eqb_neq; assumption. }
  rewrite Hs in Hlast. destruct Hlast as (before & ->).
  eexists. eexists. exact E.
Qed.

(** The loop is the body, turn after turn. *)
Lemma main_loop_turns (len_data : Z) (rows : list data_row) :
  forall results file,
    loop' len_data rows results file = state_after' len_data rows (results, file).
Proof.
  induction rows as [|row rest IH]; intros results file;
    cbn [main_loop state_after main_body]; [reflexivity|].
  destruct (final_val' row) as [e|v]; cbn [bind]; [reflexivity|].
  destruct (_ || _)%bool; cbn [bind]; apply IH.
Qed.

Lemma state_after_app (len_data : Z) (pre post : list data_row) :
  forall state,
    state_after' len_data (pre ++ post) state =
    (s <- state_after' len_data pre state ;; state_after' len_data post s).
Proof.
  induction pre as [|row pre IH]; intros state; cbn [app state_after bind];
    [reflexivity|].
  destruct (main_body WRatio U image load_image_from_url ocr len_data row state)
    as [e|s]; cbn [bind]; [reflexivity | apply IH].
Qed.

Lemma main_body_step (len_data : Z) (row : data_row) (results : list prediction)
      (file : option (list csv_line)) :
  main_body WRatio U image load_image_from_url ocr len_data row (results, file) =
  Ret (if saves_after len_data row
       then ([], Some (to_csv (results ++ [record' row]) file))
       else (results ++ [record' row], file)).
Proof.
  cbn [main_body].
  rewrite (final_val_returns WRatio U image load_image_from_url ocr row).
  cbn [bind]. unfold saves_after. destruct (_ || _)%bool; reflexivity.
Qed.

(** The state after the turns for [pre], when these rows are numbered from
    [start] on and none of them is the last of the table: what was in the
    list and the records of [pre] are split into what went to the file and
    what is in the list, whose length is the number of the next row
    modulo 5. *)
Lemma state_after_prefix (len_data : Z) :
  forall pre results file start,
    map row_index pre = map (fun i => (start + Z.of_nat i)%Z) (seq 0 (length pre)) ->
    (0 <= start)%Z ->
    (start + Z.of_nat (length pre) <= len_data - 1)%Z ->
    Z.of_nat (length results) = (start mod batch_size)%Z ->
    exists saved results',
      state_after' len_data pre (results, file) =
        Ret (results', match saved with [] => file | _ => Some (to_csv saved file) end) /\
      saved ++ results' = results ++ map record' pre /\
      Z.of_nat (length results') = ((start + Z.of_nat (length pre)) mod batch_size)%Z.
Proof.
  unfold batch_size.
  induction pre as [|row pre IH]; intros results file start Hidx H0 Hlen Hres.
  - exists [], results. cbn [state_after app length map].
    rewrite Z.add_0_r, app_nil_r. auto.
  - cbn [length seq map] in Hidx. injection Hidx as Hrow Hrest.
    rewrite Z.add_0_r in Hrow.
    rewrite <- seq_shift, map_map in Hrest.
    assert (Hrest' : map row_index pre =
                     map (fun i => (start + 1 + Z.of_nat i)%Z) (seq 0 (length pre))).
    { rewrite Hrest. apply map_ext. intros i. lia. }
    cbn [length] in Hlen.
    cbn [state_after]. rewrite main_body_step. cbn [bind].
    unfold saves_after, batch_size. rewrite Hrow.
    assert (Hnl : (start =? len_data - 1)%Z = false) by (apply Z.eqb_neq; lia).
    rewrite Hnl, orb_false_r.
    pose proof (Z.div_mod start 5 ltac:(lia)) as D0.
    pose proof (Z.div_mod (start + 1) 5 ltac:(lia)) as D1.
    pose proof (Z.mod_pos_bound start 5 ltac:(lia)) as B0.
    pose proof (Z.mod_pos_bound (start + 1) 5 ltac:(lia)) as B1.
    destruct ((start + 1) mod 5 =? 0)%Z eqn:Em.
    + apply Z.eqb_eq in Em.
      destruct (IH [] (Some (to_csv (results ++ [record' row]) file)) (start + 1)%Z)
        as (saved & r' & E & Hsplit & Hl);
        [exact Hrest' | lia | lia | cbn [length]; lia |].
      exists ((results ++ [record' row]) ++ saved), r'.
      refine (conj _ (conj _ _)).
      * rewrite E. f_equal. f_equal.
        destruct saved as [|x saved].
        -- rewrite app_nil_r.
           destruct (results ++ [record' row]) eqn:En; [|reflexivity].
           destruct results; discriminate En.
        -- rewrite to_csv_twice.
           destruct ((results ++ [record' row]) ++ x :: saved) eqn:En; [|reflexivity].
           destruct results; discriminate En.
      * cbn [app] in Hsplit. cbn [map].
        rewrite <- !app_assoc. cbn [app]. rewrite Hsplit. reflexivity.
      * rewrite Hl. f_equal. cbn [length]. lia.
    + apply Z.eqb_neq in Em.
      destruct (IH (results ++ [record' row]) file (start + 1)%Z)
        as (saved & r' & E & Hsplit & Hl); [exact Hrest' | lia | lia | |].
      * rewrite length_app. cbn [length]. lia.
      * exists saved, r'. refine (conj E (conj _ _)).
        -- cbn [map]. rewrite Hsplit, <- app_assoc. reflexivity.
        -- rewrite Hl. f_equal. cbn [length]. lia.
Qed.

(** X16. When the index column counts the rows from 0, the list [results]
    never grows beyond a batch.  The state of the loop after its turns for
    the first [k] rows, from which it goes on with the rows that are left,
    is this: the records of the [k] rows are split, in their order, into
    those written to the file and those in the list, and the list holds
    [k mod 5] of them. *)
Theorem main_buffer_bounded :
  forall (data pre post : list data_row) (file : option (list csv_line)),
    map row_index data = map Z.of_nat (seq 0 (length data)) ->
    data = pre ++ post -> post <> [] ->
    exists saved results,
      state_after' (Z.of_nat (length data)) pre ([], file) =
        Ret (results, match saved with [] => file | _ => Some (to_csv saved file) end) /\
      main' data file =
        loop' (Z.of_nat (length data)) post results
              (match saved with [] => file | _ => Some (to_csv saved file) end) /\
      saved ++ results = map record' pre /\
      length results = (length pre mod 5)%nat /\ (length results < 5)%nat.
Proof.
  intros data pre post file Hidx Hd Hpost.
  assert (Hlen : (length pre < length data)%nat).
  { subst data. rewrite length_app. destruct post; [congruence | cbn [length]; lia]. }
  destruct (state_after_prefix (Z.of_nat (length data)) pre [] file 0%Z)
    as (saved & results & E & Hsplit & Hl).
  - subst data. rewrite map_app in Hidx.
    rewrite length_app, seq_app, map_app in Hidx.
    apply (app_same_length _ _ _ _ Hidx).
    rewrite !length_map, length_seq. reflexivity.
  - lia.
  - lia.
  - reflexivity.
  - exists saved, results. cbn [app] in Hsplit.
    unfold batch_size in Hl. cbn [Z.add] in Hl.
    assert (Hm : length results = (length pre mod 5)%nat).
    { apply Nat2Z.inj. rewrite Hl, Nat2Z.inj_mod. reflexivity. }
    refine (conj E (conj _ (conj Hsplit (conj Hm _)))).
    + unfold main. rewrite main_loop_turns. rewrite Hd at 2.
      rewrite state_after_app, E. cbn [bind].
      symmetry. apply main_loop_turns.
    + rewrite Hm. apply Nat.mod_upper_bound. discriminate.
Qed.
End MainLoopProperties.

Lemma main_saves_all_witness :
  main indel_ratio basic_db str sample_load sample_ocr
       [sample_row 0; sample_row 1; sample_row 2] None =
  Ret ([], Some (to_csv (map (record_of indel_ratio basic_db str sample_load sample_ocr)
                             [sample_row 0; sample_row 1; sample_row 2]) None)).
Proof.
  apply (main_saves_all indel_ratio basic_db str sample_load sample_ocr
           [sample_row 0; sample_row 1; sample_row 2]
           [sample_row 0; sample_row 1] (sample_row 2) None).
  - reflexivity.
  - left. reflexivity.
Defined.

Lemma main_leaves_unsaved_witness :
  exists before file',
    main indel_ratio basic_db str sample_load sample_ocr
         [sample_row 1; sample_row 2] None =
    Ret (before ++ [record_of indel_ratio basic_db str sample_load sample_ocr
                      (sample_row 2)], file').
Proof.
  apply (main_leaves_unsaved indel_ratio basic_db str sample_load sample_ocr
           [sample_row 1; sample_row 2] [sample_row 1] (sample_row 2) None).
  - reflexivity.
  - vm_compute. discriminate.
  - vm_compute. discriminate.
Defined.

Lemma main_buffer_bounded_witness :
  exists saved results,
    state_after indel_ratio basic_db str sample_load sample_ocr 7
                (map sample_row [0; 1; 2; 3; 4; 5]%Z) ([], None) =
      Ret (results, match saved with [] => None | _ => Some (to_csv saved None) end) /\
    main indel_ratio basic_db str sample_load sample_ocr
         (map sample_row [0; 1; 2; 3; 4; 5; 6]%Z) None =
      main_loop indel_ratio basic_db str sample_load sample_ocr 7
                [sample_row 6] results
                (match saved with [] => None | _ => Some (to_csv saved None) end) /\
    saved ++ results =
      map (record_of indel_ratio basic_db str sample_load sample_ocr)
          (map sample_row [0; 1; 2; 3; 4; 5]%Z) /\
    length results = 1%nat /\ (length results < 5)%nat.
Proof.
  apply (main_buffer_bounded indel_ratio basic_db str sample_load sample_ocr
           (map sample_row [0; 1; 2; 3; 4; 5; 6]%Z)
           (map sample_row [0; 1; 2; 3; 4; 5]%Z) [sample_row 6] None).
  - reflexivity.
  - reflexivity.
  - discriminate.
Defined.

(** X17. A row whose image cannot be loaded is predicted [None], whatever
    the entity; and when the block under [try] raises, the text handed to
    the pipeline is "Error: " and the message of the exception, so the
    prediction is the one the pipeline makes of the message itself. *)
Theorem prediction_of_failed_rows :
  forall (WRatio : str -> str -> Q) (U : unicode_db) (image : Type)
         (load_image_from_url : str -> option image) (ocr : image -> str + str)
         (row : data_row),
    (load_image_from_url (row_image_link row) = None ->
     final_val_of WRatio U image load_image_from_url ocr row = Ret None) /\
    (forall img e,
        load_image_from_url (row_image_link row) = Some img ->
        ocr img = inl e ->
        final_val_of WRatio U image load_image_from_url ocr row =
        pipeline WRatio U e (row_entity_name row)).
Proof.
  intros W U image load ocr row. unfold final_val_of, extracted_text_of. split.
  - intros ->. apply pipeline_no_pairs.
    unfold extract_numbers_with_units.
    rewrite findall_no_digits; [reflexivity | vm_compute; reflexivity].
  - intros img e -> ->.
    assert (E : findall U (lit "Error: " ++ e) = findall U e)
      by (apply findall_skip_prefix; vm_compute; reflexivity).
    unfold pipeline, convert_to_full_unit, extract_numbers_with_units.
    rewrite E. reflexivity.
Qed.

Lemma prediction_of_failed_rows_witness :
  final_val_of indel_ratio basic_db str sample_load sample_ocr
    {| row_index := 0; row_image_link := lit "missing";
       row_entity_name := lit "item_weight" |} = Ret None /\
  final_val_of indel_ratio basic_db str sample_load sample_ocr
    {| row_index := 1; row_image_link := lit "broken";
       row_entity_name := lit "item_weight" |} =
  pipeline indel_ratio basic_db (lit "5 kg") (lit "item_weight").
Proof.
  split.
  - apply (proj1 (prediction_of_failed_rows indel_ratio basic_db str sample_load
                    sample_ocr _)).
    reflexivity.
  - apply (proj2 (prediction_of_failed_rows indel_ratio basic_db str sample_load
                    sample_ocr
                    {| row_index := 1; row_image_link := lit "broken";
                       row_entity_name := lit "item_weight" |}) (lit "broken")).
    + reflexivity.
    + reflexivity.
Defined.

(* ------------------------------------------------------------------ *)
(** ** The text of the OCR and the extraction                           *)
(* ------------------------------------------------------------------ *)

Lemma py_join_app (sep : str) (segments : list str) (x : str) (l : list str) :
  py_join sep (segments ++ x :: l) =
  flat_map (fun s => s ++ sep) segments ++ py_join sep (x :: l).
Proof.
  assert (Hcons : forall a y t,
             py_join sep (a :: y :: t) = a ++ sep ++ py_join sep (y :: t))
    by reflexivity.
  induction segments as [|s segments IH]; [reflexivity|].
  cbn [flat_map]. rewrite <- !app_assoc, <- IH.
  destruct segments as [|s2 segments]; cbn [app]; rewrite Hcons; reflexivity.
Qed.

Lemma ascii_alpha_facts (U : unicode_db) (c : char) :
  ascii_alpha c = true -> re_space U c = false /\ re_digit U c = false.
Proof.
  unfold ascii_alpha, re_space, re_digit, ascii_space, ascii_digit, in_range.
  rewrite orb_true_iff, !andb_true_iff, !N.leb_le. intros H.
  assert (Hlt : (c <? 128) = true) by (apply N.ltb_lt; lia).
  rewrite Hlt. split.
  - apply orb_false_iff. split; apply andb_false_iff.
    + right. apply N.leb_gt. lia.
    + right. apply N.leb_gt. lia.
  - apply andb_false_iff. right. apply N.leb_gt. lia.
Qed.

Lemma ascii_digits_re_digit (U : unicode_db) (d : str) :
  forallb ascii_digit d = true -> forallb (re_digit U) d = true.
Proof.
  induction d as [|c d IH]; simpl; [reflexivity|].
  rewrite !andb_true_iff. intros [Hc Hd]. split; [|apply IH; exact Hd].
  unfold re_digit. replace (c <? 128) with true; [exact Hc|].
  symmetry. apply N.ltb_lt. unfold ascii_digit, in_range in Hc.
  apply andb_true_iff in Hc. rewrite !N.leb_le in Hc. lia.
Qed.

Section ScanFacts.
Variable U : unicode_db.

Lemma findall_from_skip (m rest : str) :
  findall_from U (length m) (m ++ rest) = findall_from U 0 rest.
Proof.
  induction m as [|c m IH]; [reflexivity|].
  cbn [length app findall_from]. exact IH.
Qed.

(** A text that starts with a match: the match, then the matches of what
    is left. *)
Lemma findall_match (s rest : str) (g : groups) :
  match_pattern U s = Some (g, rest) -> findall U s = g :: findall U rest.
Proof.
  intros H. pose proof (match_pattern_some U s g rest H) as (E & Hn & _ & Hu & _).
  destruct Hn as (d & Hd & _ & Hn).
  assert (Hne : exists c m, g_number g ++ g_spaces g ++ g_unit g = c :: m).
  { destruct (g_number g) as [|c n] eqn:En.
    - destruct Hn as [Hn | (f & _ & _ & Hn)]; [congruence|].
      destruct d; discriminate Hn.
    - exists c, (n ++ g_spaces g ++ g_unit g). reflexivity. }
  destruct Hne as (c & m & Em).
  assert (E' : s = (c :: m) ++ rest)
    by (rewrite <- Em, E, <- !app_assoc; reflexivity).
  clear E. unfold findall. subst s. cbn [app findall_from]. cbn [app] in H. rewrite H.
  f_equal.
  replace (length (c :: m ++ rest) - length rest - 1)%nat with (length m);
    [apply findall_from_skip|].
  cbn [length]. rewrite length_app. lia.
Qed.

(** The pattern on a number in ASCII digits, a space and a run of ASCII
    letters that ends the text or stands before another character. *)
Lemma match_pattern_measure (d frac u rest : str) :
  d <> [] -> forallb ascii_digit d = true ->
  (frac = [] \/
   exists f, frac = DOT :: f /\ f <> [] /\ forallb ascii_digit f = true) ->
  u <> [] -> forallb ascii_alpha u = true ->
  match rest with [] => True | c :: _ => ascii_alpha c = false end ->
  match_pattern U ((d ++ frac) ++ SPACE :: u ++ rest) =
  Some ({| g_number := d ++ frac; g_fraction := frac;
           g_spaces := [SPACE]; g_unit := u |}, rest).
Proof.
  intros Hd Hdd Hfrac Hu Huu Hrest.
  assert (Htail : forall num fr,
             match_tail U num fr (SPACE :: u ++ rest) =
             Some ({| g_number := num; g_fraction := fr;
                      g_spaces := [SPACE]; g_unit := u |}, rest)).
  { intros num fr. unfold match_tail.
    change (SPACE :: u ++ rest) with ([SPACE] ++ (u ++ rest)).
    apply star_bt_greedy; [reflexivity | |].
    - destruct u as [|c u]; [congruence|]. simpl in Huu.
      apply andb_true_iff in Huu. apply (ascii_alpha_facts U c). tauto.
    - apply plus_bt_greedy; auto. }
  unfold match_pattern. rewrite <- app_assoc.
  destruct Hfrac as [-> | (f & -> & Hf & Hff)].
  - cbn [app]. apply plus_bt_greedy; [exact Hd | | reflexivity |].
    + apply ascii_digits_re_digit. exact Hdd.
    + cbn [N.eqb SPACE DOT Pos.eqb]. rewrite app_nil_r. apply Htail.
  - change ((DOT :: f) ++ SPACE :: u ++ rest) with (DOT :: (f ++ SPACE :: u ++ rest)).
    apply plus_bt_greedy; [exact Hd | | reflexivity |].
    + apply ascii_digits_re_digit. exact Hdd.
    + rewrite N.eqb_refl.
      rewrite (plus_bt_greedy (re_digit U) f (SPACE :: u ++ rest) _
                 ({| g_number := d ++ DOT :: f; g_fraction := DOT :: f;
                     g_spaces := [SPACE]; g_unit := u |}, rest));
        [reflexivity | exact Hf | | reflexivity |].
      * apply ascii_digits_re_digit. exact Hff.
      * apply Htail.
Qed.
End ScanFacts.

(** X18. [easyocr_model] joins the text segments of the reader with single
    spaces, and the pattern lets white space stand between number and
    unit: when a segment that is a number in ASCII digits is followed by a
    segment of ASCII letters, and no segment before them holds a digit, the
    first match of the joined text is that number with that unit, and the
    other matches are those of the segments behind. *)
Theorem adjacent_segments_form_a_pair :
  forall (U : unicode_db) (image box : Type)
         (readtext : image -> list (box * str * Q)) (img : image)
         (segments more : list str) (d frac u : str),
    map (fun item => snd (fst item)) (readtext img) =
      segments ++ (d ++ frac) :: u :: more ->
    Forall (fun s => forallb (fun c => negb (re_digit U c)) s = true) segments ->
    d <> [] -> forallb ascii_digit d = true ->
    (frac = [] \/
     exists f, frac = DOT :: f /\ f <> [] /\ forallb ascii_digit f = true) ->
    u <> [] -> forallb ascii_alpha u = true ->
    findall U (easyocr_model readtext img) =
    {| g_number := d ++ frac; g_fraction := frac; g_spaces := [SPACE]; g_unit := u |}
      :: findall U (py_join [SPACE] more).
Proof.
  intros U image box readtext img segments more d frac u Hread Hseg Hd Hdd Hfrac Hu Huu.
  unfold easyocr_model. rewrite Hread, py_join_app.
  rewrite findall_skip_prefix.
  - cbn [py_join].
    destruct more as [|x more].
    + rewrite <- (app_nil_r u) at 1.
      change ((d ++ frac) ++ [SPACE] ++ u ++ [])
        with ((d ++ frac) ++ SPACE :: u ++ []).
      rewrite (findall_match U _ [] _
                 (match_pattern_measure U d frac u [] Hd Hdd Hfrac Hu Huu I)).
      reflexivity.
    + set (tail := py_join [SPACE] (x :: more)).
      change ((d ++ frac) ++ [SPACE] ++ u ++ [SPACE] ++ tail)
        with ((d ++ frac) ++ SPACE :: u ++ (SPACE :: tail)).
      rewrite (findall_match U _ (SPACE :: tail) _
                 (match_pattern_measure U d frac u (SPACE :: tail)
                    Hd Hdd Hfrac Hu Huu eq_refl)).
      f_equal; try exact (findall_skip_prefix U [SPACE] tail eq_refl).
  - clear Hread. induction Hseg as [|s segments Hs _ IH]; [reflexivity|].
    cbn [flat_map]. rewrite !forallb_app, Hs, IH. reflexivity.
Qed.

Lemma adjacent_segments_form_a_pair_witness :
  findall basic_db
    (easyocr_model (fun _ : unit => [(tt, lit "Net Wt", 1%Q); (tt, lit "2.5", 1%Q);
                                     (tt, lit "kg", 1%Q)]) tt) =
  [{| g_number := lit "2.5"; g_fraction := lit ".5"; g_spaces := [SPACE];
      g_unit := lit "kg" |}].
Proof.
  apply (adjacent_segments_form_a_pair basic_db unit unit _ tt
           [lit "Net Wt"] [] (lit "2") (lit ".5") (lit "kg")).
  - reflexivity.
  - repeat constructor.
  - discriminate.
  - reflexivity.
  - right. exists (lit "5"). repeat split. discriminate.
  - discriminate.
  - reflexivity.
Defined.

(* ------------------------------------------------------------------ *)
(** ** The polarity of the image                                        *)
(* ------------------------------------------------------------------ *)

Lemma bitwise_not_sum (pixels : list N) :
  Forall (fun p => p <= 255) pixels ->
  fold_right N.add 0 (bitwise_not pixels) + fold_right N.add 0 pixels =
  255 * N.of_nat (length pixels).
Proof.
  induction 1 as [|p pixels Hp _ IH]; [reflexivity|].
  cbn [bitwise_not map fold_right length]. fold (bitwise_not pixels).
  rewrite Nat2N.inj_succ. lia.
Qed.

Lemma bitwise_not_bound (pixels : list N) :
  Forall (fun p => p <= 255) (bitwise_not pixels).
Proof.
  unfold bitwise_not. apply Forall_forall. intros q Hq.
  apply in_map_iff in Hq. destruct Hq as (p & <- & _). lia.
Qed.

Lemma np_mean_value (pixels : list N) (m : Q) :
  np_mean pixels = Some m ->
  pixels <> [] /\
  m = Z.of_N (fold_right N.add 0 pixels) # Pos.of_nat (length pixels) /\
  Z.pos (Pos.of_nat (length pixels)) = Z.of_nat (length pixels).
Proof.
  destruct pixels as [|p pixels]; [discriminate|].
  intros [= <-]. split; [discriminate|]. split; [reflexivity|].
  rewrite <- (Nat2Z.id (length (p :: pixels))) at 1.
  cbn [length]. rewrite Nat2Z.id.
  rewrite <- positive_nat_Z, Nat2Pos.id; [reflexivity | discriminate].
Qed.

(** X19. [inversion_check] on an 8-bit grey image returns that image or
    its pixel-wise complement [255 - p], with the same number of pixels,
    all still 8-bit; and the mean of what it returns is never below 127: a
    dark image comes back with a mean above 128, an image that is not dark
    comes back unchanged. *)
Theorem inversion_check_not_dark :
  forall (image : Type) (grayscale : image -> list N) (img : image),
    Forall (fun p => p <= 255) (grayscale img) ->
    let out := inversion_check grayscale img in
    (out = grayscale img \/ out = bitwise_not (grayscale img)) /\
    length out = length (grayscale img) /\
    Forall (fun p => p <= 255) out /\
    (forall m, np_mean out = Some m -> (127 <= m)%Q) /\
    (forall m, np_mean (grayscale img) = Some m -> (m < 127)%Q ->
               out = bitwise_not (grayscale img) /\
               forall m', np_mean out = Some m' -> (128 < m')%Q).
Proof.
  intros image grayscale img Hbound out. subst out. unfold inversion_check.
  set (g := grayscale img) in *.
  assert (Hinv : forall m m',
             np_mean g = Some m -> (m < 127)%Q ->
             np_mean (bitwise_not g) = Some m' -> (128 < m')%Q).
  { intros m m' Hm Hlt Hm'.
    apply np_mean_value in Hm. destruct Hm as (_ & -> & Hn).
    apply np_mean_value in Hm'. destruct Hm' as (_ & -> & Hn').
    pose proof (bitwise_not_sum g Hbound) as Hsum.
    unfold bitwise_not in Hn' at 1. unfold bitwise_not at 2.
    rewrite length_map in *.
    unfold Qlt in *. cbn [Qnum Qden] in *. rewrite Hn in *. lia. }
  destruct (np_mean g) as [m|] eqn:Em.
  - destruct (Qlt_bool m 127) eqn:El.
    + apply Qlt_bool_iff in El.
      split; [right; reflexivity|]. split; [apply length_map|].
      split; [apply bitwise_not_bound|]. split.
      * intros m' Hm'. apply Qlt_le_weak.
        apply Qlt_trans with (y := 128%Q); [reflexivity|].
        apply (Hinv m m' eq_refl El Hm').
      * intros m0 [= <-] _. split; [reflexivity|].
        intros m' Hm'. apply (Hinv m m' eq_refl El Hm').
    + apply Qlt_bool_false in El.
      split; [left; reflexivity|]. split; [reflexivity|].
      split; [exact Hbound|]. split.
      * intros m' Hm'. rewrite Em in Hm'. injection Hm' as <-. exact El.
      * intros m0 [= <-] Hlt. exfalso. exact (Qlt_not_le _ _ Hlt El).
  - split; [left; reflexivity|]. split; [reflexivity|].
    split; [exact Hbound|]. split.
    + intros m' Hm'. rewrite Em in Hm'. discriminate.
    + intros m0 H. discriminate H.
Qed.

Lemma inversion_check_not_dark_witness :
  inversion_check (fun _ : unit => [10; 20; 250]%N) tt = [245; 235; 5]%N /\
  (127 <= 485 # 3)%Q.
Proof.
  pose proof (inversion_check_not_dark unit (fun _ => [10; 20; 250]%N) tt
                ltac:(repeat constructor; vm_compute; discriminate)) as H.
  cbv zeta in H. destruct H as (_ & _ & _ & H4 & H5). split.
  - apply (H5 (280 # 3)); [reflexivity | vm_compute; reflexivity].
  - apply H4. reflexivity.
Defined.

(* ------------------------------------------------------------------ *)
(** ** A measurement in plain writing, end to end                       *)
(* ------------------------------------------------------------------ *)

Lemma first_occurrence (x : str) (l : list str) :
  In x l -> exists l1 l2, l = l1 ++ x :: l2 /\ ~ In x l1.
Proof.
  induction l as [|y l IH]; [intros []|]. intros H.
  destruct (str_eqb y x) eqn:E.
  - apply str_eqb_eq in E. subst y. exists [], l. split; [reflexivity | intros []].
  - apply str_eqb_neq in E. destruct H as [H | H]; [contradiction|].
    destruct (IH H) as (l1 & l2 & -> & Hn). exists (y :: l1), l2.
    split; [reflexivity|]. intros [Hy | Hy]; [contradiction | exact (Hn Hy)].
Qed.

Lemma ascii_alpha_word (U : unicode_db) (m : str) :
  forallb ascii_alpha m = true -> forallb (re_word U) m = true.
Proof.
  induction m as [|c m IH]; simpl; [reflexivity|].
  rewrite !andb_true_iff. intros [Hc Hm]. split; [|apply IH; exact Hm].
  unfold re_word. rewrite Hc.
  replace (c <? 128) with true; [reflexivity|].
  symmetry. apply N.ltb_lt. unfold ascii_alpha, in_range in Hc.
  rewrite orb_true_iff, !andb_true_iff, !N.leb_le in Hc. lia.
Qed.

(** A matcher whose scorer gives the optimum to identical strings only
    returns a candidate of the list as it is. *)
Lemma extractOne_member (WRatio : str -> str -> Q) (m : str) :
  In m all_units ->
  (WRatio m m == 100)%Q ->
  (forall c, In c all_units -> c <> m -> (WRatio m c < 100)%Q) ->
  exists score i, extractOne WRatio m all_units score_cutoff = Some (m, score, i).
Proof.
  intros Hin Hmm Hlt.
  destruct (first_occurrence m all_units Hin) as (l1 & l2 & E & Hn).
  unfold extractOne. rewrite E. eexists. eexists.
  apply extractOne_from_exact; auto.
  - vm_compute. discriminate.
  - intros c Hc. apply Hlt.
    + rewrite E. apply in_or_app. left. exact Hc.
    + intros ->. exact (Hn Hc).
Qed.

(** X20. A candidate of the matcher made of ASCII letters only goes
    through the second pattern and the normaliser unharmed: written behind
    a number it is read back whole, and its full form is the canonical unit
    that lists it, never the empty string. *)
Theorem letter_candidates_are_recognized :
  forall (U : unicode_db) (n m : str),
    n <> [] -> forallb re_num_dot n = true ->
    In m all_units -> forallb ascii_alpha m = true ->
    match_number_unit U (n ++ SPACE :: m) = Some (n, m) /\
    get_full_unit U m <> [] /\
    surface_form (get_full_unit U m) m.
Proof.
  intros U n m Hn Hnd Hin Hal.
  assert (Hne : m <> []).
  { assert (H : forallb (fun c => negb (str_eqb c [])) all_units = true)
      by (vm_compute; reflexivity).
    rewrite forallb_forall in H. specialize (H m Hin).
    apply negb_true_iff, str_eqb_neq in H. exact H. }
  split.
  - apply match_number_unit_formatted; auto.
    + apply ascii_alpha_word. exact Hal.
    + destruct m as [|c m]; [congruence|]. simpl in Hal.
      apply andb_true_iff in Hal. apply (ascii_alpha_facts U c). tauto.
  - assert (H : forallb (fun c =>
                  negb (forallb ascii_alpha c) ||
                  (negb (str_eqb (get_full_unit U c) []) &&
                   match dict_get unit_fullform_to_abbreviation (get_full_unit U c) with
                   | Some abbreviations => str_in c abbreviations
                   | None => false
                   end)) all_units = true) by (vm_compute; reflexivity).
    rewrite forallb_forall in H. specialize (H m Hin). rewrite Hal in H.
    cbn [negb orb] in H. apply andb_true_iff in H. destruct H as [H1 H2].
    apply negb_true_iff, str_eqb_neq in H1. split; [exact H1|].
    destruct (dict_get unit_fullform_to_abbreviation (get_full_unit U m))
      as [abbreviations|] eqn:Ed; [|discriminate].
    exists abbreviations. split; [apply dict_get_In; exact Ed|].
    right. apply str_in_In. exact H2.
Qed.

Lemma letter_candidates_are_recognized_witness :
  match_number_unit basic_db (lit "12.5" ++ SPACE :: lit "lbs") =
    Some (lit "12.5", lit "lbs") /\
  get_full_unit basic_db (lit "lbs") <> [] /\
  surface_form (get_full_unit basic_db (lit "lbs")) (lit "lbs").
Proof.
  apply (letter_candidates_are_recognized basic_db (lit "12.5") (lit "lbs")).
  - discriminate.
  - reflexivity.
  - apply str_in_In. vm_compute. reflexivity.
  - reflexivity.
Defined.

Lemma ascii_digits_num_dot (d : str) :
  forallb ascii_digit d = true -> forallb re_num_dot d = true.
Proof.
  induction d as [|c d IH]; simpl; [reflexivity|].
  rewrite !andb_true_iff. intros [Hc Hd]. split; [|apply IH; exact Hd].
  unfold re_num_dot. rewrite Hc. reflexivity.
Qed.

(** A number in ASCII digits, with or without a fraction: it is not empty,
    stays within digits and points, and is read by [float]. *)
Lemma ascii_number_facts (d frac : str) :
  d <> [] -> forallb ascii_digit d = true ->
  (frac = [] \/
   exists f, frac = DOT :: f /\ f <> [] /\ forallb ascii_digit f = true) ->
  d ++ frac <> [] /\ forallb re_num_dot (d ++ frac) = true /\
  exists q, py_float (d ++ frac) = Ret q.
Proof.
  intros Hd Hdd Hfrac. split; [destruct d; [congruence | discriminate]|].
  destruct Hfrac as [-> | (f & -> & Hf & Hff)].
  - rewrite app_nil_r. split; [apply ascii_digits_num_dot; exact Hdd|].
    eexists. apply py_float_integer; assumption.
  - split.
    + rewrite forallb_app. cbn [forallb].
      rewrite (ascii_digits_num_dot d Hdd), (ascii_digits_num_dot f Hff). reflexivity.
    + eexists. apply py_float_decimal; assumption.
Qed.

(** X21. A measurement in plain writing is predicted as written, with the
    canonical unit: for a text that is a number in ASCII digits, a space
    and a candidate of ASCII letters (behind any text without digits), a
    scorer that gives 100 to identical strings only, and an entity whose
    category holds the full form of the candidate, the pipeline returns the
    number, a space and that full form. *)
Theorem plain_measurement_is_predicted :
  forall (WRatio : str -> str -> Q) (U : unicode_db)
         (pre d frac m entity_name category : str) (dir : direction)
         (unit_set : list str),
    forallb (fun c => negb (re_digit U c)) pre = true ->
    d <> [] -> forallb ascii_digit d = true ->
    (frac = [] \/
     exists f, frac = DOT :: f /\ f <> [] /\ forallb ascii_digit f = true) ->
    In m all_units -> forallb ascii_alpha m = true ->
    (WRatio m m == 100)%Q ->
    (forall c, In c all_units -> c <> m -> (WRatio m c < 100)%Q) ->
    entity_rule entity_name = Some (category, dir) ->
    In (category, unit_set) unit_categories ->
    In (get_full_unit U m) unit_set ->
    pipeline WRatio U (pre ++ (d ++ frac) ++ SPACE :: m) entity_name =
    Ret (Some ((d ++ frac) ++ SPACE :: get_full_unit U m)).
Proof.
  intros W U pre d frac m entity category dir unit_set
         Hpre Hd Hdd Hfrac Hin Hal Hmm Hlt Hrule Hcat Hu.
  destruct (ascii_number_facts d frac Hd Hdd Hfrac) as (Hne & Hnd & q & Hq).
  set (num := d ++ frac) in *. set (u := get_full_unit U m) in *.
  assert (Hm : m <> []).
  { intros ->. destruct (extractOne_member W [] Hin Hmm Hlt) as (sc & i & E).
    assert (H : forallb (fun c => negb (str_eqb c [])) all_units = true)
      by (vm_compute; reflexivity).
    rewrite forallb_forall in H. specialize (H [] Hin). discriminate H. }
  assert (Hfind : findall U (pre ++ num ++ SPACE :: m) =
                  [{| g_number := num; g_fraction := frac;
                      g_spaces := [SPACE]; g_unit := m |}]).
  { rewrite (findall_skip_prefix U pre _ Hpre). unfold num.
    pose proof (findall_match U _ [] _
                  (match_pattern_measure U d frac m [] Hd Hdd Hfrac Hm Hal I)) as E.
    rewrite app_nil_r in E. exact E. }
  assert (Hext : extract_numbers_with_units W U (pre ++ num ++ SPACE :: m) =
                 [num ++ SPACE :: m]).
  { unfold extract_numbers_with_units. rewrite Hfind.
    cbn [flat_map]. unfold fuzzy_item. cbn [g_unit g_number].
    destruct (extractOne_member W m Hin Hmm Hlt) as (sc & i & ->). reflexivity. }
  assert (Hsep : match_number_unit U (num ++ SPACE :: m) = Some (num, m)).
  { apply match_number_unit_formatted; auto.
    - apply ascii_alpha_word. exact Hal.
    - destruct m as [|c m']; [congruence|]. simpl in Hal.
      apply andb_true_iff in Hal. apply (ascii_alpha_facts U c). tauto. }
  unfold pipeline, convert_to_full_unit. rewrite Hext.
  cbn [separate_numbers_and_units]. rewrite Hsep.
  cbn [map combine fst snd]. fold u.
  unfold categorize_values. cbn [combine categorize_loop].
  destruct (categorize_one_total num u (ex_intro _ q Hq) unit_categories
              empty_categorized_values (fun c s H => H) eq_refl)
    as (cv & Ecv & Hk).
  rewrite Ecv. cbn [bind].
  assert (H0 : dict_get empty_categorized_values category = Some []).
  { clear - Hcat. vm_compute in Hcat.
    repeat (destruct Hcat as [Hcat | Hcat]; [inversion Hcat; reflexivity|]).
    contradiction. }
  pose proof (categorize_one_get num u _ _ _ unit_categories_distinct Ecv
                category [] H0) as Hget.
  destruct (registry_sound category unit_set u Hcat Hu) as (_ & factor & Hfac & _).
  unfold contribution_in in Hget.
  rewrite (dict_get_member _ _ _ unit_categories_distinct Hcat) in Hget.
  assert (Hsin : str_in u unit_set = true) by (apply str_in_In; exact Hu).
  rewrite Hsin, Hq, Hfac in Hget. cbn [app] in Hget.
  rewrite get_entity_value_select. unfold select. rewrite Hrule, Hget.
  destruct dir; reflexivity.
Qed.

Lemma plain_measurement_is_predicted_witness :
  pipeline indel_ratio basic_db (lit "Height: " ++ (lit "12" ++ lit ".5") ++ SPACE :: lit "cm")
           (lit "height") =
  Ret (Some ((lit "12" ++ lit ".5") ++ SPACE :: get_full_unit basic_db (lit "cm"))).
Proof.
  apply (plain_measurement_is_predicted indel_ratio basic_db (lit "Height: ")
           (lit "12") (lit ".5") (lit "cm") (lit "height") (lit "length") TakeMaximum
           [lit "millimetre"; lit "centimetre"; lit "metre"; lit "inch";
            lit "foot"; lit "yard"]).
  - reflexivity.
  - discriminate.
  - reflexivity.
  - right. exists (lit "5"). repeat split. discriminate.
  - apply str_in_In. vm_compute. reflexivity.
  - reflexivity.
  - vm_compute. reflexivity.
  - apply exact_optimum. vm_compute. reflexivity.
  - reflexivity.
  - left. reflexivity.
  - apply str_in_In. vm_compute. reflexivity.
Defined.

(** The rounding decides the selection.  In "216 in 18 ft" the two lengths
    are the same rational, but [216 * 25.4] is the double below
    [18 * 304.8], so the height is "18 foot"; and two weights that differ
    only beyond the 53 bits of a double are a tie, of which the first is
    kept. *)
Lemma rounding_decides_selection :
  pipeline indel_ratio basic_db (lit "216 in 18 ft") (lit "height") =
    Ret (Some (lit "18 foot")) /\
  pipeline indel_ratio basic_db (lit "216 in 18 ft") (lit "width") =
    Ret (Some (lit "216 inch")) /\
  pipeline indel_ratio basic_db
    (lit "9007199254740992 g 9007199254740993 g") (lit "item_weight") =
    Ret (Some (lit "9007199254740992 gram")).
Proof.
  repeat split; vm_compute; reflexivity.
Qed.

(* ------------------------------------------------------------------ *)
(** ** The candidates of the matcher                                    *)
(* ------------------------------------------------------------------ *)

(** From the normaliser on, a single pair with a number that [float] reads
    and a unit of the entity's category is predicted as it is written. *)
Lemma single_pair_is_selected (num u entity_name category : str)
      (dir : direction) (unit_set : list str) :
  (exists f, py_float num = Ret f) ->
  entity_rule entity_name = Some (category, dir) ->
  In (category, unit_set) unit_categories -> In u unit_set ->
  (cv <- categorize_values [num] [u] ;; get_entity_value entity_name cv) =
  Ret (Some (num ++ SPACE :: u)).
Proof.
  intros (f & Hf) Hrule Hcat Hu.
  unfold categorize_values. cbn [combine categorize_loop].
  destruct (categorize_one_total num u (ex_intro _ f Hf) unit_categories
              empty_categorized_values (fun c s H => H) eq_refl)
    as (cv & Ecv & Hk).
  rewrite Ecv. cbn [bind].
  assert (H0 : dict_get empty_categorized_values category = Some []).
  { clear - Hcat. vm_compute in Hcat.
    repeat (destruct Hcat as [Hcat | Hcat]; [inversion Hcat; reflexivity|]).
    contradiction. }
  pose proof (categorize_one_get num u _ _ _ unit_categories_distinct Ecv
                category [] H0) as Hget.
  destruct (registry_sound category unit_set u Hcat Hu) as (_ & factor & Hfac & _).
  unfold contribution_in in Hget.
  rewrite (dict_get_member _ _ _ unit_categories_distinct Hcat) in Hget.
  assert (Hsin : str_in u unit_set = true) by (apply str_in_In; exact Hu).
  rewrite Hsin, Hf, Hfac in Hget. cbn [app] in Hget.
  rewrite get_entity_value_select. unfold select. rewrite Hrule, Hget.
  destruct dir; reflexivity.
Qed.

(** C5. The candidates of the matcher are the abbreviations only: of the
    canonical names just "litre" and "cup" are among them, because their
    own lists repeat them; "kilogram" and "metre" are not.  So a canonical
    name written in letters that the scorer does not bring to 95 against
    some abbreviation is rejected: the text "5 " followed by the name gives
    no pair and the prediction is [None], although the normaliser maps the
    name to itself (it tests [unit_input == full_unit]) and the later
    stages predict the pair as written. *)
Theorem canonical_name_is_rejected :
  forall (WRatio : str -> str -> Q) (U : unicode_db) (u entity_name : str),
    In u allowed_units -> forallb ascii_alpha u = true ->
    extractOne WRatio u all_units score_cutoff = None ->
    let text := lit "5" ++ SPACE :: u in
    map (fun m => (g_number m, g_unit m)) (findall U text) = [(lit "5", u)] /\
    extract_numbers_with_units WRatio U text = [] /\
    pipeline WRatio U text entity_name = Ret None /\
    get_full_unit U u = u /\
    (forall category dir unit_set,
        entity_rule entity_name = Some (category, dir) ->
        In (category, unit_set) unit_categories -> In u unit_set ->
        (cv <- categorize_values [lit "5"] [get_full_unit U u] ;;
         get_entity_value entity_name cv) = Ret (Some (lit "5" ++ SPACE :: u))) /\
    ~ In (lit "kilogram") all_units /\ ~ In (lit "metre") all_units /\
    ~ canonical_names_are_candidates /\
    (forall c, In c allowed_units ->
               (In c all_units <-> c = lit "litre" \/ c = lit "cup")).
Proof.
  intros W U u entity Hin Hal Hrej text.
  assert (Hne : u <> []).
  { assert (H : forallb (fun c => negb (str_eqb c [])) allowed_units = true)
      by (vm_compute; reflexivity).
    rewrite forallb_forall in H. specialize (H u Hin).
    apply negb_true_iff, str_eqb_neq in H. exact H. }
  assert (Hfind : findall U text =
                  [{| g_number := lit "5"; g_fraction := [];
                      g_spaces := [SPACE]; g_unit := u |}]).
  { pose proof (findall_match U _ [] _
                  (match_pattern_measure U (lit "5") [] u []
                     ltac:(discriminate) eq_refl (or_introl eq_refl) Hne Hal I)) as E.
    rewrite !app_nil_r in E. exact E. }
  assert (Hext : extract_numbers_with_units W U text = []).
  { unfold extract_numbers_with_units. rewrite Hfind.
    cbn [flat_map]. unfold fuzzy_item. cbn [g_unit g_number].
    rewrite Hrej. reflexivity. }
  assert (Hfull : get_full_unit U u = u).
  { assert (H : forallb (fun c =>
                  negb (forallb ascii_alpha c) || str_eqb (get_full_unit U c) c)
                  allowed_units = true) by (vm_compute; reflexivity).
    rewrite forallb_forall in H. specialize (H u Hin). rewrite Hal in H.
    apply str_eqb_eq. exact H. }
  assert (Hkg : ~ In (lit "kilogram") all_units)
    by (apply str_in_not_In; vm_compute; reflexivity).
  refine (conj _ (conj Hext (conj _ (conj Hfull (conj _ (conj Hkg (conj _ (conj _ _)))))))).
  - rewrite Hfind. reflexivity.
  - apply pipeline_no_pairs. exact Hext.
  - intros category dir unit_set Hrule Hcat Hu. rewrite Hfull.
    apply (single_pair_is_selected (lit "5") u entity category dir unit_set);
      auto.
    eexists. vm_compute. reflexivity.
  - apply str_in_not_In. vm_compute. reflexivity.
  - intros H. apply Hkg. apply H. apply str_in_In. vm_compute. reflexivity.
  - assert (H : forallb (fun c =>
                  Bool.eqb (str_in c all_units)
                           (str_eqb c (lit "litre") || str_eqb c (lit "cup")))
                  allowed_units = true) by (vm_compute; reflexivity).
    intros c Hc. rewrite forallb_forall in H. specialize (H c Hc).
    apply Bool.eqb_prop in H.
    rewrite <- str_in_In, H, orb_true_iff, !str_eqb_eq. tauto.
Qed.

Lemma canonical_name_is_rejected_witness :
  extractOne indel_ratio (lit "kilogram") all_units score_cutoff = None /\
  pipeline indel_ratio basic_db (lit "5" ++ SPACE :: lit "kilogram") (lit "item_weight")
  = Ret None /\
  get_full_unit basic_db (lit "kilogram") = lit "kilogram" /\
  (cv <- categorize_values [lit "5"] [get_full_unit basic_db (lit "kilogram")] ;;
   get_entity_value (lit "item_weight") cv) =
  Ret (Some (lit "5" ++ SPACE :: lit "kilogram")) /\
  pipeline indel_ratio basic_db (lit "5 kilograms") (lit "item_weight")
  = Ret (Some (lit "5 kilogram")).
Proof.
  assert (Hrej : extractOne indel_ratio (lit "kilogram") all_units score_cutoff = None)
    by (vm_compute; reflexivity).
  pose proof (canonical_name_is_rejected indel_ratio basic_db (lit "kilogram")
                (lit "item_weight")
                ltac:(apply str_in_In; vm_compute; reflexivity)
                ltac:(reflexivity) Hrej) as H.
  cbv zeta in H. destruct H as (_ & _ & H3 & H4 & H5 & _).
  refine (conj Hrej (conj H3 (conj H4 (conj _ _)))).
  - apply (H5 (lit "weight") TakeMaximum
             [lit "milligram"; lit "gram"; lit "kilogram"; lit "microgram";
              lit "ounce"; lit "pound"; lit "ton"]).
    + reflexivity.
    + right. left. reflexivity.
    + right. right. left. reflexivity.
  - vm_compute. reflexivity.
Defined.
